(** * SEPIA: the metric scoring engine, the rank matcher and the tau-b driver

    A shallow embedding of [efficacyFunctions.py] and [compute_taub.py],
    and of the earlier module [orderCheck.py].

    - Python [str] values are [string]s (ASCII text); [dict]s keyed by
      individuals are [gmap string _]; Python [int] counts are [nat]; a
      Python [float] is a rational, an infinity or not-a-number.
    - A raised exception is the [Raise] branch of [result]; the loops of the
      source thread their dictionaries through [for_each], and the loop that
      writes to a sink returns the sink with the exception that ended it.
    - The library calls the source makes ([float], [np.linspace],
      [np.empty], [stats.linregress], [stats.kendalltau], the ["%f"] and
      ["%s"] formats of numbers) are parameters of the sections that use
      them; ["%d"] is given for counts and slopes. *)

From Stdlib Require Import Ascii String QArith.
From stdpp Require Import gmap strings list fin_maps.

Set Warnings "-clear-no-such-hyp".


(** ** Exceptions *)

(** The selector given with [-m] is a Python float.  The source reads it in
    three ways only: [metric == k] for an integer constant [k],
    [int(metric)], and the digits that [str(metric)] prints after the decimal
    point, read back as a number.  A selector is therefore kept as its
    integer part together with that number: [2.0] is [(2, 0)], [2.5] is
    [(2, 5)], [3.12] is [(3, 12)]. *)
Record selector := Selector { sel_int : Z; sel_frac : nat }.

(** What a [ValueError] of the source is about. *)
Inductive value_error :=
| MissingTransmissionHist (metric : selector)
    (* "Missing transmission history file for metric ..." *)
| MissingContactNet (metric : selector)
    (* "Missing contact network file for metric ..." *)
| NoSuchMetric (metric : selector)
    (* "No metric ... exists." *)
| UnpackError (fields : nat)
    (* [u,v,t = line.split(...)] with another number of fields *)
| FloatSyntax (text : string)
    (* [float(t)] on text that is not a number *)
| IntOfNaN.
    (* "cannot convert float NaN to integer", of ["%d"] *)

Inductive exn :=
| ValueError (what : value_error)
| KeyError (key : string)
| IndexError
| FileNotFoundError
| OverflowError.
    (* "cannot convert float infinity to integer", of ["%d"] *)

Inductive result (A : Type) :=
| Ok (a : A)
| Raise (e : exn).
Arguments Ok {A} a.
Arguments Raise {A} e.

#[global] Instance result_ret : MRet result := @Ok.
#[global] Instance result_bind : MBind result := λ A B f r,
  match r with
  | Ok a => f a
  | Raise e => Raise e
  end.

(** A [for x in xs:] loop whose body may raise. *)
Fixpoint for_each {A S : Type} (body : A → S → result S) (xs : list A) (st : S)
  : result S :=
  match xs with
  | [] => Ok st
  | x :: xs' => st' ← body x st; for_each body xs' st'
  end.

(** Reading every element before anything else is done with them. *)
Fixpoint read_all {A B : Type} (f : A → result B) (xs : list A)
  : result (list B) :=
  match xs with
  | [] => Ok []
  | x :: xs' => y ← f x; ys ← read_all f xs'; Ok (y :: ys)
  end.

(** ** Strings: [str.strip], [str.split], [str.splitlines] *)

Definition TAB_CHAR : ascii := ascii_of_nat 9.
Definition LF : ascii := ascii_of_nat 10.
Definition CR : ascii := ascii_of_nat 13.

(** [str.isspace] on ASCII: tab, LF, VT, FF, CR, FS, GS, RS, US and space. *)
Definition is_space (c : ascii) : bool :=
  let n := nat_of_ascii c in
  ((9 <=? n)%nat && (n <=? 13)%nat) || ((28 <=? n)%nat && (n <=? 32)%nat).

(** The line boundaries of [str.splitlines] on ASCII. *)
Definition is_linebreak (c : ascii) : bool :=
  let n := nat_of_ascii c in
  ((10 <=? n)%nat && (n <=? 13)%nat) || ((28 <=? n)%nat && (n <=? 30)%nat).

Fixpoint lstrip (s : string) : string :=
  match s with
  | EmptyString => EmptyString
  | String c s' => if is_space c then lstrip s' else s
  end.

Fixpoint rstrip (s : string) : string :=
  match s with
  | EmptyString => EmptyString
  | String c s' =>
      match rstrip s' with
      | EmptyString => if is_space c then EmptyString else String c EmptyString
      | r => String c r
      end
  end.

Definition strip (s : string) : string := rstrip (lstrip s).

(** [s.split(sep)] for a one-character separator: never an empty list. *)
Fixpoint split (sep : ascii) (s : string) : list string :=
  match s with
  | EmptyString => [EmptyString]
  | String c s' =>
      if Ascii.eqb c sep then EmptyString :: split sep s'
      else match split sep s' with
           | f :: fs => String c f :: fs
           | [] => [String c EmptyString]
           end
  end.

(** [s.splitlines()]; [cur] is the line being read.  CR LF is one boundary
    and a final boundary opens no further line. *)
Fixpoint splitlines_from (cur s : string) : list string :=
  match s with
  | EmptyString => if decide (cur = EmptyString) then [] else [cur]
  | String c s' =>
      if is_linebreak c then
        cur :: match s' with
               | String c' s'' =>
                   if Ascii.eqb c CR && Ascii.eqb c' LF
                   then splitlines_from EmptyString s''
                   else splitlines_from EmptyString s'
               | EmptyString => []
               end
      else splitlines_from (cur +:+ String c EmptyString) s'
  end.

Definition splitlines (s : string) : list string := splitlines_from EmptyString s.

(** [line[0:4]] *)
Definition slice_0_4 (line : string) : string := substring 0 4 line.

(** ** Floats *)

(** A Python float: a rational, one of the infinities, or not-a-number,
    which [float] reads from the text [nan]. *)
Inductive pyfloat :=
| Fin (q : Q)
| PInf
| NInf
| NaN.

(** [a > b]: false when either side is not-a-number. *)
Definition fgt (a b : pyfloat) : bool :=
  match a, b with
  | NaN, _ => false
  | _, NaN => false
  | NInf, _ => false
  | _, PInf => false
  | _, NInf => true
  | PInf, _ => true
  | Fin x, Fin y => negb (Qle_bool x y)
  end.

(** [a <= b]: false when either side is not-a-number. *)
Definition fle (a b : pyfloat) : bool :=
  match a, b with
  | NaN, _ => false
  | _, NaN => false
  | NInf, _ => true
  | _, PInf => true
  | _, NInf => false
  | PInf, _ => false
  | Fin x, Fin y => Qle_bool x y
  end.

(** [a == float('inf')] *)
Definition is_pinf (a : pyfloat) : bool :=
  match a with PInf => true | _ => false end.

(** ** Files *)

(** The file argument of a metric.  The command line leaves the path of a
    log that was not given as [''], which is what [pairCounts] tests for;
    any other argument stands for the text that reading it returns. *)
Inductive file :=
| NotSupplied
| Text (content : string).

(** [opengzip]: the stripped lines of the stripped text.  Opening the path
    [''] raises. *)
Definition opengzip (transmissionHist : file) : result (list string) :=
  match transmissionHist with
  | NotSupplied => Raise FileNotFoundError
  | Text content => Ok (strip <$> splitlines (strip content))
  end.

(** ** Dictionaries of counts *)

(** [if k not in d: d[k] = 0] *)
Definition setdefault0 (k : string) (d : gmap string nat) : gmap string nat :=
  if decide (is_Some (d !! k)) then d else <[k := 0%nat]> d.

(** [d[k] += n], on a key that is present *)
Definition add_to (k : string) (n : nat) (d : gmap string nat) : gmap string nat :=
  <[k := (d !!! k + n)%nat]> d.

(** [a, b, c = fields] *)
Definition unpack3 (fields : list string) : result (string * string * string) :=
  match fields with
  | [a; b; c] => Ok (a, b, c)
  | _ => Raise (ValueError (UnpackError (length fields)))
  end.

(** [a, b, c, d, e = fields] *)
Definition unpack5 (fields : list string)
  : result (string * string * string * string * string) :=
  match fields with
  | [a; b; c; d; e] => Ok (a, b, c, d, e)
  | _ => Raise (ValueError (UnpackError (length fields)))
  end.

Section Metrics.

(** Python's [float(text)]: [None] where it raises [ValueError]. *)
Variable float : string → option pyfloat.

Definition float_of (t : string) : result pyfloat :=
  match float t with
  | Some x => Ok x
  | None => Raise (ValueError (FloatSyntax t))
  end.

(** *** Metric 1: [directTransmissions] *)

Definition directTransmissions_line (lowerBound upperBound : pyfloat)
    (line : string) (numInfected : gmap string nat) : result (gmap string nat) :=
  '(u, v, t) ← unpack3 (split TAB_CHAR line);
  let u := strip u in
  let v := strip v in
  ft ← float_of t;
  if fgt lowerBound ft || fgt ft upperBound then Ok numInfected
  else if decide (u = "" ∨ u = "None") then Ok numInfected
  else
    let numInfected := setdefault0 u numInfected in
    Ok (add_to u 1 numInfected).

Definition directTransmissions (transmissionHist : file)
    (lowerBound upperBound : pyfloat) : result (gmap string nat) :=
  lines ← opengzip transmissionHist;
  for_each (directTransmissions_line lowerBound upperBound) lines ∅.

(** *** Metric 2: [bestfitGraph] *)

Definition DEF_POINTS_PER_STEP : nat := 10.

(** [np.linspace(start, stop, num, endpoint=True)] *)
Variable linspace : pyfloat → pyfloat → nat → list pyfloat.
(** The element that [np.empty(1)] leaves uninitialised in [x] and in [y].
    The two calls are made afresh in the iteration for each transmitter, so
    what they leave is given for each transmitter. *)
Variable empty_x empty_y : string → pyfloat.
(** [stats.linregress(x, y).slope] *)
Variable linregress_slope : list pyfloat → list pyfloat → pyfloat.

(** [if k not in d: d[k] = []] *)
Definition setdefault_nil {A} (k : string) (d : gmap string (list A))
  : gmap string (list A) :=
  if decide (is_Some (d !! k)) then d else <[k := []]> d.

(** [d[k].append(x)] and [d[k].extend(xs)], on a key that is present.  No
    list of the source is reachable from two dictionaries while it is
    extended, so a dictionary of list values stands for it. *)
Definition extend_at {A} (k : string) (xs : list A) (d : gmap string (list A))
  : gmap string (list A) :=
  <[k := d !!! k ++ xs]> d.

(** [l[i]] *)
Definition index {A} (l : list A) (i : nat) : result A :=
  match l !! i with
  | Some x => Ok x
  | None => Raise IndexError
  end.

(** [d[k]] *)
Definition getitem {V} (d : gmap string V) (k : string) : result V :=
  match d !! k with
  | Some x => Ok x
  | None => Raise (KeyError k)
  end.

(** The first loop of [bestfitGraph]: the times at which each source
    transmitted, and the latest time. *)
Definition bestfitGraph_line (lowerBound upperBound : pyfloat)
    (isUpperBoundSet : bool) (line : string)
    (st : gmap string (list pyfloat) * pyfloat)
  : result (gmap string (list pyfloat) * pyfloat) :=
  let '(timesInfected, latestInfectionTime) := st in
  '(u, v, t) ← unpack3 (split TAB_CHAR line);
  let u := strip u in
  let v := strip v in
  ft ← float_of t;
  if fgt lowerBound ft || fgt ft upperBound then Ok st
  else if decide (u = "None") then Ok st
  else
    let timesInfected := setdefault_nil u timesInfected in
    let timesInfected := extend_at u [ft] timesInfected in
    let latestInfectionTime :=
      if negb isUpperBoundSet && fgt ft latestInfectionTime then ft
      else latestInfectionTime in
    Ok (timesInfected, latestInfectionTime).

Definition bestfitGraph_scan (transmissionHist : file)
    (lowerBound upperBound : pyfloat)
  : result (gmap string (list pyfloat) * pyfloat) :=
  lines ← opengzip transmissionHist;
  let isUpperBoundSet := negb (is_pinf upperBound) in
  let latestInfectionTime :=
    if is_pinf upperBound then Fin (-1) else upperBound in
  for_each (bestfitGraph_line lowerBound upperBound isUpperBoundSet)
    lines (∅, latestInfectionTime).

(** The calls of [np.linspace] for one transmitter, in order: start, stop,
    and the level that [y] repeats over the samples of the call. *)
Definition step : Type := pyfloat * pyfloat * nat.

Definition bestfitGraph_step (times : list pyfloat)
    (latestInfectionTime : pyfloat) (i : nat) (steps : list step)
  : result (list step) :=
  if decide (i = length times - 1)%nat then
    ti ← index times i;
    Ok (steps ++ [(ti, latestInfectionTime, i + 1)%nat])
  else
    ti ← index times i;
    tj ← index times (i + 1);
    Ok (steps ++ [(ti, tj, i + 1)%nat]).

Definition bestfitGraph_steps (lowerBound : pyfloat) (times : list pyfloat)
    (latestInfectionTime : pyfloat) : result (list step) :=
  t0 ← index times 0;
  for_each (bestfitGraph_step times latestInfectionTime)
    (seq 0 (length times)) [(lowerBound, t0, 0%nat)].

Definition level_float (n : nat) : pyfloat := Fin (inject_Z (Z.of_nat n)).

Definition bestfitGraph_slope (u : string) (lowerBound : pyfloat)
    (times : list pyfloat) (latestInfectionTime : pyfloat)
    (numPointsPerStep : nat) : result pyfloat :=
  steps ← bestfitGraph_steps lowerBound times latestInfectionTime;
  let x := empty_x u ::
    flat_map (λ s : step, linspace s.1.1 s.1.2 numPointsPerStep) steps in
  let y := empty_y u ::
    flat_map (λ s : step, replicate numPointsPerStep (level_float s.2)) steps in
  Ok (linregress_slope x y).

Definition bestfitGraph (transmissionHist : file)
    (lowerBound upperBound : pyfloat) (numPointsPerStep : nat)
  : result (gmap string pyfloat) :=
  let numPointsPerStep :=
    if decide (numPointsPerStep = 0)%nat then DEF_POINTS_PER_STEP
    else numPointsPerStep in
  '(timesInfected, latestInfectionTime) ←
    bestfitGraph_scan transmissionHist lowerBound upperBound;
  map_fold (λ u times acc,
              slopesDict ← acc;
              slope ← bestfitGraph_slope u lowerBound times latestInfectionTime
                         numPointsPerStep;
              Ok (<[u := slope]> slopesDict))
    (Ok ∅) timesInfected.

(** *** Metric 3: [indirectTransmissions] *)

Definition indirectTransmissions_line (lowerBound upperBound : pyfloat)
    (line : string) (direct : gmap string (list string))
  : result (gmap string (list string)) :=
  '(u, v, t) ← unpack3 (split TAB_CHAR line);
  let u := strip u in
  let v := strip v in
  ft ← float_of t;
  if fgt lowerBound ft || fgt ft upperBound then Ok direct
  else if decide (u = "None") then Ok direct
  else
    let direct := setdefault_nil u direct in
    let direct := setdefault_nil v direct in
    Ok (extend_at u [v] direct).

(** [for key in lastDegree: ...]: the infectees one degree further. *)
Definition indirectTransmissions_expand (direct lastDegree : gmap string (list string))
    (thisDegree : gmap string (list string))
  : result (gmap string (list string)) :=
  map_fold (λ key values acc,
              thisDegree ← acc;
              let thisDegree := setdefault_nil key thisDegree in
              for_each (λ value thisDegree,
                          infectees ← getitem direct value;
                          Ok (extend_at key infectees thisDegree))
                values thisDegree)
    (Ok thisDegree) lastDegree.

(** [for key in thisDegree: ...]: the count at this degree is added. *)
Definition indirectTransmissions_tally (thisDegree : gmap string (list string))
    (numIndirect : gmap string nat) : gmap string nat :=
  map_fold (λ key _ numIndirect,
              let numIndirect := setdefault0 key numIndirect in
              add_to key (length (thisDegree !!! key)) numIndirect)
    numIndirect thisDegree.

(** [for n in range(1, numDegrees)], [rounds] iterations being left. *)
Fixpoint indirectTransmissions_degrees (rounds : nat)
    (direct lastDegree thisDegree : gmap string (list string))
    (numIndirect : gmap string nat) : result (gmap string nat) :=
  match rounds with
  | O => Ok numIndirect
  | S rounds' =>
      thisDegree ← indirectTransmissions_expand direct lastDegree thisDegree;
      let numIndirect := indirectTransmissions_tally thisDegree numIndirect in
      let lastDegree := thisDegree in
      let thisDegree : gmap string (list string) := ∅ in
      indirectTransmissions_degrees rounds' direct lastDegree thisDegree
        numIndirect
  end.

Definition indirectTransmissions (transmissionHist : file) (numDegrees : nat)
    (lowerBound upperBound : pyfloat) : result (gmap string nat) :=
  lines ← opengzip transmissionHist;
  direct ← for_each (indirectTransmissions_line lowerBound upperBound) lines ∅;
  let numIndirect : gmap string nat := ∅ in
  let lastDegree := direct in
  let thisDegree : gmap string (list string) := ∅ in
  indirectTransmissions_degrees (numDegrees - 1) direct lastDegree thisDegree
    numIndirect.

(** *** Metric 4: [totalTransmissions] *)

(** The loop that [totalTransmissions] and [numContactInfect] both start
    with: as in metric 1, but testing the source against ['None'] only. *)
Definition numInfected_line (lowerBound upperBound : pyfloat)
    (line : string) (numInfected : gmap string nat) : result (gmap string nat) :=
  '(u, v, t) ← unpack3 (split TAB_CHAR line);
  let u := strip u in
  let v := strip v in
  ft ← float_of t;
  if fgt lowerBound ft || fgt ft upperBound then Ok numInfected
  else if decide (u = "None") then Ok numInfected
  else
    let numInfected := setdefault0 u numInfected in
    Ok (add_to u 1 numInfected).

Definition numIndirect_line (lowerBound upperBound : pyfloat)
    (numInfected : gmap string nat)
    (line : string) (numIndirect : gmap string nat) : result (gmap string nat) :=
  '(u, v, t) ← unpack3 (split TAB_CHAR line);
  let u := strip u in
  let v := strip v in
  ft ← float_of t;
  if fgt lowerBound ft || fgt ft upperBound then Ok numIndirect
  else if decide (u = "None") then Ok numIndirect
  else
    let numIndirect := setdefault0 u numIndirect in
    if decide (is_Some (numInfected !! v))
    then Ok (add_to u (numInfected !!! v) numIndirect)
    else Ok numIndirect.

(** The body of [for person in numInfected].  Its last statement,
    [numIndirect[person]], reads a value and does nothing with it. *)
Definition numTotal_person (numInfected numIndirect : gmap string nat)
    (person : string) (numTotal : gmap string nat) : gmap string nat :=
  let numTotal := setdefault0 person numTotal in
  let numTotal :=
    if decide (is_Some (numInfected !! person))
    then add_to person (numInfected !!! person) numTotal
    else numTotal in
  let _ :=
    if decide (is_Some (numIndirect !! person))
    then numIndirect !!! person
    else 0%nat in
  numTotal.

Definition totalTransmissions (transmissionHist : file)
    (lowerBound upperBound : pyfloat) : result (gmap string nat) :=
  lines ← opengzip transmissionHist;
  numInfected ← for_each (numInfected_line lowerBound upperBound) lines ∅;
  numIndirect ←
    for_each (numIndirect_line lowerBound upperBound numInfected) lines ∅;
  Ok (map_fold (λ person _ numTotal,
                  numTotal_person numInfected numIndirect person numTotal)
        ∅ numInfected).

(** *** Metric 5: [numContacts] *)

Definition numContacts_line (line : string) (numberContacts : gmap string nat)
  : result (gmap string nat) :=
  if decide (slice_0_4 line = "NODE") then Ok numberContacts
  else
    '(u, v, t, w, x) ← unpack5 (split TAB_CHAR line);
    let u := strip u in
    let v := strip v in
    if decide (u = "None") then Ok numberContacts
    else
      let numberContacts := setdefault0 v numberContacts in
      let numberContacts := setdefault0 t numberContacts in
      let numberContacts := add_to v 1 numberContacts in
      Ok (add_to t 1 numberContacts).

(** The bounds are taken and not used. *)
Definition numContacts (transmissionHist : file)
    (lowerBound upperBound : pyfloat) : result (gmap string nat) :=
  lines ← opengzip transmissionHist;
  for_each numContacts_line lines ∅.

(** *** Metric 6: [numContactInfect] *)

Definition numContactInfect_line (numInfected : gmap string nat)
    (line : string) (numberContacts : gmap string nat)
  : result (gmap string nat) :=
  if decide (slice_0_4 line = "NODE") then Ok numberContacts
  else
    '(u, v, t, w, x) ← unpack5 (split TAB_CHAR line);
    let u := strip u in
    let v := strip v in
    if decide (u = "None") then Ok numberContacts
    else
      let numberContacts := setdefault0 v numberContacts in
      let numberContacts := setdefault0 t numberContacts in
      let numberContacts :=
        if decide (is_Some (numInfected !! t))
        then add_to v (numInfected !!! t) numberContacts
        else numberContacts in
      if decide (is_Some (numInfected !! v))
      then Ok (add_to t (numInfected !!! v) numberContacts)
      else Ok numberContacts.

Definition numContactInfect (transmissionHist contactNet : file)
    (lowerBound upperBound : pyfloat) : result (gmap string nat) :=
  lines ← opengzip transmissionHist;
  numInfected ← for_each (numInfected_line lowerBound upperBound) lines ∅;
  lines ← opengzip contactNet;
  for_each (numContactInfect_line numInfected) lines ∅.

(** *** The dispatcher: [pairCounts] *)

(** What a metric returns: counts, or slopes for metric 2. *)
Inductive scores :=
| Counts (d : gmap string nat)
| Slopes (d : gmap string pyfloat).

Definition keys (s : scores) : gset string :=
  match s with
  | Counts d => dom d
  | Slopes d => dom d
  end.

Definition METRIC1 : Z := 1.
Definition METRIC2 : Z := 2.
Definition METRIC3 : Z := 3.
Definition METRIC4 : Z := 4.
Definition METRIC5 : Z := 5.
Definition METRIC6 : Z := 6.

(** [metric == k] *)
Definition selector_eq (metric : selector) (k : Z) : bool :=
  (sel_int metric =? k)%Z && (sel_frac metric =? 0)%nat.

(** [metric in ks] *)
Definition selector_in (metric : selector) (ks : list Z) : bool :=
  existsb (selector_eq metric) ks.

(** [f == ''] *)
Definition not_supplied (f : file) : bool :=
  match f with NotSupplied => true | Text _ => false end.

(** The digits after the point are a whole number as [float] reads them, so
    the two [while not ... .is_integer()] loops do not run. *)
Definition pairCounts (transmissionHist contactNet : file)
    (lowerBound upperBound : pyfloat) (metric : selector) : result scores :=
  if selector_in metric [METRIC1; METRIC2; METRIC3; METRIC4; METRIC6]
     && not_supplied transmissionHist
  then Raise (ValueError (MissingTransmissionHist metric))
  else if selector_in metric [METRIC5; METRIC6] && not_supplied contactNet
  then Raise (ValueError (MissingContactNet metric))
  else if selector_eq metric METRIC1 then
    d ← directTransmissions transmissionHist lowerBound upperBound;
    Ok (Counts d)
  else if (sel_int metric =? METRIC2)%Z then
    let numPointsPerStep := sel_frac metric in
    d ← bestfitGraph transmissionHist lowerBound upperBound numPointsPerStep;
    Ok (Slopes d)
  else if (sel_int metric =? METRIC3)%Z then
    let numDegrees := sel_frac metric in
    let numDegrees := if (numDegrees <? 2)%nat then 2%nat else numDegrees in
    d ← indirectTransmissions transmissionHist numDegrees lowerBound upperBound;
    Ok (Counts d)
  else if selector_eq metric METRIC4 then
    d ← totalTransmissions transmissionHist lowerBound upperBound;
    Ok (Counts d)
  else if selector_eq metric METRIC5 then
    d ← numContacts contactNet lowerBound upperBound;
    Ok (Counts d)
  else if selector_eq metric METRIC6 then
    d ← numContactInfect transmissionHist contactNet lowerBound upperBound;
    Ok (Counts d)
  else Raise (ValueError (NoSuchMetric metric)).

End Metrics.

(** ** The rank matcher: [matchInfectorCounts] *)

Section RankMatcher.

(** The scores of the dictionary, and how ["%d"] and ["%f"] print one.
    ["%d"] raises for a float that is not-a-number or infinite. *)
Context {V : Type}.
Variable format_d : V → result string.
Variable format_f : V → string.

(** [outfile.write(s)]: the sink is the list of the strings written. *)
Definition write (s : string) (outfile : list string) : list string :=
  outfile ++ [s].

Definition TAB : string := String TAB_CHAR EmptyString.
Definition NL : string := String LF EmptyString.

Definition matchInfectorCounts_line (infectionsDict : gmap string V)
    (metric : selector) (outfile : list string) (line : string)
  : result (list string) :=
  let p := strip line in
  match infectionsDict !! p with
  | Some count =>
      if selector_eq metric METRIC2
      then Ok (write (p +:+ TAB +:+ format_f count +:+ NL) outfile)
      else
        text ← format_d count;
        Ok (write (p +:+ TAB +:+ text +:+ NL) outfile)
  | None => Ok (write (p +:+ TAB +:+ "0" +:+ NL) outfile)
  end.

(** [for line in inputOrder]: what the sink holds at the end, and the
    exception that ended the loop, if one did.  What was written before the
    exception stays written. *)
Fixpoint matchInfectorCounts (infectionsDict : gmap string V)
    (inputOrder : list string) (outfile : list string) (metric : selector)
  : list string * option exn :=
  match inputOrder with
  | [] => (outfile, None)
  | line :: inputOrder' =>
      match matchInfectorCounts_line infectionsDict metric outfile line with
      | Ok outfile' =>
          matchInfectorCounts infectionsDict inputOrder' outfile' metric
      | Raise e => (outfile, Some e)
      end
  end.

End RankMatcher.

(** *** The scores and ["%d"] *)

(** The decimal digits of a natural number and of an integer. *)
Definition digit_char (n : nat) : ascii := ascii_of_nat (48 + n).

Fixpoint decimal_digits (fuel n : nat) (acc : string) : string :=
  match fuel with
  | O => acc
  | S fuel' =>
      let acc' := String (digit_char (n mod 10)) acc in
      if (n <? 10)%nat then acc' else decimal_digits fuel' (n / 10) acc'
  end.

Definition show_nat (n : nat) : string := decimal_digits (S n) n "".

Definition show_int (z : Z) : string :=
  if (z <? 0)%Z then String "-" (show_nat (Z.to_nat (- z)))
  else show_nat (Z.to_nat z).

(** A score of a score map: a count of the metrics 1, 3, 4, 5 and 6, or a
    slope of metric 2. *)
Inductive pyscore :=
| Count (n : nat)
| Slope (x : pyfloat).

(** [int(x)] of a float that is a number: its whole part, toward zero. *)
Definition truncate (q : Q) : Z := Z.quot (Qnum q) (Zpos (Qden q)).

(** ["%d" % score]: the digits of a count, the digits of the whole part of
    a slope, and an exception for a slope that is not-a-number or
    infinite. *)
Definition percent_d (v : pyscore) : result string :=
  match v with
  | Count n => Ok (show_int (Z.of_nat n))
  | Slope (Fin q) => Ok (show_int (truncate q))
  | Slope NaN => Raise (ValueError IntOfNaN)
  | Slope _ => Raise OverflowError
  end.

(** ** The correlation driver: [calculateTauB] *)

Section Correlation.

(** The efficacies of the user's ordering, the numbers that
    [stats.kendalltau] returns, and ["%s"] of such a number. *)
Context {score num : Type}.
Variable kendalltau : list nat → list score → result (num * num).
Variable str : num → string.

(** [list(range(n, 0, -1))] *)
Definition range_down (n : nat) : list nat := rev (seq 1 n).
(** [list(range(n))] *)
Definition range_up (n : nat) : list nat := seq 0 n.

Definition calculateTauB (userOrder : list score) (outfile : list string)
    (reverse : bool) : result (list string) :=
  let optimalOrder :=
    if negb reverse then range_down (length userOrder)
    else range_up (length userOrder) in
  '(tau, pvalue) ← kendalltau optimalOrder userOrder;
  Ok (write (str tau +:+ TAB +:+ str pvalue +:+ NL) outfile).

End Correlation.

(** ** The log as records *)

(** What the metrics read off one line of a transmission log: the trimmed
    source and destination and the time. *)
Record transmission := Transmission {
  source : string;
  destination : string;
  time : pyfloat
}.

(** What the contact metrics read off one line of a contact network that is
    not a header: the trimmed first and second fields and the third field. *)
Record contact := Contact {
  node : string;
  neighborA : string;
  neighborB : string
}.

Section Records.

Variable float : string → option pyfloat.

Definition read_transmission (line : string) : result transmission :=
  '(u, v, t) ← unpack3 (split TAB_CHAR line);
  ft ← float_of float t;
  Ok (Transmission (strip u) (strip v) ft).

Definition read_log (transmissionHist : file) : result (list transmission) :=
  lines ← opengzip transmissionHist;
  read_all read_transmission lines.

(** [None] for a header line. *)
Definition read_contact (line : string) : result (option contact) :=
  if decide (slice_0_4 line = "NODE") then Ok None
  else
    '(u, v, t, w, x) ← unpack5 (split TAB_CHAR line);
    Ok (Some (Contact (strip u) (strip v) t)).

Definition read_contacts (contactNet : file) : result (list (option contact)) :=
  lines ← opengzip contactNet;
  read_all read_contact lines.

End Records.

(** The range test of the metrics lets a record through: neither
    [lower > t] nor [t > upper].  For a time and bounds that are numbers
    this is [lower <= t <= upper]; a time that is not-a-number passes. *)
Definition in_bounds (lower upper : pyfloat) (r : transmission) : Prop :=
  fgt lower (time r) = false ∧ fgt (time r) upper = false.

(** A record that the source-side counting takes: within the bounds, and its
    source is not the sentinel. *)
Definition counted (lower upper : pyfloat) (r : transmission) : Prop :=
  in_bounds lower upper r ∧ source r ≠ "None".

(** The counted records of one individual, in the order of the log. *)
Definition transmissions_of (lower upper : pyfloat) (log : list transmission)
    (x : string) : list transmission :=
  filter (λ r, counted lower upper r ∧ source r = x) log.

(** The number of in-range records whose source is [x], [x] not being the
    sentinel. *)
Definition direct_count (lower upper : pyfloat) (log : list transmission)
    (x : string) : nat :=
  length (transmissions_of lower upper log x).

(** The direct destinations of [x], one for each of its counted records. *)
Definition infectees (lower upper : pyfloat) (log : list transmission)
    (x : string) : list string :=
  destination <$> transmissions_of lower upper log x.

(** The individuals observed as sources, and as destinations of a counted
    record. *)
Definition sources (lower upper : pyfloat) (log : list transmission)
  : gset string :=
  list_to_set (source <$> filter (counted lower upper) log).

Definition destinations (lower upper : pyfloat) (log : list transmission)
  : gset string :=
  list_to_set (destination <$> filter (counted lower upper) log).

(** The lines of a contact network that the contact metrics take: not a
    header and the first field is not ['None']. *)
Definition edges (net : list (option contact)) : list contact :=
  filter (λ c, node c ≠ "None") (omap id net).

(** The two participants of every such line. *)
Definition participants (net : list (option contact)) : gset string :=
  list_to_set (flat_map (λ c, [neighborA c; neighborB c]) (edges net)).

(** The total count as the documentation of metric 4 has it: the direct
    count of [x] and the direct counts of its infectees, one for each
    counted record of [x]. *)
Definition total_count (lower upper : pyfloat) (log : list transmission)
    (x : string) : nat :=
  (direct_count lower upper log x +
   sum_list (direct_count lower upper log <$> infectees lower upper log x))%nat.

(** The selectors that [pairCounts] has a branch for. *)
Definition supported (metric : selector) : bool :=
  selector_eq metric METRIC1 || (sel_int metric =? METRIC2)%Z
  || (sel_int metric =? METRIC3)%Z || selector_eq metric METRIC4
  || selector_eq metric METRIC5 || selector_eq metric METRIC6.

(** The keys of what [pairCounts] returns for a supported selector: the
    participants of the contact network for metrics 5 and 6, the sources
    and the destinations of the counted records for metric 3, the sources
    for metrics 1, 2 and 4. *)
Definition expected_keys (lower upper : pyfloat) (log : list transmission)
    (net : list (option contact)) (metric : selector) : gset string :=
  if selector_eq metric METRIC5 || selector_eq metric METRIC6
  then participants net
  else if (sel_int metric =? METRIC3)%Z
  then sources lower upper log ∪ destinations lower upper log
  else sources lower upper log.

(** A score with the zero default: [d.get(x, 0)]. *)
Definition score_of (d : gmap string nat) (x : string) : nat :=
  default 0%nat (d !! x).

(** ** The loops as folds over the records *)

(** The text does not start with white space. *)
Definition no_leading_space (s : string) : Prop :=
  match s with
  | EmptyString => True
  | String c _ => is_space c = false
  end.

(** What one record does to [numInfected] in [directTransmissions]. *)
Definition directTransmissions_next (lowerBound upperBound : pyfloat)
    (numInfected : gmap string nat) (r : transmission) : gmap string nat :=
  if fgt lowerBound (time r) || fgt (time r) upperBound then numInfected
  else if decide (source r = "" ∨ source r = "None") then numInfected
  else add_to (source r) 1 (setdefault0 (source r) numInfected).

(** What one record does to [numInfected] in the first loop of
    [totalTransmissions] and of [numContactInfect]. *)
Definition numInfected_next (lowerBound upperBound : pyfloat)
    (numInfected : gmap string nat) (r : transmission) : gmap string nat :=
  if fgt lowerBound (time r) || fgt (time r) upperBound then numInfected
  else if decide (source r = "None") then numInfected
  else add_to (source r) 1 (setdefault0 (source r) numInfected).

(** What one record does to [numIndirect] in the second loop. *)
Definition numIndirect_next (lowerBound upperBound : pyfloat)
    (numInfected numIndirect : gmap string nat) (r : transmission)
  : gmap string nat :=
  if fgt lowerBound (time r) || fgt (time r) upperBound then numIndirect
  else if decide (source r = "None") then numIndirect
  else
    let numIndirect := setdefault0 (source r) numIndirect in
    if decide (is_Some (numInfected !! destination r))
    then add_to (source r) (numInfected !!! destination r) numIndirect
    else numIndirect.

(** What one record does to [direct]. *)
Definition direct_next (lowerBound upperBound : pyfloat)
    (direct : gmap string (list string)) (r : transmission)
  : gmap string (list string) :=
  if fgt lowerBound (time r) || fgt (time r) upperBound then direct
  else if decide (source r = "None") then direct
  else
    extend_at (source r) [destination r]
      (setdefault_nil (destination r) (setdefault_nil (source r) direct)).

(** The sizes of the further frontiers, [rounds] degrees on from
    [frontier]: each degree replaces every individual of the frontier by
    its infectees. *)
Fixpoint reach (infectees_of : string → list string) (rounds : nat)
    (frontier : list string) : nat :=
  match rounds with
  | O => 0
  | S rounds' =>
      let further := flat_map infectees_of frontier in
      (length further + reach infectees_of rounds' further)%nat
  end.

(** Every individual listed in the dictionary is a key of [direct]. *)
Definition listed_in_direct (direct m : gmap string (list string)) : Prop :=
  map_Forall (λ _ values, Forall (λ v, v ∈ dom direct) values) m.

(** The times at which [u] transmitted, in the order of the log. *)
Definition transmission_times (lower upper : pyfloat) (log : list transmission)
    (u : string) : list pyfloat :=
  time <$> transmissions_of lower upper log u.

(** The times of all the counted records, in the order of the log. *)
Definition counted_times (lower upper : pyfloat) (log : list transmission)
  : list pyfloat :=
  time <$> filter (counted lower upper) log.

(** [latestInfectionTime] after one more counted time. *)
Definition later (isUpperBoundSet : bool) (latest t : pyfloat) : pyfloat :=
  if negb isUpperBoundSet && fgt t latest then t else latest.

(** [latestInfectionTime] at the end of the first loop. *)
Definition latest_time (lower upper : pyfloat) (log : list transmission)
  : pyfloat :=
  foldl (later (negb (is_pinf upper)))
    (if is_pinf upper then Fin (-1) else upper)
    (counted_times lower upper log).

(** What one record does to [timesInfected] and [latestInfectionTime]. *)
Definition bestfitGraph_next (lowerBound upperBound : pyfloat)
    (isUpperBoundSet : bool) (st : gmap string (list pyfloat) * pyfloat)
    (r : transmission) : gmap string (list pyfloat) * pyfloat :=
  if fgt lowerBound (time r) || fgt (time r) upperBound then st
  else if decide (source r = "None") then st
  else (extend_at (source r) [time r] (setdefault_nil (source r) st.1),
        later isUpperBoundSet st.2 (time r)).

(** The steps of a transmitter whose times are [t :: times], from the
    [i]-th time on. *)
Fixpoint later_steps (i : nat) (t : pyfloat) (times : list pyfloat)
    (latest : pyfloat) : list step :=
  match times with
  | [] => [(t, latest, S i)]
  | t' :: times' => (t, t', S i) :: later_steps (S i) t' times' latest
  end.

(** All the steps of a transmitter: up to the first time at level 0, from
    each time to the next, and from the last time to [latest]. *)
Definition segments (lowerBound : pyfloat) (times : list pyfloat)
    (latest : pyfloat) : list step :=
  match times with
  | [] => []
  | t :: times' => (lowerBound, t, 0%nat) :: later_steps 0 t times' latest
  end.

(** What one line that was read does to [numberContacts] in [numContacts]. *)
Definition numContacts_next (numberContacts : gmap string nat)
    (c : option contact) : gmap string nat :=
  match c with
  | None => numberContacts
  | Some c =>
      if decide (node c = "None") then numberContacts
      else
        add_to (neighborB c) 1
          (add_to (neighborA c) 1
             (setdefault0 (neighborB c) (setdefault0 (neighborA c) numberContacts)))
  end.

(** And in [numContactInfect]. *)
Definition numContactInfect_next (numInfected numberContacts : gmap string nat)
    (c : option contact) : gmap string nat :=
  match c with
  | None => numberContacts
  | Some c =>
      if decide (node c = "None") then numberContacts
      else
        let numberContacts :=
          setdefault0 (neighborB c) (setdefault0 (neighborA c) numberContacts) in
        let numberContacts :=
          if decide (is_Some (numInfected !! neighborB c))
          then add_to (neighborA c) (numInfected !!! neighborB c) numberContacts
          else numberContacts in
        if decide (is_Some (numInfected !! neighborA c))
        then add_to (neighborB c) (numInfected !!! neighborA c) numberContacts
        else numberContacts
  end.

Section Slope.

Variable linspace : pyfloat → pyfloat → nat → list pyfloat.
Variable empty_x empty_y : string → pyfloat.
Variable linregress_slope : list pyfloat → list pyfloat → pyfloat.

(** The slope of the transmitter [u] whose times are [times]. *)
Definition slope_of (lowerBound latest : pyfloat) (numPointsPerStep : nat)
    (u : string) (times : list pyfloat) : pyfloat :=
  let steps := segments lowerBound times latest in
  linregress_slope
    (empty_x u ::
       flat_map (λ s : step, linspace s.1.1 s.1.2 numPointsPerStep) steps)
    (empty_y u ::
       flat_map (λ s : step, replicate numPointsPerStep (level_float s.2)) steps).

End Slope.

(** ** Sample inputs *)

(** A reading of plain decimal numerals and of [inf] and [nan], standing
    for [float] in the examples. *)
Definition digit (c : ascii) : option N :=
  let n := N_of_ascii c in
  if ((48 <=? n) && (n <=? 57))%N then Some (n - 48)%N else None.

Fixpoint digits (acc : N) (s : string) : option N :=
  match s with
  | EmptyString => Some acc
  | String c s' =>
      match digit c with
      | Some d => digits (10 * acc + d)%N s'
      | None => None
      end
  end.

Definition unsigned_decimal (s : string) : option Q :=
  match split (ascii_of_nat 46) s with
  | [w] =>
      if decide (w = "") then None
      else n ← digits 0 w; Some (inject_Z (Z.of_N n))
  | [w; f] =>
      if decide (w = "" ∨ f = "") then None
      else n ← digits 0 (w +:+ f);
           Some (Qmake (Z.of_N n) (Pos.pow 10 (Pos.of_nat (String.length f))))
  | _ => None
  end.

Definition decimal (s : string) : option pyfloat :=
  match strip s with
  | "inf" => Some PInf
  | "-inf" => Some NInf
  | "nan" => Some NaN
  | String "-" s' => q ← unsigned_decimal s'; Some (Fin (- q))
  | s' => q ← unsigned_decimal s'; Some (Fin q)
  end.

(** A line of tab-separated fields, and a text of lines. *)
Fixpoint join (sep : string) (parts : list string) : string :=
  match parts with
  | [] => ""
  | [p] => p
  | p :: ps => p +:+ sep +:+ join sep ps
  end.

Definition tsv (fields : list string) : string := join TAB fields.
Definition text_of (lines : list string) : file := Text (join NL lines).

(** A -> B at time 1 and B -> C at time 2. *)
Definition chain_log : file :=
  text_of [tsv ["A"; "B"; "1"]; tsv ["B"; "C"; "2"]].

(** A -> B at time 1 only. *)
Definition single_log : file := text_of [tsv ["A"; "B"; "1"]].

(** A -> B at time 1, and C infected from an unknown source at time 5. *)
Definition unknown_source_log : file :=
  text_of [tsv ["A"; "B"; "1"]; tsv ["None"; "C"; "5"]].

(** A -> B at time -5. *)
Definition early_log : file := text_of [tsv ["A"; "B"; "-5"]].

(** A -> B at a time that is not a number. *)
Definition nan_log : file := text_of [tsv ["A"; "B"; "nan"]].

(** A header, an edge between A and B, and a line whose first field is the
    sentinel. *)
Definition sample_net : file :=
  text_of [tsv ["NODE"; "A"; "."];
           tsv ["EDGE"; "A"; "B"; "."; "u"];
           tsv ["None"; "C"; "D"; "."; "u"]].

Definition zero : pyfloat := Fin 0.

(** What the sample logs read as. *)
Definition chain_records : list transmission :=
  [Transmission "A" "B" (Fin 1); Transmission "B" "C" (Fin 2)].

Definition sample_contacts : list (option contact) :=
  [None; Some (Contact "EDGE" "A" "B"); Some (Contact "None" "C" "D")].

(** Evenly spaced rationals and the least-squares slope over rationals,
    standing for [np.linspace] and [stats.linregress] in the examples. *)
Definition finite (a : pyfloat) : Q :=
  match a with Fin q => q | _ => 0%Q end.

Definition sample_linspace (start stop : pyfloat) (num : nat) : list pyfloat :=
  match num with
  | O => []
  | S O => [start]
  | S last =>
      (λ i : nat,
         Fin (finite start +
              (finite stop - finite start) * inject_Z (Z.of_nat i)
              / inject_Z (Z.of_nat last))%Q) <$> seq 0 num
  end.

(** What [np.empty(1)] leaves, in the examples: junk that differs from one
    transmitter to the other. *)
Definition sample_empty_x (u : string) : pyfloat :=
  Fin (inject_Z (Z.of_nat (String.length u))).
Definition sample_empty_y (u : string) : pyfloat :=
  Fin (- inject_Z (Z.of_nat (String.length u))).

Definition qsum (l : list Q) : Q := foldr Qplus 0%Q l.

Definition sample_slope (x y : list pyfloat) : pyfloat :=
  let xs := finite <$> x in
  let ys := finite <$> y in
  let n := inject_Z (Z.of_nat (length xs)) in
  let sxy := qsum (zip_with Qmult xs ys) in
  let sxx := qsum (zip_with Qmult xs xs) in
  Fin ((n * sxy - qsum xs * qsum ys) / (n * sxx - qsum xs * qsum xs))%Q.

(** A stand-in for [kendalltau] on empty sequences: not-a-number for the
    coefficient and for the p-value, here as the texts that ["%s"] prints. *)
Definition kendalltau_of_nothing {score : Type} (x : list nat) (y : list score)
  : result (string * string) :=
  Ok ("nan", "nan").

(** ** The script of compute_taub.py *)

(** The rows of the efficacy file: the trimmed tab-separated fields of the
    stripped lines of the stripped text. *)
Definition efficacy_rows (text : string) : list (list string) :=
  (λ l, strip <$> split TAB_CHAR (strip l)) <$> splitlines (strip text).

(** What ends the script early: its own [ValueError] on the row [i] that
    has not two columns ("Input must be efficacy file ..."), or what [float]
    or [calculateTauB] raise. *)
Inductive script_error :=
| NotTwoColumns (i : nat)
| Uncaught (e : exn).

Section Script.

Variable float : string → option pyfloat.
Context {num : Type}.
Variable kendalltau : list nat → list pyfloat → result (num * num).
Variable str : num → string.

(** [for i in range(len(efficacy))], from the row [i] on: a row of two
    columns is replaced by the float of its second column. *)
Fixpoint efficacy_values (i : nat) (rows : list (list string))
  : script_error + list pyfloat :=
  match rows with
  | [] => inr []
  | row :: rows' =>
      if decide (length row ≠ 2) then inl (NotTwoColumns i)
      else
        match float_of float (row !!! 1%nat) with
        | Raise e => inl (Uncaught e)
        | Ok x =>
            match efficacy_values (S i) rows' with
            | inl e => inl e
            | inr xs => inr (x :: xs)
            end
        end
  end.

(** The script from the text of its input on: what the sink holds at the
    end, or what ended the script. *)
Definition compute_taub (input : string) (outfile : list string)
    (reverse : bool) : script_error + list string :=
  match efficacy_values 0 (efficacy_rows input) with
  | inl e => inl e
  | inr efficacy =>
      let ascendingSort := reverse in
      match calculateTauB kendalltau str efficacy outfile ascendingSort with
      | Ok outfile => inr outfile
      | Raise e => inl (Uncaught e)
      end
  end.

End Script.

(** ** The earlier module orderCheck.py *)

Module OrderCheck.

Section Metrics.

Variable float : string → option pyfloat.

(** The loop of [directTransmissions] is the text of the first loop of
    [totalTransmissions]; the function reads its file as [opengzip] does. *)
Definition directTransmissions (transmissionHist : file)
    (lowerBound upperBound : pyfloat) : result (gmap string nat) :=
  lines ← opengzip transmissionHist;
  for_each (numInfected_line float lowerBound upperBound) lines ∅.

(** [bestfitGraph] is the text of [directTransmissions]. *)
Definition bestfitGraph (transmissionHist : file)
    (lowerBound upperBound : pyfloat) : result (gmap string nat) :=
  lines ← opengzip transmissionHist;
  for_each (numInfected_line float lowerBound upperBound) lines ∅.

(** [indirectTransmissions]: the two loops of [totalTransmissions], and
    [numIndirect] is returned. *)
Definition indirectTransmissions (transmissionHist : file)
    (lowerBound upperBound : pyfloat) : result (gmap string nat) :=
  lines ← opengzip transmissionHist;
  numInfected ← for_each (numInfected_line float lowerBound upperBound) lines ∅;
  for_each (numIndirect_line float lowerBound upperBound numInfected) lines ∅.

(** [totalTransmissions] is the text of the later one. *)
Definition totalTransmissions (transmissionHist : file)
    (lowerBound upperBound : pyfloat) : result (gmap string nat) :=
  lines ← opengzip transmissionHist;
  numInfected ← for_each (numInfected_line float lowerBound upperBound) lines ∅;
  numIndirect ←
    for_each (numIndirect_line float lowerBound upperBound numInfected) lines ∅;
  Ok (map_fold (λ person _ numTotal,
                  numTotal_person numInfected numIndirect person numTotal)
        ∅ numInfected).

End Metrics.

(** [numContacts] counts the second field only. *)
Definition numContacts_line (line : string) (numberContacts : gmap string nat)
  : result (gmap string nat) :=
  if decide (slice_0_4 line = "NODE") then Ok numberContacts
  else
    '(u, v, t, w, x) ← unpack5 (split TAB_CHAR line);
    let u := strip u in
    let v := strip v in
    if decide (u = "None") then Ok numberContacts
    else
      let numberContacts := setdefault0 v numberContacts in
      Ok (add_to v 1 numberContacts).

Definition numContacts (transmissionHist : file)
    (lowerBound upperBound : pyfloat) : result (gmap string nat) :=
  lines ← opengzip transmissionHist;
  for_each numContacts_line lines ∅.

Section Dispatch.

Variable float : string → option pyfloat.

(** [pairCounts]: five branches and no [else]; for another selector the
    function ends without a [return], which gives [None].  The contact
    network of metric 5 is the one file that the function takes. *)
Definition pairCounts (transmissionHist : file)
    (lowerBound upperBound : pyfloat) (metric : Z)
  : result (option (gmap string nat)) :=
  if (metric =? 1)%Z then
    d ← directTransmissions float transmissionHist lowerBound upperBound;
    Ok (Some d)
  else if (metric =? 2)%Z then
    d ← bestfitGraph float transmissionHist lowerBound upperBound;
    Ok (Some d)
  else if (metric =? 3)%Z then
    d ← indirectTransmissions float transmissionHist lowerBound upperBound;
    Ok (Some d)
  else if (metric =? 4)%Z then
    d ← totalTransmissions float transmissionHist lowerBound upperBound;
    Ok (Some d)
  else if (metric =? 5)%Z then
    d ← numContacts transmissionHist lowerBound upperBound;
    Ok (Some d)
  else Ok None.

End Dispatch.

Section RankMatcher.

Context {V : Type}.
Variable format_d : V → result string.

(** [matchInfectorCounts] takes no metric and prints every score with
    ["%d"]. *)
Definition matchInfectorCounts_line (infectionsDict : gmap string V)
    (outfile : list string) (line : string) : result (list string) :=
  let p := strip line in
  match infectionsDict !! p with
  | None => Ok (write (p +:+ TAB +:+ "0" +:+ NL) outfile)
  | Some count =>
      text ← format_d count;
      Ok (write (p +:+ TAB +:+ text +:+ NL) outfile)
  end.

Fixpoint matchInfectorCounts (infectionsDict : gmap string V)
    (inputOrder : list string) (outfile : list string)
  : list string * option exn :=
  match inputOrder with
  | [] => (outfile, None)
  | line :: inputOrder' =>
      match matchInfectorCounts_line infectionsDict outfile line with
      | Ok outfile' => matchInfectorCounts infectionsDict inputOrder' outfile'
      | Raise e => (outfile, Some e)
      end
  end.

End RankMatcher.

(** What ends [calculateTauB]: the [TypeError] of [e[0]] on an [int], or
    what [e[0]] on an element of the user's ordering or [kendalltau]
    raise. *)
Inductive failure :=
| IntNotSubscriptable
| Raised (e : exn).

(** A list comprehension whose element expression may fail. *)
Fixpoint comprehension {A B : Type} (f : A → failure + B) (xs : list A)
  : failure + list B :=
  match xs with
  | [] => inr []
  | x :: xs' =>
      match f x with
      | inl e => inl e
      | inr y =>
          match comprehension f xs' with
          | inl e => inl e
          | inr ys => inr (y :: ys)
          end
      end
  end.

Section Correlation.

(** The elements of the user's ordering, their [e[0]], the numbers that
    [stats.kendalltau] returns, and ["%s"] of such a number. *)
Context {entry score num : Type}.
Variable item0 : entry → result score.
Variable kendalltau : list nat → list score → result (num * num).
Variable str : num → string.

(** [calculateTauB]: the ideal ordering is [0, 1, ...], and both
    arguments of [kendalltau] are comprehensions of [e[0]]; [reverse] is
    not read. *)
Definition calculateTauB (userOrder : list entry) (outfile : list string)
    (reverse : bool) : failure + list string :=
  let optimalOrder := seq 0 (length userOrder) in
  match comprehension (λ e : nat, inl IntNotSubscriptable) optimalOrder with
  | inl e => inl e
  | inr xs =>
      match comprehension
              (λ e, match item0 e with
                    | Ok y => inr y
                    | Raise e => inl (Raised e)
                    end) userOrder with
      | inl e => inl e
      | inr ys =>
          match kendalltau xs ys with
          | Ok (tau, pvalue) =>
              inr (write (str tau +:+ TAB +:+ str pvalue +:+ NL) outfile)
          | Raise e => inl (Raised e)
          end
      end
  end.

End Correlation.

End OrderCheck.

(** ** Further functions of logs, networks and texts *)

(** A line that a transmission metric cannot read: its tab-separated fields
    are not three, or [float] rejects the third. *)
Definition malformed (float : string → option pyfloat) (line : string) : Prop :=
  match split TAB_CHAR line with
  | [u; v; t] => float t = None
  | _ => True
  end.

(** A line that a contact metric cannot read: no header, and its fields are
    not five. *)
Definition malformed_contact (line : string) : Prop :=
  slice_0_4 line ≠ "NODE" ∧ length (split TAB_CHAR line) ≠ 5%nat.

(** The frontier [k] degrees on from [start]. *)
Fixpoint frontier (infectees_of : string → list string) (k : nat)
    (start : list string) : list string :=
  match k with
  | O => start
  | S k' => frontier infectees_of k' (flat_map infectees_of start)
  end.

(** The number of times [x] is named as a participant of an edge. *)
Definition contact_count (net : list (option contact)) (x : string) : nat :=
  length (filter (λ y, y = x) (flat_map (λ c, [neighborA c; neighborB c]) (edges net))).

(** The number of edges whose first participant is [x]. *)
Definition first_contact_count (net : list (option contact)) (x : string) : nat :=
  length (filter (λ c, neighborA c = x) (edges net)).

(** What one edge adds to the score of [x] in metric 6: the count of the
    other participant, for each side on which [x] stands. *)
Definition exposure_at (count : string → nat) (x : string) (c : contact) : nat :=
  ((if decide (neighborA c = x) then count (neighborB c) else 0) +
   (if decide (neighborB c = x) then count (neighborA c) else 0))%nat.

Definition exposure (count : string → nat) (net : list (option contact))
    (x : string) : nat :=
  sum_list (exposure_at count x <$> edges net).

(** The sum of the scores of a map. *)
Definition total_score (d : gmap string nat) : nat :=
  map_fold (λ _ n acc, (n + acc)%nat) 0%nat d.

(** The text that a sink holds: the strings written, end to end. *)
Definition contents (outfile : list string) : string :=
  foldr String.append "" outfile.

Fixpoint all_chars (ok : ascii → bool) (s : string) : bool :=
  match s with
  | EmptyString => true
  | String c s' => ok c && all_chars ok s'
  end.

(** A text with no white space in it, and not empty: what a format of a
    number prints. *)
Definition plain (s : string) : Prop :=
  s ≠ "" ∧ all_chars (λ c, negb (is_space c)) s.

(** A text that stays one field of one line: no tab and no line boundary. *)
Definition one_field (s : string) : Prop :=
  all_chars (λ c, negb (Ascii.eqb c TAB_CHAR) && negb (is_linebreak c)) s.

(** What one line that was read does to [numberContacts] in the
    [numContacts] of orderCheck.py. *)
Definition first_contact_next (numberContacts : gmap string nat)
    (c : option contact) : gmap string nat :=
  match c with
  | None => numberContacts
  | Some c =>
      if decide (node c = "None") then numberContacts
      else add_to (neighborA c) 1 (setdefault0 (neighborA c) numberContacts)
  end.

(** The text of lines that are each closed by a line feed, and of lines
    that are separated by line feeds. *)
Fixpoint lines_text (lines : list string) : string :=
  match lines with
  | [] => ""
  | l :: ls => l +:+ String LF (lines_text ls)
  end.

Fixpoint sep_lines (l : string) (ls : list string) : string :=
  match ls with
  | [] => l
  | l' :: ls' => l +:+ String LF (sep_lines l' ls')
  end.

(** A line that a text keeps as it is: not empty, stripped, and with no
    line boundary in it. *)
Definition kept_line (l : string) : Prop :=
  l ≠ "" ∧ no_leading_space l ∧ rstrip l = l ∧
  all_chars (λ c, negb (is_linebreak c)) l.

Section Listing.

Context {V : Type}.
Variable format_d : V → result string.
Variable format_f : V → string.

(** The text of the score in the line of the listing for a line of the
    ordering, when it can be printed. *)
Definition score_text (infectionsDict : gmap string V) (metric : selector)
    (line : string) : result string :=
  match infectionsDict !! strip line with
  | Some count =>
      if selector_eq metric METRIC2 then Ok (format_f count)
      else format_d count
  | None => Ok "0"
  end.

End Listing.

(** A line of the listing without its line feed: the identifier, a tab and
    the text of the score. *)
Definition listing_line (p text : string) : string :=
  p +:+ String TAB_CHAR text.

(** ** Further sample inputs *)

(** A log whose second line has two fields. *)
Definition short_line_log : file :=
  text_of [tsv ["A"; "B"; "1"]; tsv ["B"; "C"]].

(** A network whose second line has three fields. *)
Definition short_line_net : file :=
  text_of [tsv ["EDGE"; "A"; "B"; "."; "u"]; tsv ["EDGE"; "A"; "B"]].

(** A text of white space. *)
Definition blank : string := join NL ["  "; TAB; " "].

Definition nat_float (n : nat) : pyfloat := Fin (inject_Z (Z.of_nat n)).

(** * Properties *)

(** ** Loops and reading *)

Lemma bind_Ok {A B : Type} (a : A) (f : A → result B) : Ok a ≫= f = f a.
Proof. done. Qed.

Lemma for_each_app {A S : Type} (body : A → S → result S) xs ys (st : S) :
  for_each body (xs ++ ys) st = st' ← for_each body xs st; for_each body ys st'.
Proof.
  revert st. induction xs as [|x xs IH]; intros st; simpl; [done|].
  destruct (body x st) as [st'|e]; simpl; [apply IH | done].
Qed.

(** A loop whose body reads its line and then cannot raise is the reading of
    all the lines followed by a fold over what was read. *)
Lemma for_each_read {A B S : Type} (read : A → result B) (next : S → B → S)
    (body : A → S → result S) :
  (∀ x st, body x st = r ← read x; Ok (next st r)) →
  ∀ xs st,
    for_each body xs st = rs ← read_all read xs; Ok (foldl next st rs).
Proof.
  intros Hbody xs. induction xs as [|x xs IH]; intros st; simpl; [done|].
  rewrite Hbody. destruct (read x) as [r|e]; simpl; [|done].
  rewrite IH. by destruct (read_all read xs).
Qed.

Lemma read_all_Forall {A B : Type} (read : A → result B) (P : A → Prop)
    (Q : B → Prop) :
  (∀ x y, P x → read x = Ok y → Q y) →
  ∀ xs ys, Forall P xs → read_all read xs = Ok ys → Forall Q ys.
Proof.
  intros HPQ xs. induction xs as [|x xs IH]; intros ys HP; simpl.
  - intros [= <-]. constructor.
  - inversion_clear HP as [|? ? Hx Hxs].
    destruct (read x) as [y|e] eqn:Hy; simpl; [|done].
    destruct (read_all read xs) as [ys'|e] eqn:Hys; simpl; [|done].
    intros [= <-]. constructor; eauto.
Qed.

(** ** Stripped lines *)

Lemma lstrip_no_leading_space s : no_leading_space (lstrip s).
Proof.
  induction s as [|c s IH]; simpl; [done|].
  destruct (is_space c) eqn:Hc; [done|]. simpl. done.
Qed.

Lemma rstrip_cons c s :
  is_space c = false → rstrip (String c s) = String c (rstrip s).
Proof. intros Hc. simpl. rewrite Hc. by destruct (rstrip s). Qed.

Lemma strip_no_leading_space s : no_leading_space (strip s).
Proof.
  unfold strip. pose proof (lstrip_no_leading_space s) as H.
  destruct (lstrip s) as [|c r]; simpl in *; [done|].
  rewrite H. destruct (rstrip r); simpl; done.
Qed.

Lemma strip_cons c s :
  is_space c = false → strip (String c s) = String c (rstrip s).
Proof. intros Hc. unfold strip. simpl lstrip. rewrite Hc. by apply rstrip_cons. Qed.

Lemma split_cons sep s : ∃ f fs, split sep s = f :: fs.
Proof.
  induction s as [|c s (f & fs & IH)]; simpl; [by eauto|].
  destruct (Ascii.eqb c sep); [by eauto|]. rewrite IH. eauto.
Qed.

(** The first field of a line that starts with a character other than the
    separator starts with that character. *)
Lemma split_head sep c s :
  Ascii.eqb c sep = false →
  ∃ f fs, split sep (String c s) = String c f :: fs.
Proof.
  intros Hc. simpl. rewrite Hc.
  destruct (split_cons sep s) as (f & fs & ->). eauto.
Qed.

Lemma opengzip_no_leading_space f lines :
  opengzip f = Ok lines → Forall no_leading_space lines.
Proof.
  destruct f as [|content]; simpl; [done|]. intros [= <-].
  apply Forall_fmap, Forall_true. intros s. apply strip_no_leading_space.
Qed.

(** ** Comparisons of floats *)

Lemma fgt_fle a b : a ≠ NaN → b ≠ NaN → fgt a b = negb (fle a b).
Proof. by destruct a, b. Qed.

Lemma out_of_bounds_iff lower upper r :
  fgt lower (time r) || fgt (time r) upper = false ↔ in_bounds lower upper r.
Proof. unfold in_bounds. apply orb_false_iff. Qed.

Lemma out_of_bounds_not lower upper r :
  fgt lower (time r) || fgt (time r) upper = true → ¬ in_bounds lower upper r.
Proof. intros H Hin. apply out_of_bounds_iff in Hin. congruence. Qed.

(** ** The order of floats *)

Lemma fle_refl a : a ≠ NaN → fle a a.
Proof.
  destruct a; simpl; [|done..]. intros _.
  apply Is_true_true, Qle_bool_iff, Qle_refl.
Qed.

Lemma fle_trans a b c : fle a b → fle b c → fle a c.
Proof.
  destruct a, b, c; simpl; try done.
  rewrite !Is_true_true, !Qle_bool_iff. apply Qle_trans.
Qed.

Lemma fgt_not_nan a b : fgt a b = true → a ≠ NaN ∧ b ≠ NaN.
Proof. by destruct a, b. Qed.

Lemma fle_not_nan a b : fle a b → a ≠ NaN ∧ b ≠ NaN.
Proof. by destruct a, b. Qed.

Lemma fgt_fle_weak a b : fgt a b = true → fle b a.
Proof.
  destruct a, b; simpl; try done.
  rewrite negb_true_iff, Is_true_true, Qle_bool_iff.
  intros Hab. apply Qlt_le_weak, Qnot_le_lt. intros Hle.
  apply Qle_bool_iff in Hle. congruence.
Qed.

Lemma not_fgt_fle a b : a ≠ NaN → b ≠ NaN → fgt a b = false → fle a b.
Proof.
  intros Ha Hb. rewrite fgt_fle, negb_false_iff by done. apply Is_true_true.
Qed.

Lemma fle_not_fgt a b : fle a b → fgt a b = false.
Proof.
  intros Hab. destruct (fle_not_nan a b Hab) as [Ha Hb].
  rewrite fgt_fle by done. apply negb_false_iff. by apply Is_true_true.
Qed.

(** For a time and bounds that are numbers the range test is
    [lower <= t <= upper]. *)
Lemma in_bounds_fle lower upper r :
  lower ≠ NaN → upper ≠ NaN → time r ≠ NaN →
  in_bounds lower upper r ↔ fle lower (time r) ∧ fle (time r) upper.
Proof.
  intros Hlo Hhi Ht. unfold in_bounds. split.
  - intros [H1 H2]. split; by apply not_fgt_fle.
  - intros [H1 H2]. split; by apply fle_not_fgt.
Qed.

(** A time that is not-a-number passes the range test. *)
Lemma in_bounds_nan lower upper r : time r = NaN → in_bounds lower upper r.
Proof. unfold in_bounds. intros ->. by destruct lower, upper. Qed.

(** ** Dictionaries of counts *)

Lemma lookup_setdefault0 k d x :
  setdefault0 k d !! x =
    if decide (x = k) then Some (score_of d k) else d !! x.
Proof.
  unfold setdefault0, score_of. destruct (decide (is_Some (d !! k))) as [[n Hn]|Hn].
  - case_decide; subst; [by rewrite Hn|done].
  - apply eq_None_not_Some in Hn. rewrite lookup_insert. rewrite Hn.
    repeat case_decide; simplify_eq; done.
Qed.

Lemma lookup_add_to k n d x :
  add_to k n d !! x =
    if decide (x = k) then Some (score_of d k + n)%nat else d !! x.
Proof.
  unfold add_to, score_of. rewrite lookup_insert, lookup_total_alt.
  repeat case_decide; simplify_eq; done.
Qed.

(** [if k not in d: d[k] = 0] followed by [d[k] += n] *)
Lemma lookup_count_up k n d x :
  add_to k n (setdefault0 k d) !! x =
    if decide (x = k) then Some (score_of d k + n)%nat else d !! x.
Proof.
  rewrite lookup_add_to. case_decide; [|by rewrite lookup_setdefault0, decide_False].
  subst. unfold score_of at 1. rewrite lookup_setdefault0, decide_True by done.
  done.
Qed.

(** ** Metric 1 *)

Lemma transmissions_of_cons lo hi r log x :
  transmissions_of lo hi (r :: log) x =
    if decide (counted lo hi r ∧ source r = x)
    then r :: transmissions_of lo hi log x
    else transmissions_of lo hi log x.
Proof. unfold transmissions_of. by rewrite filter_cons. Qed.

Lemma direct_count_cons lo hi r log x :
  direct_count lo hi (r :: log) x =
    if decide (counted lo hi r ∧ source r = x)
    then S (direct_count lo hi log x)
    else direct_count lo hi log x.
Proof.
  unfold direct_count. rewrite transmissions_of_cons. by case_decide.
Qed.

(** One record of a source that is not empty moves the entry of [x] by one
    exactly when it is a counted record of [x]. *)
Lemma directTransmissions_next_lookup lo hi d r x :
  source r ≠ "" →
  directTransmissions_next lo hi d r !! x =
    if decide (counted lo hi r ∧ source r = x)
    then Some (S (score_of d x))
    else d !! x.
Proof.
  intros Hne. unfold directTransmissions_next, counted.
  destruct (fgt lo (time r) || fgt (time r) hi) eqn:Hb.
  { apply out_of_bounds_not in Hb. rewrite decide_False; [done|tauto]. }
  apply out_of_bounds_iff in Hb.
  destruct (decide (source r = "" ∨ source r = "None")) as [[?|?]|Hs].
  - done.
  - rewrite decide_False; [done|tauto].
  - rewrite lookup_count_up.
    destruct (decide (x = source r)) as [->|Hx].
    + rewrite decide_True by tauto. f_equal. lia.
    + rewrite decide_False; [done|]. intros (_ & ?). congruence.
Qed.

Lemma directTransmissions_fold_lookup lo hi log : ∀ d x,
  Forall (λ r, source r ≠ "") log →
  foldl (directTransmissions_next lo hi) d log !! x =
    if decide (direct_count lo hi log x = 0)%nat then d !! x
    else Some (score_of d x + direct_count lo hi log x)%nat.
Proof.
  induction log as [|r log IH]; intros d x Hlog; simpl; [done|].
  inversion_clear Hlog as [|? ? Hr Hrest].
  rewrite IH by done. rewrite direct_count_cons. unfold score_of.
  rewrite directTransmissions_next_lookup by done.
  destruct (decide (counted lo hi r ∧ source r = x)); simpl; [|done].
  destruct (decide (direct_count lo hi log x = 0)%nat) as [->|?];
    simpl; f_equal; unfold score_of; lia.
Qed.

Section TransmissionFacts.

Variable float : string → option pyfloat.

(** A line of a file as [opengzip] returns it has a source that is not
    empty once read. *)
Lemma read_transmission_source line r :
  no_leading_space line → read_transmission float line = Ok r → source r ≠ "".
Proof.
  destruct line as [|c s]; [done|]. intros Hc.
  assert (Ascii.eqb c TAB_CHAR = false) as Hsep.
  { apply Ascii.eqb_neq. by intros ->. }
  unfold read_transmission.
  destruct (split_head TAB_CHAR c s Hsep) as (f & fs & ->).
  destruct fs as [|v [|t [|? ?]]]; simpl; try done.
  destruct (float_of float t); simpl; [|done].
  intros [= <-]. simpl. by rewrite strip_cons.
Qed.

Lemma read_log_source f log :
  read_log float f = Ok log → Forall (λ r, source r ≠ "") log.
Proof.
  unfold read_log. destruct (opengzip f) as [lines|e] eqn:Hf; simpl; [|done].
  apply read_all_Forall with (P := no_leading_space).
  - apply read_transmission_source.
  - by eapply opengzip_no_leading_space.
Qed.

Lemma directTransmissions_line_read lo hi line d :
  directTransmissions_line float lo hi line d =
    r ← read_transmission float line; Ok (directTransmissions_next lo hi d r).
Proof.
  unfold directTransmissions_line, read_transmission, directTransmissions_next.
  destruct (unpack3 (split TAB_CHAR line)) as [[[u v] t]|e]; simpl; [|done].
  destruct (float_of float t) as [ft|e]; simpl; [|done].
  destruct (fgt lo ft || fgt ft hi); [done|].
  by destruct (decide (strip u = "" ∨ strip u = "None")).
Qed.

Lemma directTransmissions_read f lo hi :
  directTransmissions float f lo hi =
    log ← read_log float f; Ok (foldl (directTransmissions_next lo hi) ∅ log).
Proof.
  unfold directTransmissions, read_log.
  destruct (opengzip f) as [lines|e]; simpl; [|done].
  apply for_each_read, directTransmissions_line_read.
Qed.

(** C7, as the code has it.  For every transmission log that reads and all
    bounds, the direct-count metric returns a dictionary in which the score
    of an individual is the number of records of the log whose trimmed
    source is that individual, is not the sentinel ['None'], and whose time
    passes the range test, neither [lower > t] nor [t > upper]; an
    individual with no such record has no entry, and the destination is not
    looked at.  For a time and bounds that are numbers the range test is
    [lower <= t <= upper]; a time that is not-a-number passes it for all
    bounds. *)
Theorem direct_count_correct f lower upper log :
  read_log float f = Ok log →
  ∃ d, directTransmissions float f lower upper = Ok d ∧
       (∀ x, d !! x =
               if decide (direct_count lower upper log x = 0)%nat then None
               else Some (direct_count lower upper log x)) ∧
       (∀ x, direct_count lower upper log x =
               length (filter (λ r, in_bounds lower upper r ∧
                                    source r ≠ "None" ∧ source r = x) log)) ∧
       (∀ r, lower ≠ NaN → upper ≠ NaN → time r ≠ NaN →
             in_bounds lower upper r ↔
             fle lower (time r) ∧ fle (time r) upper) ∧
       (∀ r, time r = NaN → in_bounds lower upper r).
Proof.
  intros Hlog. rewrite directTransmissions_read, Hlog. simpl.
  eexists. split; [done|]. split; [|split; [|split]].
  - intros x.
    rewrite directTransmissions_fold_lookup by by eapply read_log_source.
    by rewrite lookup_empty.
  - intros x. unfold direct_count, transmissions_of, counted. f_equal.
    apply list_filter_iff. intros r. tauto.
  - intros r. apply in_bounds_fle.
  - intros r. apply in_bounds_nan.
Qed.

(** C7 as stated fails on a time that is not-a-number: in the log A -> B at
    the time [nan], with the bounds 0 and positive infinity, A has the
    score 1, and the log has no record with [lower <= t <= upper]. *)
Lemma direct_count_counts_nan_time :
  ∃ log d,
    read_log decimal nan_log = Ok log ∧
    directTransmissions decimal nan_log zero PInf = Ok d ∧
    d !! "A" = Some 1%nat ∧
    Forall (λ r, ¬ (fle zero (time r) ∧ fle (time r) PInf)) log.
Proof.
  do 2 eexists. split; [by vm_compute|]. split; [by vm_compute|].
  split; [by vm_compute|]. repeat constructor. by intros [? _].
Qed.

End TransmissionFacts.

(** ** Metric 4 *)

(** On records whose source is not empty the first loop is that of
    metric 1. *)
Lemma numInfected_fold_direct lo hi log : ∀ d,
  Forall (λ r, source r ≠ "") log →
  foldl (numInfected_next lo hi) d log =
  foldl (directTransmissions_next lo hi) d log.
Proof.
  induction log as [|r log IH]; intros d Hlog; simpl; [done|].
  inversion_clear Hlog as [|? ? Hr Hrest]. rewrite <- IH by done. f_equal.
  unfold numInfected_next, directTransmissions_next.
  destruct (fgt lo (time r) || fgt (time r) hi); [done|].
  destruct (decide (source r = "None")).
  - rewrite decide_True; [done|tauto].
  - rewrite decide_False; [done|tauto].
Qed.

(** The last loop copies [numInfected]. *)
Lemma numTotal_fold numInfected numIndirect :
  map_fold (λ person (_ : nat) numTotal,
              numTotal_person numInfected numIndirect person numTotal)
    ∅ numInfected = numInfected.
Proof.
  cut (∀ m, m ⊆ numInfected →
         map_fold (λ person (_ : nat) numTotal,
                     numTotal_person numInfected numIndirect person numTotal)
           ∅ m = m); [by auto|].
  intros m. apply (map_fold_weak_ind (λ r m, m ⊆ numInfected → r = m)); [done|].
  clear m. intros i x m r Hi IH Hsub.
  assert (numInfected !! i = Some x) as Hix.
  { eapply lookup_weaken; [|done]. apply lookup_insert_eq. }
  rewrite IH.
  2:{ etrans; [|done]. by apply insert_subseteq. }
  unfold numTotal_person. rewrite decide_True by (by rewrite Hix).
  apply map_eq. intros k. rewrite lookup_count_up, lookup_insert.
  rewrite lookup_total_alt, Hix. unfold score_of. rewrite Hi. simpl.
  repeat case_decide; simplify_eq; done.
Qed.

Section TotalFacts.

Variable float : string → option pyfloat.

Lemma numInfected_line_read lo hi line d :
  numInfected_line float lo hi line d =
    r ← read_transmission float line; Ok (numInfected_next lo hi d r).
Proof.
  unfold numInfected_line, read_transmission, numInfected_next.
  destruct (unpack3 (split TAB_CHAR line)) as [[[u v] t]|e]; simpl; [|done].
  destruct (float_of float t) as [ft|e]; simpl; [|done].
  destruct (fgt lo ft || fgt ft hi); [done|].
  by destruct (decide (strip u = "None")).
Qed.

Lemma numIndirect_line_read lo hi numInfected line d :
  numIndirect_line float lo hi numInfected line d =
    r ← read_transmission float line;
    Ok (numIndirect_next lo hi numInfected d r).
Proof.
  unfold numIndirect_line, read_transmission, numIndirect_next.
  destruct (unpack3 (split TAB_CHAR line)) as [[[u v] t]|e]; simpl; [|done].
  destruct (float_of float t) as [ft|e]; simpl; [|done].
  destruct (fgt lo ft || fgt ft hi); [done|].
  destruct (decide (strip u = "None")); [done|].
  by destruct (decide (is_Some (numInfected !! strip v))).
Qed.

Lemma totalTransmissions_read f lo hi :
  totalTransmissions float f lo hi =
    log ← read_log float f; Ok (foldl (numInfected_next lo hi) ∅ log).
Proof.
  unfold totalTransmissions, read_log.
  destruct (opengzip f) as [lines|e]; simpl; [|done].
  rewrite (for_each_read _ _ _ (numInfected_line_read lo hi)).
  destruct (read_all (read_transmission float) lines) as [log|e] eqn:Hlog;
    simpl; [|done].
  rewrite (for_each_read _ _ _ (numIndirect_line_read lo hi _)), Hlog. simpl.
  by rewrite numTotal_fold.
Qed.

(** C2.  For every transmission log and bounds, what the total-count metric
    returns is what the direct-count metric returns: the indirect tally is
    left out of the score of every individual. *)
Theorem total_count_is_direct_count f lower upper :
  totalTransmissions float f lower upper =
  directTransmissions float f lower upper.
Proof.
  rewrite totalTransmissions_read, directTransmissions_read.
  destruct (read_log float f) as [log|e] eqn:Hlog; simpl; [|done].
  f_equal. apply numInfected_fold_direct. by eapply read_log_source.
Qed.

End TotalFacts.

(** ** Dictionaries read through [dom] and the total lookup *)

Lemma dom_setdefault0 k d : dom (setdefault0 k d) = {[k]} ∪ dom d.
Proof.
  unfold setdefault0. case_decide as Hk; [|by rewrite dom_insert_L].
  apply elem_of_dom in Hk. symmetry.
  by apply subseteq_union_1_L, singleton_subseteq_l.
Qed.

Lemma dom_add_to k n d : dom (add_to k n d) = {[k]} ∪ dom d.
Proof. unfold add_to. by rewrite dom_insert_L. Qed.

Lemma lookup_total_setdefault0 k d x : setdefault0 k d !!! x = d !!! x.
Proof.
  unfold setdefault0. case_decide as Hk; [done|].
  apply eq_None_not_Some in Hk. rewrite !lookup_total_alt, lookup_insert.
  case_decide; subst; by rewrite ?Hk.
Qed.

Lemma lookup_total_add_to k n d x :
  add_to k n d !!! x = if decide (x = k) then (d !!! k + n)%nat else d !!! x.
Proof.
  unfold add_to. rewrite !lookup_total_alt, lookup_insert.
  repeat case_decide; simplify_eq; by rewrite ?lookup_total_alt.
Qed.

Section ListDictionaries.

Context {A : Type}.
Implicit Types (d : gmap string (list A)) (xs : list A).

Lemma dom_setdefault_nil k d : dom (setdefault_nil k d) = {[k]} ∪ dom d.
Proof.
  unfold setdefault_nil. case_decide as Hk; [|by rewrite dom_insert_L].
  apply elem_of_dom in Hk. symmetry.
  by apply subseteq_union_1_L, singleton_subseteq_l.
Qed.

Lemma dom_extend_at k xs d : dom (extend_at k xs d) = {[k]} ∪ dom d.
Proof. unfold extend_at. by rewrite dom_insert_L. Qed.

Lemma lookup_total_setdefault_nil k d x : setdefault_nil k d !!! x = d !!! x.
Proof.
  unfold setdefault_nil. case_decide as Hk; [done|].
  apply eq_None_not_Some in Hk. rewrite !lookup_total_alt, lookup_insert.
  case_decide; subst; by rewrite ?Hk.
Qed.

Lemma lookup_total_extend_at k xs d x :
  extend_at k xs d !!! x = if decide (x = k) then d !!! k ++ xs else d !!! x.
Proof.
  unfold extend_at. rewrite !lookup_total_alt, lookup_insert.
  repeat case_decide; simplify_eq; by rewrite ?lookup_total_alt.
Qed.

Lemma extend_at_extend_at k xs ys d :
  extend_at k ys (extend_at k xs d) = extend_at k (xs ++ ys) d.
Proof.
  unfold extend_at. rewrite lookup_total_insert_eq, insert_insert_eq.
  by rewrite app_assoc.
Qed.

Lemma extend_at_nil k d : is_Some (d !! k) → extend_at k [] d = d.
Proof.
  intros [l Hl]. unfold extend_at. rewrite app_nil_r.
  apply insert_id. by rewrite lookup_total_alt, Hl.
Qed.

End ListDictionaries.

(** A dictionary is what its domain and its total lookup say. *)
Lemma lookup_dom_total_nat (d : gmap string nat) x :
  d !! x = if decide (x ∈ dom d) then Some (d !!! x) else None.
Proof.
  rewrite lookup_total_alt. case_decide as Hx.
  - apply elem_of_dom in Hx as [l ->]. done.
  - by apply not_elem_of_dom in Hx as ->.
Qed.

(** ** Sources, destinations and infectees of a log *)

Lemma sources_cons lo hi r log :
  sources lo hi (r :: log) =
    if decide (counted lo hi r) then {[source r]} ∪ sources lo hi log
    else sources lo hi log.
Proof. unfold sources. rewrite filter_cons. by case_decide. Qed.

Lemma destinations_cons lo hi r log :
  destinations lo hi (r :: log) =
    if decide (counted lo hi r) then {[destination r]} ∪ destinations lo hi log
    else destinations lo hi log.
Proof. unfold destinations. rewrite filter_cons. by case_decide. Qed.

Lemma infectees_cons lo hi r log x :
  infectees lo hi (r :: log) x =
    if decide (counted lo hi r ∧ source r = x)
    then destination r :: infectees lo hi log x
    else infectees lo hi log x.
Proof.
  unfold infectees. rewrite transmissions_of_cons. by case_decide.
Qed.

Lemma elem_of_sources lo hi log x :
  x ∈ sources lo hi log ↔ ∃ r, r ∈ log ∧ counted lo hi r ∧ source r = x.
Proof.
  unfold sources. rewrite elem_of_list_to_set, list_elem_of_fmap.
  setoid_rewrite list_elem_of_filter. naive_solver.
Qed.

Lemma elem_of_destinations lo hi log x :
  x ∈ destinations lo hi log ↔
  ∃ r, r ∈ log ∧ counted lo hi r ∧ destination r = x.
Proof.
  unfold destinations. rewrite elem_of_list_to_set, list_elem_of_fmap.
  setoid_rewrite list_elem_of_filter. naive_solver.
Qed.

Lemma elem_of_infectees lo hi log x v :
  v ∈ infectees lo hi log x ↔
  ∃ r, r ∈ log ∧ counted lo hi r ∧ source r = x ∧ destination r = v.
Proof.
  unfold infectees, transmissions_of. rewrite list_elem_of_fmap.
  setoid_rewrite list_elem_of_filter. naive_solver.
Qed.

Lemma infectees_destinations lo hi log x v :
  v ∈ infectees lo hi log x → v ∈ destinations lo hi log.
Proof.
  rewrite elem_of_infectees, elem_of_destinations. naive_solver.
Qed.

(** The sources are the individuals with a direct count. *)
Lemma elem_of_sources_count lo hi log x :
  x ∈ sources lo hi log ↔ direct_count lo hi log x ≠ 0%nat.
Proof.
  induction log as [|r log IH].
  - unfold sources, direct_count, transmissions_of. simpl. set_solver.
  - rewrite sources_cons, direct_count_cons.
    destruct (decide (counted lo hi r)) as [Hr|Hr].
    + rewrite elem_of_union, elem_of_singleton, IH.
      destruct (decide (counted lo hi r ∧ source r = x)) as [[_ ->]|Hx].
      * split; [lia|auto].
      * split; [intros [->|?]; [tauto|done]|auto].
    + rewrite IH. by rewrite decide_False by tauto.
Qed.

(** The keys of [numInfected] after the loop of metric 1. *)
Lemma numInfected_fold_dom lo hi log :
  Forall (λ r, source r ≠ "") log →
  dom (foldl (directTransmissions_next lo hi) ∅ log) = sources lo hi log.
Proof.
  intros Hlog. apply set_eq. intros x.
  rewrite elem_of_dom, elem_of_sources_count.
  rewrite directTransmissions_fold_lookup, lookup_empty by done.
  case_decide as Hc.
  - split; [by intros [? ?]|by intros []].
  - split; [done|by eauto].
Qed.

(** ** Metric 3 *)

Lemma getitem_Some {V} (d : gmap string V) k x :
  d !! k = Some x → getitem d k = Ok x.
Proof. unfold getitem. by intros ->. Qed.

(** The second inner loop adds the sizes of the lists of [thisDegree]. *)
Lemma tally_spec thisDegree numIndirect :
  dom (indirectTransmissions_tally thisDegree numIndirect) =
    dom thisDegree ∪ dom numIndirect ∧
  ∀ x, indirectTransmissions_tally thisDegree numIndirect !!! x =
         (numIndirect !!! x + length (thisDegree !!! x))%nat.
Proof.
  unfold indirectTransmissions_tally.
  cut (∀ m, m ⊆ thisDegree →
    let r := map_fold (λ key (_ : list string) numIndirect,
                 add_to key (length (thisDegree !!! key))
                   (setdefault0 key numIndirect)) numIndirect m in
    dom r = dom m ∪ dom numIndirect ∧
    ∀ x, r !!! x = (numIndirect !!! x + length (m !!! x))%nat);
    [by auto|].
  intros m. simpl.
  apply (map_fold_weak_ind (λ r m, m ⊆ thisDegree →
    dom r = dom m ∪ dom numIndirect ∧
    ∀ x, r !!! x = (numIndirect !!! x + length (m !!! x))%nat)).
  { intros _. split; [set_solver|]. intros x.
    rewrite lookup_total_empty. simpl. lia. }
  clear m. intros key values m r Hkey IH Hsub.
  assert (thisDegree !! key = Some values) as Hval.
  { eapply lookup_weaken; [|done]. apply lookup_insert_eq. }
  destruct IH as [IHdom IHval].
  { etrans; [|done]. by apply insert_subseteq. }
  split.
  - rewrite dom_add_to, dom_setdefault0, IHdom, dom_insert_L. set_solver.
  - intros x. rewrite lookup_total_add_to, !lookup_total_setdefault0.
    rewrite (lookup_total_alt thisDegree), Hval. simpl.
    rewrite !IHval. rewrite (lookup_total_alt (<[_:=_]> _)), lookup_insert.
    rewrite !(lookup_total_alt m).
    destruct (decide (x = key)) as [->|Hx].
    + rewrite decide_True by done. rewrite Hkey. simpl. lia.
    + rewrite decide_False by done. done.
Qed.

Section DegreesFacts.

Variable direct : gmap string (list string).

Hypothesis direct_closed : listed_in_direct direct direct.

Lemma expand_values key : ∀ values thisDegree,
  Forall (λ v, v ∈ dom direct) values →
  is_Some (thisDegree !! key) →
  for_each (λ value thisDegree,
              infectees ← getitem direct value;
              Ok (extend_at key infectees thisDegree))
    values thisDegree =
  Ok (extend_at key (flat_map (direct !!!.) values) thisDegree).
Proof.
  induction values as [|v values IH]; intros td Hvs Hkey; simpl.
  - by rewrite extend_at_nil.
  - inversion_clear Hvs as [|? ? Hv Hrest].
    apply elem_of_dom in Hv as [l Hl]. rewrite (getitem_Some _ _ _ Hl). simpl.
    rewrite IH; [|done|].
    + rewrite extend_at_extend_at. by rewrite lookup_total_alt, Hl.
    + unfold extend_at. by rewrite lookup_insert_eq.
Qed.

Lemma expand_spec lastDegree :
  listed_in_direct direct lastDegree →
  indirectTransmissions_expand direct lastDegree ∅ =
  Ok (flat_map (direct !!!.) <$> lastDegree).
Proof.
  unfold indirectTransmissions_expand.
  apply (map_fold_weak_ind (λ r m,
    listed_in_direct direct m → r = Ok (flat_map (direct !!!.) <$> m))).
  { intros _. by rewrite fmap_empty. }
  intros key values m r Hkey IH Hm.
  apply map_Forall_insert in Hm as [Hvalues Hm]; [|done].
  rewrite IH by done. simpl.
  assert ((flat_map (direct !!!.) <$> m) !! key = None) as Hnone.
  { by rewrite lookup_fmap, Hkey. }
  unfold setdefault_nil. rewrite decide_False by (by rewrite Hnone; intros []).
  rewrite expand_values; [|done|by rewrite lookup_insert_eq].
  f_equal. unfold extend_at.
  by rewrite lookup_total_insert_eq, insert_insert_eq, fmap_insert.
Qed.

Lemma expand_listed (lastDegree : gmap string (list string)) :
  listed_in_direct direct (flat_map (direct !!!.) <$> lastDegree).
Proof.
  intros key values. rewrite lookup_fmap.
  destruct (lastDegree !! key) as [vs|]; simpl; [|done]. intros [= <-].
  apply Forall_forall. intros w Hw.
  apply list_elem_of_In, in_flat_map in Hw as (v & _ & Hw).
  apply list_elem_of_In in Hw. rewrite lookup_total_alt in Hw.
  destruct (direct !! v) as [l|] eqn:Hv; simpl in Hw; [|by inversion Hw].
  specialize (direct_closed v l Hv). simpl in direct_closed.
  by eapply Forall_forall in direct_closed.
Qed.

Lemma lookup_total_expand (lastDegree : gmap string (list string)) x :
  (flat_map (direct !!!.) <$> lastDegree) !!! x =
  flat_map (direct !!!.) (lastDegree !!! x).
Proof.
  rewrite !lookup_total_alt, lookup_fmap. by destruct (lastDegree !! x).
Qed.

Lemma degrees_spec rounds : ∀ lastDegree numIndirect,
  dom lastDegree = dom direct →
  listed_in_direct direct lastDegree →
  ∃ d, indirectTransmissions_degrees rounds direct lastDegree ∅ numIndirect
         = Ok d ∧
       dom d = (if rounds is O then dom numIndirect
                else dom direct ∪ dom numIndirect) ∧
       ∀ x, d !!! x =
              (numIndirect !!! x + reach (direct !!!.) rounds (lastDegree !!! x))%nat.
Proof.
  induction rounds as [|rounds IH]; intros last ni Hdom Hlast; simpl.
  { eexists. split; [done|]. split; [done|]. intros x. lia. }
  rewrite expand_spec by done. simpl.
  destruct (tally_spec (flat_map (direct !!!.) <$> last) ni) as [Htd Htv].
  destruct (IH (flat_map (direct !!!.) <$> last)
              (indirectTransmissions_tally (flat_map (direct !!!.) <$> last) ni))
    as (d & Hd & Hdd & Hdv).
  { by rewrite dom_fmap_L. }
  { apply expand_listed. }
  exists d. split; [done|]. split.
  - rewrite Hdd, Htd, dom_fmap_L, Hdom. destruct rounds; set_solver.
  - intros x. rewrite Hdv, Htv, lookup_total_expand. lia.
Qed.

End DegreesFacts.

Lemma reach_ext (f g : string → list string) rounds :
  (∀ x, f x = g x) → ∀ frontier, reach f rounds frontier = reach g rounds frontier.
Proof.
  intros Hfg. induction rounds as [|rounds IH]; intros frontier; simpl; [done|].
  rewrite (flat_map_ext f g) by done. by rewrite IH.
Qed.

Lemma direct_next_counted lo hi d r :
  direct_next lo hi d r =
    if decide (counted lo hi r)
    then extend_at (source r) [destination r]
           (setdefault_nil (destination r) (setdefault_nil (source r) d))
    else d.
Proof.
  unfold direct_next, counted.
  destruct (fgt lo (time r) || fgt (time r) hi) eqn:Hb.
  { apply out_of_bounds_not in Hb. rewrite decide_False; [done|tauto]. }
  apply out_of_bounds_iff in Hb.
  destruct (decide (source r = "None")).
  - rewrite decide_False; [done|tauto].
  - by rewrite decide_True.
Qed.

Lemma direct_fold_dom lo hi log : ∀ d,
  dom (foldl (direct_next lo hi) d log) =
  dom d ∪ (sources lo hi log ∪ destinations lo hi log).
Proof.
  induction log as [|r log IH]; intros d; simpl.
  { unfold sources, destinations. simpl. set_solver. }
  rewrite IH, sources_cons, destinations_cons, direct_next_counted.
  destruct (decide (counted lo hi r)); [|done].
  rewrite dom_extend_at, !dom_setdefault_nil. set_solver.
Qed.

Lemma direct_fold_total lo hi log : ∀ d x,
  foldl (direct_next lo hi) d log !!! x = d !!! x ++ infectees lo hi log x.
Proof.
  induction log as [|r log IH]; intros d x; simpl.
  { unfold infectees, transmissions_of. simpl. by rewrite app_nil_r. }
  rewrite IH, infectees_cons, direct_next_counted.
  destruct (decide (counted lo hi r)) as [Hr|Hr].
  - rewrite lookup_total_extend_at, !lookup_total_setdefault_nil.
    destruct (decide (x = source r)) as [->|Hx].
    + rewrite decide_True by done. by rewrite <- app_assoc.
    + rewrite decide_False; [done|]. intros [_ ?]. congruence.
  - rewrite decide_False; [done|tauto].
Qed.

(** Every individual that [direct] lists is one of its keys. *)
Lemma direct_fold_listed lo hi log :
  listed_in_direct (foldl (direct_next lo hi) ∅ log)
    (foldl (direct_next lo hi) ∅ log).
Proof.
  intros x values Hx. apply Forall_forall. intros v Hv.
  assert (values = infectees lo hi log x) as ->.
  { pose proof (direct_fold_total lo hi log ∅ x) as Ht.
    rewrite lookup_total_alt, Hx, lookup_total_empty in Ht. done. }
  rewrite direct_fold_dom. apply infectees_destinations in Hv. set_solver.
Qed.

Section IndirectFacts.

Variable float : string → option pyfloat.

Lemma indirectTransmissions_line_read lo hi line d :
  indirectTransmissions_line float lo hi line d =
    r ← read_transmission float line; Ok (direct_next lo hi d r).
Proof.
  unfold indirectTransmissions_line, read_transmission, direct_next.
  destruct (unpack3 (split TAB_CHAR line)) as [[[u v] t]|e]; simpl; [|done].
  destruct (float_of float t) as [ft|e]; simpl; [|done].
  destruct (fgt lo ft || fgt ft hi); [done|].
  by destruct (decide (strip u = "None")).
Qed.

(** The indirect count of every degree: the keys are the sources and the
    destinations of the counted records, and the score adds the sizes of
    the frontiers from degree 2 to degree [numDegrees]. *)
Lemma indirectTransmissions_spec f numDegrees lo hi log :
  read_log float f = Ok log →
  ∃ d, indirectTransmissions float f numDegrees lo hi = Ok d ∧
       dom d = (if (numDegrees - 1)%nat is O then ∅
                else sources lo hi log ∪ destinations lo hi log) ∧
       ∀ x, d !!! x =
              reach (infectees lo hi log) (numDegrees - 1)
                (infectees lo hi log x).
Proof.
  intros Hlog. unfold indirectTransmissions. unfold read_log in Hlog.
  destruct (opengzip f) as [lines|e]; simpl in *; [|done].
  rewrite (for_each_read _ _ _ (indirectTransmissions_line_read lo hi)), Hlog.
  simpl. set (direct := foldl (direct_next lo hi) ∅ log).
  destruct (degrees_spec direct (direct_fold_listed lo hi log)
              (numDegrees - 1) direct ∅ eq_refl (direct_fold_listed lo hi log))
    as (d & Hd & Hdom & Hval).
  exists d. split; [done|]. split.
  - rewrite Hdom. destruct (numDegrees - 1)%nat; [set_solver|].
    unfold direct. rewrite direct_fold_dom. set_solver.
  - intros x. rewrite Hval, lookup_total_empty. simpl.
    unfold direct. rewrite direct_fold_total, lookup_total_empty. simpl.
    apply reach_ext. intros y.
    by rewrite direct_fold_total, lookup_total_empty.
Qed.

(** C3, as the code has it.  For every transmission log and bounds, the
    indirect-count metric with [degrees = 2] gives every individual seen as
    the source or the destination of a counted record the size of its
    frontier at degree 2: the number of infectees of its infectees, each
    infectee taken once for every record that names it.  Other individuals
    have no entry. *)
Theorem indirect_count_two_degrees f lower upper log :
  read_log float f = Ok log →
  ∃ d, indirectTransmissions float f 2 lower upper = Ok d ∧
       ∀ x, d !! x =
              if decide (x ∈ sources lower upper log ∪ destinations lower upper log)
              then Some (length (flat_map (infectees lower upper log)
                                   (infectees lower upper log x)))
              else None.
Proof.
  intros Hlog.
  destruct (indirectTransmissions_spec f 2 lower upper log Hlog)
    as (d & Hd & Hdom & Hval).
  exists d. split; [done|]. intros x.
  rewrite lookup_dom_total_nat, Hdom, Hval. simpl.
  case_decide; [f_equal; lia|done].
Qed.

End IndirectFacts.

(** C3 as stated fails where an infectee infected nobody: in the log with
    the one record A -> B the score of A for [degrees = 2] is 0, and A has
    one direct destination. *)
Lemma indirect_count_two_degrees_not_direct :
  ∃ d log,
    read_log decimal single_log = Ok log ∧
    indirectTransmissions decimal single_log 2 zero PInf = Ok d ∧
    d !! "A" = Some 0%nat ∧
    length (infectees zero PInf log "A") = 1%nat ∧
    score_of d "A" ≠ length (infectees zero PInf log "A").
Proof. do 2 eexists. split; [|split; [|split; [|split]]]; by vm_compute. Qed.

(** ** Metric 2 *)

Lemma later_steps_last i t times latest :
  last (later_steps i t times latest) =
  Some (default t (last times), latest, (S i + length times)%nat).
Proof.
  revert i t. induction times as [|t' times IH]; intros i t.
  { simpl. do 2 f_equal. lia. }
  cbn [later_steps]. rewrite last_cons, IH, (last_cons t'). cbn [length].
  destruct (last times); simpl; do 2 f_equal; lia.
Qed.

(** The last step runs from the last time to [latest], at the level of
    the number of times. *)
Lemma segments_last lo times latest t :
  last times = Some t →
  last (segments lo times latest) = Some (t, latest, length times).
Proof.
  destruct times as [|t0 times]; [done|]. intros Ht. unfold segments.
  rewrite last_cons, later_steps_last. rewrite last_cons in Ht.
  cbn [length]. destruct (last times); simplify_eq; done.
Qed.

Lemma bestfitGraph_step_last times latest k t acc :
  (S k = length times)%nat →
  times !! k = Some t →
  bestfitGraph_step times latest k acc = Ok (acc ++ [(t, latest, S k)]).
Proof.
  intros Hlen Hk. unfold bestfitGraph_step. rewrite decide_True by lia.
  unfold index. rewrite Hk. simpl. do 4 f_equal. lia.
Qed.

Lemma bestfitGraph_step_next times latest k t t' acc :
  (S k < length times)%nat →
  times !! k = Some t →
  times !! S k = Some t' →
  bestfitGraph_step times latest k acc = Ok (acc ++ [(t, t', S k)]).
Proof.
  intros Hlen Hk Hk'. unfold bestfitGraph_step. rewrite decide_False by lia.
  unfold index. rewrite Hk. simpl. replace (k + 1)%nat with (S k) by lia.
  by rewrite Hk'.
Qed.

Lemma bestfitGraph_steps_from times latest : ∀ n k t acc,
  (k + S n = length times)%nat →
  times !! k = Some t →
  for_each (bestfitGraph_step times latest) (seq k (S n)) acc =
  Ok (acc ++ later_steps k t (drop (S k) times) latest).
Proof.
  induction n as [|n IH]; intros k t acc Hlen Hk.
  - cbn [seq for_each].
    rewrite (bestfitGraph_step_last _ _ _ t) by (done || lia).
    rewrite drop_ge by lia. done.
  - destruct (lookup_lt_is_Some_2 times (S k)) as [t' Ht']; [lia|].
    change (seq k (S (S n))) with (k :: seq (S k) (S n)). cbn [for_each].
    rewrite (bestfitGraph_step_next _ _ _ t t') by (done || lia).
    rewrite bind_Ok, (IH (S k) t') by (done || lia).
    rewrite (drop_S _ _ _ Ht'). cbn [later_steps]. by rewrite <- app_assoc.
Qed.

(** The loop over the indices makes the steps of [segments]. *)
Lemma bestfitGraph_steps_segments lo times latest :
  times ≠ [] →
  bestfitGraph_steps lo times latest = Ok (segments lo times latest).
Proof.
  destruct times as [|t times]; [done|]. intros _.
  unfold bestfitGraph_steps.
  change (index (t :: times) 0) with (Ok t). rewrite bind_Ok.
  change (length (t :: times)) with (S (length times)).
  by rewrite (bestfitGraph_steps_from (t :: times) latest (length times) 0 t).
Qed.

Lemma counted_times_cons lo hi r log :
  counted_times lo hi (r :: log) =
    if decide (counted lo hi r) then time r :: counted_times lo hi log
    else counted_times lo hi log.
Proof. unfold counted_times. rewrite filter_cons. by case_decide. Qed.

Lemma transmission_times_cons lo hi r log x :
  transmission_times lo hi (r :: log) x =
    if decide (counted lo hi r ∧ source r = x)
    then time r :: transmission_times lo hi log x
    else transmission_times lo hi log x.
Proof.
  unfold transmission_times. rewrite transmissions_of_cons. by case_decide.
Qed.

Lemma transmission_times_length lo hi log x :
  length (transmission_times lo hi log x) = direct_count lo hi log x.
Proof. unfold transmission_times. by rewrite length_fmap. Qed.

Lemma bestfitGraph_next_counted lo hi set st r :
  bestfitGraph_next lo hi set st r =
    if decide (counted lo hi r)
    then (extend_at (source r) [time r] (setdefault_nil (source r) st.1),
          later set st.2 (time r))
    else st.
Proof.
  unfold bestfitGraph_next, counted.
  destruct (fgt lo (time r) || fgt (time r) hi) eqn:Hb.
  { apply out_of_bounds_not in Hb. rewrite decide_False; [done|tauto]. }
  apply out_of_bounds_iff in Hb.
  destruct (decide (source r = "None")).
  - rewrite decide_False; [done|tauto].
  - by rewrite decide_True.
Qed.

Lemma bestfitGraph_fold lo hi set log : ∀ st,
  dom (foldl (bestfitGraph_next lo hi set) st log).1 =
    dom st.1 ∪ sources lo hi log ∧
  (∀ x, (foldl (bestfitGraph_next lo hi set) st log).1 !!! x =
          st.1 !!! x ++ transmission_times lo hi log x) ∧
  (foldl (bestfitGraph_next lo hi set) st log).2 =
    foldl (later set) st.2 (counted_times lo hi log).
Proof.
  induction log as [|r log IH]; intros st; simpl.
  { split; [unfold sources; simpl; set_solver|]. split; [|done].
    intros x. unfold transmission_times, transmissions_of. simpl.
    by rewrite app_nil_r. }
  destruct (IH (bestfitGraph_next lo hi set st r)) as (Hdom & Hval & Hlat).
  rewrite Hdom, Hlat, sources_cons, counted_times_cons.
  setoid_rewrite Hval. setoid_rewrite transmission_times_cons.
  rewrite bestfitGraph_next_counted.
  destruct (decide (counted lo hi r)) as [Hr|Hr]; simpl.
  - split; [rewrite dom_extend_at, dom_setdefault_nil; set_solver|].
    split; [|done]. intros x.
    rewrite lookup_total_extend_at, !lookup_total_setdefault_nil.
    destruct (decide (x = source r)) as [->|Hx].
    + rewrite decide_True by done. by rewrite <- app_assoc.
    + rewrite decide_False; [done|]. intros [_ ?]. congruence.
  - split; [done|]. split; [|done]. intros x.
    rewrite decide_False; [done|tauto].
Qed.

Section TrendScan.

Variable float : string → option pyfloat.

Lemma bestfitGraph_line_read lo hi set line st :
  bestfitGraph_line float lo hi set line st =
    r ← read_transmission float line; Ok (bestfitGraph_next lo hi set st r).
Proof.
  unfold bestfitGraph_line, read_transmission, bestfitGraph_next.
  destruct st as [ti latest].
  destruct (unpack3 (split TAB_CHAR line)) as [[[u v] t]|e]; simpl; [|done].
  destruct (float_of float t) as [ft|e]; simpl; [|done].
  destruct (fgt lo ft || fgt ft hi); [done|].
  by destruct (decide (strip u = "None")).
Qed.

(** The first loop, on a log that reads: every source has its times, in
    the order of the log, and the latest time is [latest_time]. *)
Lemma bestfitGraph_scan_spec f lo hi log :
  read_log float f = Ok log →
  ∃ timesInfected,
    bestfitGraph_scan float f lo hi
      = Ok (timesInfected, latest_time lo hi log) ∧
    dom timesInfected = sources lo hi log ∧
    ∀ u, timesInfected !!! u = transmission_times lo hi log u.
Proof.
  intros Hlog. unfold bestfitGraph_scan. unfold read_log in Hlog.
  destruct (opengzip f) as [lines|e]; simpl in *; [|done].
  rewrite (for_each_read _ _ _ (bestfitGraph_line_read lo hi _)), Hlog.
  simpl.
  destruct (bestfitGraph_fold lo hi (negb (is_pinf hi)) log
              (∅, if is_pinf hi then Fin (-1) else hi)) as (Hdom & Hval & Hlat).
  destruct (foldl _ _ log) as [ti latest] eqn:Hfold. simpl in *.
  exists ti. split; [by rewrite Hlat|]. split.
  - rewrite Hdom. set_solver.
  - intros u. by rewrite Hval, lookup_total_empty.
Qed.

End TrendScan.

Section BestfitFacts.

Variable float : string → option pyfloat.
Variable linspace : pyfloat → pyfloat → nat → list pyfloat.
Variable empty_x empty_y : string → pyfloat.
Variable linregress_slope : list pyfloat → list pyfloat → pyfloat.

Local Abbreviation slope :=
  (slope_of linspace empty_x empty_y linregress_slope).

Lemma bestfitGraph_slope_spec u lo latest n times :
  times ≠ [] →
  bestfitGraph_slope linspace empty_x empty_y linregress_slope u lo times
    latest n
  = Ok (slope lo latest n u times).
Proof.
  intros Hne. unfold bestfitGraph_slope.
  by rewrite bestfitGraph_steps_segments.
Qed.

Lemma bestfitGraph_slopes_fold lo latest n (timesInfected : gmap string (list pyfloat)) :
  map_Forall (λ _ times, times ≠ []) timesInfected →
  map_fold (λ u times acc,
              slopesDict ← acc;
              slope ← bestfitGraph_slope linspace empty_x empty_y
                         linregress_slope u lo times latest n;
              Ok (<[u := slope]> slopesDict))
    (Ok ∅) timesInfected =
  Ok (map_imap (λ u times, Some (slope lo latest n u times)) timesInfected).
Proof.
  apply (map_fold_weak_ind (λ r m,
    map_Forall (λ _ times, times ≠ []) m →
    r = Ok (map_imap (λ u times, Some (slope lo latest n u times)) m))).
  { intros _. by rewrite map_imap_empty. }
  intros u times m r Hu IH Hm.
  apply map_Forall_insert in Hm as [Htimes Hm]; [|done].
  rewrite IH by done. rewrite bind_Ok, bestfitGraph_slope_spec by done.
  by rewrite bind_Ok, map_imap_insert.
Qed.

(** The trend-slope metric on a log that reads: the keys are the sources,
    and the slope of each is fitted on its [segments]. *)
Lemma bestfitGraph_spec f lo hi numPointsPerStep log :
  read_log float f = Ok log →
  ∃ slopesDict,
    bestfitGraph float linspace empty_x empty_y linregress_slope f lo hi
      numPointsPerStep = Ok slopesDict ∧
    dom slopesDict = sources lo hi log ∧
    ∀ u, u ∈ sources lo hi log →
         slopesDict !! u =
           Some (slope lo (latest_time lo hi log)
                   (if decide (numPointsPerStep = 0)%nat
                    then DEF_POINTS_PER_STEP else numPointsPerStep)
                   u (transmission_times lo hi log u)).
Proof.
  intros Hlog. unfold bestfitGraph.
  destruct (bestfitGraph_scan_spec float f lo hi log Hlog)
    as (ti & -> & Hdom & Hval).
  rewrite bind_Ok. rewrite bestfitGraph_slopes_fold.
  - eexists. split; [done|]. split.
    + rewrite <- Hdom. apply set_eq. intros u.
      rewrite !elem_of_dom, map_lookup_imap.
      destruct (ti !! u); simpl; split; intros [? ?]; by eauto.
    + intros u Hu. rewrite map_lookup_imap. rewrite <- Hdom in Hu.
      apply elem_of_dom in Hu as [times Hu]. rewrite Hu. simpl.
      by rewrite <- Hval, lookup_total_alt, Hu.
  - intros u times Hu Hnil.
    assert (u ∈ sources lo hi log) as Hsrc.
    { rewrite <- Hdom. apply elem_of_dom. eauto. }
    apply elem_of_sources_count in Hsrc. apply Hsrc.
    rewrite <- transmission_times_length, <- Hval.
    by rewrite lookup_total_alt, Hu, Hnil.
Qed.

End BestfitFacts.

(** ** The latest time *)

(** With the upper bound set the latest time stays what it was. *)
Lemma later_fold_set ts : ∀ latest, foldl (later true) latest ts = latest.
Proof. induction ts as [|t ts IH]; intros latest; simpl; [done|apply IH]. Qed.

(** Without it the latest time is the start or one of the times, is a
    number when the start is one, and no time is greater. *)
Lemma later_fold_unset ts : ∀ latest,
  latest ≠ NaN →
  let m := foldl (later false) latest ts in
  m ≠ NaN ∧ (m = latest ∨ m ∈ ts) ∧ fle latest m ∧
  Forall (λ t, fgt t m = false) ts.
Proof.
  induction ts as [|t ts IH]; intros latest Hnan; simpl.
  { split; [done|]. split; [by left|]. split; [by apply fle_refl|constructor]. }
  replace (later false latest t) with (if fgt t latest then t else latest)
    by done.
  destruct (fgt t latest) eqn:Hgt.
  - destruct (fgt_not_nan _ _ Hgt) as [Ht _].
    destruct (IH t Ht) as (Hm & Hin & Hle & Hall).
    split; [done|].
    split; [right; destruct Hin as [->|?]; [left|by right]|].
    split; [eapply fle_trans; [by apply fgt_fle_weak|done]|].
    constructor; [by apply fle_not_fgt|done].
  - destruct (IH latest Hnan) as (Hm & Hin & Hle & Hall).
    split; [done|].
    split; [destruct Hin as [->|?]; [by left|right; by right]|].
    split; [done|]. constructor; [|done].
    assert (t = NaN ∨ t ≠ NaN) as [->|Ht] by (destruct t; auto).
    { by destruct (foldl _ _ _). }
    apply fle_not_fgt. eapply fle_trans; [|done]. by apply not_fgt_fle.
Qed.

Lemma latest_time_set lo hi log : hi ≠ PInf → latest_time lo hi log = hi.
Proof.
  intros Hhi. unfold latest_time.
  destruct hi; simpl; try done; apply later_fold_set.
Qed.

(** With no upper bound the latest time is the greatest of -1 and the
    counted times. *)
Lemma latest_time_unset lo log :
  (latest_time lo PInf log = Fin (-1) ∨
   latest_time lo PInf log ∈ counted_times lo PInf log) ∧
  fle (Fin (-1)) (latest_time lo PInf log) ∧
  Forall (λ t, fgt t (latest_time lo PInf log) = false)
    (counted_times lo PInf log).
Proof.
  unfold latest_time. simpl.
  destruct (later_fold_unset (counted_times lo PInf log) (Fin (-1)))
    as (_ & Hm & Hle & Hall); done.
Qed.

Section TrendFacts.

Variable float : string → option pyfloat.
Variable linspace : pyfloat → pyfloat → nat → list pyfloat.
Variable empty_x empty_y : string → pyfloat.
Variable linregress_slope : list pyfloat → list pyfloat → pyfloat.


End TrendFacts.


(** ** Metrics 5 and 6 *)

Lemma numContacts_line_read line d :
  numContacts_line line d =
    c ← read_contact line; Ok (numContacts_next d c).
Proof.
  unfold numContacts_line, read_contact, numContacts_next.
  destruct (decide (slice_0_4 line = "NODE")); [done|].
  destruct (unpack5 (split TAB_CHAR line)) as [[[[[u v] t] w] x]|e];
    simpl; [|done].
  by destruct (decide (strip u = "None")).
Qed.

Lemma numContactInfect_line_read numInfected line d :
  numContactInfect_line numInfected line d =
    c ← read_contact line; Ok (numContactInfect_next numInfected d c).
Proof.
  unfold numContactInfect_line, read_contact, numContactInfect_next.
  destruct (decide (slice_0_4 line = "NODE")); [done|].
  destruct (unpack5 (split TAB_CHAR line)) as [[[[[u v] t] w] x]|e];
    simpl; [|done].
  destruct (decide (strip u = "None")); [done|].
  destruct (decide (is_Some (numInfected !! t)));
    by destruct (decide (is_Some (numInfected !! strip v))).
Qed.

Lemma participants_cons c net :
  participants (c :: net) =
    match c with
    | Some c =>
        if decide (node c = "None") then participants net
        else {[neighborA c; neighborB c]} ∪ participants net
    | None => participants net
    end.
Proof.
  unfold participants, edges. destruct c as [c|]; simpl; [|done].
  rewrite filter_cons. case_decide; [|by rewrite decide_True].
  rewrite decide_False by done. simpl. set_solver.
Qed.

Lemma numContacts_next_dom d c :
  dom (numContacts_next d c) = dom d ∪ participants [c].
Proof.
  rewrite participants_cons. unfold numContacts_next, participants, edges.
  destruct c as [c|]; simpl; [|set_solver].
  case_decide; [set_solver|].
  rewrite !dom_add_to, !dom_setdefault0. set_solver.
Qed.

Lemma numContactInfect_next_dom numInfected d c :
  dom (numContactInfect_next numInfected d c) = dom d ∪ participants [c].
Proof.
  rewrite participants_cons. unfold numContactInfect_next, participants, edges.
  destruct c as [c|]; simpl; [|set_solver].
  case_decide; [set_solver|].
  repeat case_decide; rewrite ?dom_add_to, !dom_setdefault0; set_solver.
Qed.

Lemma participants_app_one c net :
  participants (c :: net) = participants [c] ∪ participants net.
Proof.
  rewrite !participants_cons. unfold participants at 3 5, edges. simpl.
  destruct c as [c|]; [case_decide|]; set_solver.
Qed.

Lemma numContacts_fold_dom net : ∀ d,
  dom (foldl numContacts_next d net) = dom d ∪ participants net.
Proof.
  induction net as [|c net IH]; intros d; simpl.
  { unfold participants, edges. simpl. set_solver. }
  rewrite IH, numContacts_next_dom, (participants_app_one c net). set_solver.
Qed.

Lemma numContactInfect_fold_dom numInfected net : ∀ d,
  dom (foldl (numContactInfect_next numInfected) d net) =
  dom d ∪ participants net.
Proof.
  induction net as [|c net IH]; intros d; simpl.
  { unfold participants, edges. simpl. set_solver. }
  rewrite IH, numContactInfect_next_dom, (participants_app_one c net).
  set_solver.
Qed.

Lemma numContacts_read f lo hi :
  numContacts f lo hi =
    net ← read_contacts f; Ok (foldl numContacts_next ∅ net).
Proof.
  unfold numContacts, read_contacts.
  destruct (opengzip f) as [lines|e]; simpl; [|done].
  apply for_each_read, numContacts_line_read.
Qed.

(** C10.  In both contact metrics a line that is not a header, has its
    five fields and whose first field trims to ['None'] leaves the counts
    as they were: no entry is made or changed for its two participants,
    and the loop over the file ends as it does without the line. *)
Theorem contact_line_of_none_skipped line u v t w x numInfected
    (numberContacts : gmap string nat) before after :
  slice_0_4 line ≠ "NODE" →
  split TAB_CHAR line = [u; v; t; w; x] →
  strip u = "None" →
  numContacts_line line numberContacts = Ok numberContacts ∧
  numContactInfect_line numInfected line numberContacts = Ok numberContacts ∧
  for_each numContacts_line (before ++ line :: after) numberContacts =
    for_each numContacts_line (before ++ after) numberContacts ∧
  for_each (numContactInfect_line numInfected) (before ++ line :: after)
    numberContacts =
    for_each (numContactInfect_line numInfected) (before ++ after)
      numberContacts.
Proof.
  intros Hhead Hsplit Hnone.
  assert (∀ d, numContacts_line line d = Ok d) as H5.
  { intros d. unfold numContacts_line. rewrite decide_False by done.
    rewrite Hsplit. simpl. by rewrite decide_True. }
  assert (∀ d, numContactInfect_line numInfected line d = Ok d) as H6.
  { intros d. unfold numContactInfect_line. rewrite decide_False by done.
    rewrite Hsplit. simpl. by rewrite decide_True. }
  split; [done|]. split; [done|].
  rewrite !for_each_app. split.
  - destruct (for_each numContacts_line before numberContacts); simpl; [|done].
    by rewrite H5.
  - destruct (for_each (numContactInfect_line numInfected) before numberContacts);
      simpl; [|done].
    by rewrite H6.
Qed.

(** A line of the sentinel after an edge between A and B. *)
Lemma contact_line_of_none_skipped_witness :
  numContacts_line (tsv ["None"; "C"; "D"; "."; "u"]) {["A" := 1%nat]}
    = Ok {["A" := 1%nat]} ∧
  numContactInfect_line {["C" := 2%nat]} (tsv ["None"; "C"; "D"; "."; "u"])
    {["A" := 1%nat]} = Ok {["A" := 1%nat]} ∧
  for_each numContacts_line
    ([tsv ["EDGE"; "A"; "B"; "."; "u"]]
       ++ tsv ["None"; "C"; "D"; "."; "u"] :: []) {["A" := 1%nat]} =
    for_each numContacts_line
      ([tsv ["EDGE"; "A"; "B"; "."; "u"]] ++ []) {["A" := 1%nat]} ∧
  for_each (numContactInfect_line {["C" := 2%nat]})
    ([tsv ["EDGE"; "A"; "B"; "."; "u"]]
       ++ tsv ["None"; "C"; "D"; "."; "u"] :: []) {["A" := 1%nat]} =
    for_each (numContactInfect_line {["C" := 2%nat]})
      ([tsv ["EDGE"; "A"; "B"; "."; "u"]] ++ []) {["A" := 1%nat]}.
Proof.
  apply (contact_line_of_none_skipped
           (tsv ["None"; "C"; "D"; "."; "u"]) "None" "C" "D" "." "u").
  - by vm_compute.
  - by vm_compute.
  - by vm_compute.
Defined.

(** ** The rank matcher *)

Section RankMatcherFacts.

Context {V : Type}.
Variable format_d : V → result string.
Variable format_f : V → string.

Lemma matchInfectorCounts_line_text (d : gmap string V) metric outfile line text :
  score_text format_d format_f d metric line = Ok text →
  matchInfectorCounts_line format_d format_f d metric outfile line
  = Ok (outfile ++ [strip line +:+ TAB +:+ text +:+ NL]).
Proof.
  unfold matchInfectorCounts_line, score_text, write.
  destruct (d !! strip line) as [count|]; [|by intros [= <-]].
  destruct (selector_eq metric METRIC2); [by intros [= <-]|].
  by intros ->.
Qed.

Lemma matchInfectorCounts_line_raise (d : gmap string V) metric outfile line e :
  score_text format_d format_f d metric line = Raise e →
  matchInfectorCounts_line format_d format_f d metric outfile line = Raise e.
Proof.
  unfold matchInfectorCounts_line, score_text.
  destruct (d !! strip line) as [count|]; [|done].
  destruct (selector_eq metric METRIC2); [done|]. by intros ->.
Qed.

(** When every score can be printed, the matcher writes one line for each
    identifier of the ordering, in its order, and raises nothing. *)
Lemma matchInfectorCounts_texts (d : gmap string V) metric order texts :
  Forall2 (λ line text, score_text format_d format_f d metric line = Ok text)
    order texts →
  ∀ outfile,
    matchInfectorCounts format_d format_f d order outfile metric =
    (outfile ++ zip_with (λ line text, strip line +:+ TAB +:+ text +:+ NL)
                  order texts, None).
Proof.
  induction 1 as [|line text order texts Hline _ IH]; intros outfile.
  { simpl. by rewrite app_nil_r. }
  cbn [matchInfectorCounts zip_with].
  rewrite (matchInfectorCounts_line_text _ _ _ _ _ Hline), IH.
  by rewrite <- app_assoc.
Qed.

(** And at the first score that cannot be printed it stops with the
    exception of ["%d"]: the lines before it are written and the lines
    after it are not. *)
Lemma matchInfectorCounts_stops (d : gmap string V) metric order texts line e rest :
  Forall2 (λ line text, score_text format_d format_f d metric line = Ok text)
    order texts →
  score_text format_d format_f d metric line = Raise e →
  ∀ outfile,
    matchInfectorCounts format_d format_f d (order ++ line :: rest) outfile
      metric =
    (outfile ++ zip_with (λ line text, strip line +:+ TAB +:+ text +:+ NL)
                  order texts, Some e).
Proof.
  intros Horder Hline.
  induction Horder as [|line' text order texts Hline' _ IH]; intros outfile.
  { cbn [app matchInfectorCounts zip_with].
    rewrite (matchInfectorCounts_line_raise _ _ _ _ _ Hline).
    by rewrite app_nil_r. }
  cbn [app matchInfectorCounts zip_with].
  rewrite (matchInfectorCounts_line_text _ _ _ _ _ Hline'), IH.
  by rewrite <- app_assoc.
Qed.

End RankMatcherFacts.

(** On a map of counts ["%d"] prints every score: the matcher writes the
    line of each identifier, with its count or with 0, for every selector
    that is not 2. *)
Lemma matchInfectorCounts_of_counts (format_f : pyscore → string)
    (d : gmap string nat) order outfile metric :
  selector_eq metric METRIC2 = false →
  matchInfectorCounts percent_d format_f (Count <$> d) order outfile metric =
  (outfile ++
     ((λ line, strip line +:+ TAB +:+
                 match d !! strip line with
                 | Some n => show_int (Z.of_nat n)
                 | None => "0"
                 end +:+ NL) <$> order), None).
Proof.
  intros Hm.
  rewrite (matchInfectorCounts_texts percent_d format_f (Count <$> d) metric
             order
             ((λ line, match d !! strip line with
                       | Some n => show_int (Z.of_nat n)
                       | None => "0"
                       end) <$> order)).
  - f_equal. f_equal. clear. induction order as [|line order IH]; [done|].
    cbn [fmap list_fmap zip_with]. cbn [fmap] in IH. by rewrite IH.
  - clear outfile. induction order as [|line order IH]; constructor; [|done].
    unfold score_text. rewrite lookup_fmap, Hm.
    by destruct (d !! strip line).
Qed.

(** C8 on the score maps of metric 2 with a parameter.  For the selector
    2.5 [pairCounts] runs the trend-slope metric, whose scores are slopes,
    and the test [metric == METRIC2] of the rank matcher fails, so that the
    slopes are printed with ["%d"]: the slope 3/4 is listed as 0; on a
    slope that is not-a-number the matcher raises [ValueError]; and on an
    infinite slope it raises [OverflowError], with the line before it
    written and the line after it missing. *)
Theorem rank_matcher_fails_on_slopes (format_f : pyscore → string) :
  (sel_int (Selector 2 5) =? METRIC2)%Z = true ∧
  selector_eq (Selector 2 5) METRIC2 = false ∧
  matchInfectorCounts percent_d format_f {["A" := Slope (Fin (3 # 4))]}
    ["A"] [] (Selector 2 5)
  = (["A" +:+ TAB +:+ "0" +:+ NL], None) ∧
  matchInfectorCounts percent_d format_f {["A" := Slope NaN]}
    ["A"] [] (Selector 2 5)
  = ([], Some (ValueError IntOfNaN)) ∧
  matchInfectorCounts percent_d format_f {["B" := Slope PInf]}
    ["A"; "B"; "C"] [] (Selector 2 5)
  = (["A" +:+ TAB +:+ "0" +:+ NL], Some OverflowError).
Proof. repeat split; by vm_compute. Qed.

(** ** The correlation driver *)

Section CorrelationFacts.

Context {score num : Type}.
Variable kendalltau : list nat → list score → result (num * num).
Variable str : num → string.

(** C4, as the code has it.  On an empty sequence of scores the driver has
    no test of its own: it hands the empty ideal order and the empty
    sequence to [kendalltau], writes the line of the two numbers that come
    back, and raises only what [kendalltau] raises. *)
Theorem tau_b_of_nothing (outfile : list string) (reverse : bool) :
  calculateTauB kendalltau str [] outfile reverse =
    match kendalltau [] [] with
    | Ok (tau, pvalue) => Ok (outfile ++ [str tau +:+ TAB +:+ str pvalue +:+ NL])
    | Raise e => Raise e
    end.
Proof.
  unfold calculateTauB.
  change (length (@nil score)) with 0%nat.
  change (range_down 0) with (@nil nat). change (range_up 0) with (@nil nat).
  destruct reverse; simpl; by destruct (kendalltau [] []) as [[tau pvalue]|e].
Qed.

End CorrelationFacts.

(** C4 as stated fails: with a [kendalltau] that answers two empty
    sequences with not-a-number twice, as the one of scipy does, the driver
    raises nothing and writes a line. *)
Lemma tau_b_of_nothing_writes :
  calculateTauB (score := pyfloat) kendalltau_of_nothing id [] [] false
  = Ok ["nan" +:+ TAB +:+ "nan" +:+ NL].
Proof. done. Qed.

(** ** The dispatcher *)

Section DispatchFacts.

Variable float : string → option pyfloat.
Variable linspace : pyfloat → pyfloat → nat → list pyfloat.
Variable empty_x empty_y : string → pyfloat.
Variable linregress_slope : list pyfloat → list pyfloat → pyfloat.

Local Abbreviation run :=
  (pairCounts float linspace empty_x empty_y linregress_slope).

(** A selector that is one of 1, 2, 3, 4 and 6 and no transmission log:
    the first test raises. *)
Lemma pairCounts_missing_transmissionHist contactNet lo hi metric :
  selector_in metric [METRIC1; METRIC2; METRIC3; METRIC4; METRIC6] = true →
  run NotSupplied contactNet lo hi metric =
  Raise (ValueError (MissingTransmissionHist metric)).
Proof. intros Hin. unfold pairCounts. by rewrite Hin. Qed.

(** A selector that is 5 or 6, with its transmission log if it is 6, and
    no contact network: the second test raises. *)
Lemma pairCounts_missing_contactNet content lo hi metric :
  selector_in metric [METRIC5; METRIC6] = true →
  run (Text content) NotSupplied lo hi metric =
  Raise (ValueError (MissingContactNet metric)).
Proof.
  intros Hin. unfold pairCounts. rewrite Hin. simpl.
  by rewrite andb_false_r.
Qed.

Lemma pairCounts_metric5_missing_contactNet transmissionHist lo hi :
  run transmissionHist NotSupplied lo hi (Selector 5 0) =
  Raise (ValueError (MissingContactNet (Selector 5 0))).
Proof. done. Qed.

(** C6 at a selector with a parameter.  For the selectors 2.5 (trend-slope
    with 5 points for each step) and 3.4 (indirect-count to degree 4) and
    no transmission log, neither test of [pairCounts] raises: the metric
    is entered and what is raised is the failure to open the path ['']. *)
Theorem pairCounts_parameter_unguarded contactNet lo hi :
  selector_in (Selector 2 5) [METRIC1; METRIC2; METRIC3; METRIC4; METRIC6]
    = false ∧
  run NotSupplied contactNet lo hi (Selector 2 5)
    = Raise FileNotFoundError ∧
  run NotSupplied contactNet lo hi (Selector 3 4)
    = Raise FileNotFoundError.
Proof. done. Qed.

End DispatchFacts.

(** C1 on the log A -> B, B -> C.  The total count of A is 1, its direct
    count, where the documented total is 2: its direct count and the direct
    count of B. *)
Theorem total_count_leaves_out_infectees :
  ∃ d log,
    read_log decimal chain_log = Ok log ∧
    totalTransmissions decimal chain_log zero PInf = Ok d ∧
    d !! "A" = Some 1%nat ∧
    direct_count zero PInf log "A" = 1%nat ∧
    infectees zero PInf log "A" = ["B"] ∧
    direct_count zero PInf log "B" = 1%nat ∧
    total_count zero PInf log "A" = 2%nat.
Proof.
  do 2 eexists. split; [by vm_compute|]. repeat split; by vm_compute.
Qed.

(** ** The keys of the score maps *)

Lemma sources_not_sentinel lo hi log : "None" ∉ sources lo hi log.
Proof. rewrite elem_of_sources. intros (r & _ & [_ Hr] & Heq). done. Qed.

Section KeysFacts.

Variable float : string → option pyfloat.
Variable linspace : pyfloat → pyfloat → nat → list pyfloat.
Variable empty_x empty_y : string → pyfloat.
Variable linregress_slope : list pyfloat → list pyfloat → pyfloat.

Lemma sources_not_empty f lo hi log :
  read_log float f = Ok log → "" ∉ sources lo hi log.
Proof.
  intros Hlog. rewrite elem_of_sources. intros (r & Hr & _ & Heq).
  apply read_log_source in Hlog. by eapply Forall_forall in Hlog.
Qed.

Lemma directTransmissions_dom f lo hi log :
  read_log float f = Ok log →
  ∃ d, directTransmissions float f lo hi = Ok d ∧ dom d = sources lo hi log.
Proof.
  intros Hlog. rewrite directTransmissions_read, Hlog. simpl.
  eexists. split; [done|]. apply numInfected_fold_dom.
  by eapply read_log_source.
Qed.

Lemma totalTransmissions_dom f lo hi log :
  read_log float f = Ok log →
  ∃ d, totalTransmissions float f lo hi = Ok d ∧ dom d = sources lo hi log.
Proof.
  intros Hlog. rewrite totalTransmissions_read, Hlog. simpl.
  eexists. split; [done|].
  rewrite numInfected_fold_direct by by eapply read_log_source.
  apply numInfected_fold_dom. by eapply read_log_source.
Qed.

Lemma numContactInfect_read tf cf lo hi :
  numContactInfect float tf cf lo hi =
    log ← read_log float tf;
    net ← read_contacts cf;
    Ok (foldl (numContactInfect_next (foldl (numInfected_next lo hi) ∅ log))
          ∅ net).
Proof.
  unfold numContactInfect, read_log, read_contacts.
  destruct (opengzip tf) as [lines|e]; simpl; [|done].
  rewrite (for_each_read _ _ _ (numInfected_line_read float lo hi)).
  destruct (read_all (read_transmission float) lines) as [log|e]; simpl; [|done].
  destruct (opengzip cf) as [clines|e]; simpl; [|done].
  apply for_each_read, numContactInfect_line_read.
Qed.

(** C5, as the code has it.  For every supported selector, all bounds,
    and files of which those that the metric reads do read (the
    transmission log for every metric but 5, the contact network for
    metrics 5 and 6; the other file may be missing or unreadable),
    [pairCounts] returns a score map whose keys are: for metrics 1, 2 and 4
    the individuals observed as a source other than ['None'] within the
    bounds, none of which is empty or ['None']; for metric 3 those sources
    and the destinations of their records within the bounds; for metrics 5
    and 6, whatever the bounds, the second and third fields of the lines of
    the network that are no header and whose first field is not ['None']. *)
Theorem score_map_keys tf cf lower upper metric log net :
  supported metric = true →
  (selector_eq metric METRIC5 = false → read_log float tf = Ok log) →
  (selector_eq metric METRIC5 || selector_eq metric METRIC6 = true →
   read_contacts cf = Ok net) →
  ∃ s, pairCounts float linspace empty_x empty_y linregress_slope
         tf cf lower upper metric = Ok s ∧
       keys s = expected_keys lower upper log net metric ∧
       (selector_eq metric METRIC5 = false →
        ("" ∉ sources lower upper log) ∧ ("None" ∉ sources lower upper log)).
Proof.
  intros Hsup Hlog Hnet.
  cut (∃ s, pairCounts float linspace empty_x empty_y linregress_slope
              tf cf lower upper metric = Ok s ∧
            keys s = expected_keys lower upper log net metric).
  { intros (s & Hs & Hkeys). exists s. split; [done|]. split; [done|].
    intros H5. specialize (Hlog H5).
    split; [by eapply sources_not_empty|apply sources_not_sentinel]. }
  assert (selector_eq metric METRIC5 || selector_eq metric METRIC6 = true →
          ∃ content, cf = Text content) as Hcf.
  { intros H. specialize (Hnet H). destruct cf; [done|eauto]. }
  unfold pairCounts, expected_keys, selector_in. cbn [existsb].
  unfold supported in Hsup.
  destruct (selector_eq metric METRIC5) eqn:H5.
  { destruct (Hcf eq_refl) as [ccontent ->]. specialize (Hnet eq_refl).
    destruct metric as [z n]. unfold selector_eq in *. simpl in *.
    apply andb_true_iff in H5 as [->%Z.eqb_eq ->%Nat.eqb_eq]. simpl.
    rewrite numContacts_read, Hnet. simpl.
    eexists. split; [done|]. simpl.
    rewrite numContacts_fold_dom. set_solver. }
  specialize (Hlog eq_refl).
  destruct tf as [|tcontent]; [done|].
  simpl not_supplied. rewrite !andb_false_r.
  destruct (selector_eq metric METRIC6) eqn:H6.
  { destruct (Hcf eq_refl) as [ccontent ->]. specialize (Hnet eq_refl).
    destruct metric as [z n]. unfold selector_eq in *. simpl in *.
    apply andb_true_iff in H6 as [->%Z.eqb_eq ->%Nat.eqb_eq]. simpl.
    rewrite numContactInfect_read, Hlog, Hnet. simpl.
    eexists. split; [done|]. simpl.
    rewrite numContactInfect_fold_dom. set_solver. }
  cbn [orb andb].
  destruct (selector_eq metric METRIC1) eqn:H1.
  { destruct (directTransmissions_dom _ lower upper log Hlog) as (d & -> & Hd).
    eexists. split; [done|]. simpl. rewrite Hd.
    destruct metric as [z n]. unfold selector_eq in *. simpl in *.
    apply andb_true_iff in H1 as [->%Z.eqb_eq _]. done. }
  destruct (sel_int metric =? METRIC2)%Z eqn:H2.
  { destruct (bestfitGraph_spec float linspace empty_x empty_y linregress_slope
                _ lower upper (sel_frac metric) log Hlog) as (d & -> & Hd & _).
    eexists. split; [done|]. simpl. rewrite Hd.
    destruct metric as [z n]. unfold selector_eq in *. simpl in *.
    apply Z.eqb_eq in H2 as ->. done. }
  destruct (sel_int metric =? METRIC3)%Z eqn:H3.
  { destruct (indirectTransmissions_spec float _
                (if (sel_frac metric <? 2)%nat then 2%nat else sel_frac metric)
                lower upper log Hlog) as (d & -> & Hd & _).
    eexists. split; [done|]. simpl. rewrite Hd.
    destruct metric as [z n]. unfold selector_eq in *. simpl in *.
    apply Z.eqb_eq in H3 as ->. simpl.
    destruct (Nat.ltb_spec n 2); [done|].
    destruct (n - 1)%nat eqn:Hn; [lia|done]. }
  destruct (selector_eq metric METRIC4) eqn:H4; [|done].
  destruct (totalTransmissions_dom _ lower upper log Hlog) as (d & -> & Hd).
  eexists. split; [done|]. simpl. rewrite Hd.
  destruct metric as [z n]. unfold selector_eq in *. simpl in *.
  apply andb_true_iff in H4 as [->%Z.eqb_eq _]. done.
Qed.

End KeysFacts.

(** C5 as stated fails for metric 3: in the log with the one record A -> B
    the score map has the key B, and B is no source. *)
Lemma score_map_keys_destination :
  ∃ d log,
    read_log decimal single_log = Ok log ∧
    indirectTransmissions decimal single_log 2 zero PInf = Ok d ∧
    d !! "B" = Some 0%nat ∧
    "B" ∈ dom d ∧
    "B" ∉ sources zero PInf log.
Proof.
  do 2 eexists. split; [by vm_compute|]. split; [by vm_compute|].
  split; [by vm_compute|]. split.
  - apply elem_of_dom. exists 0%nat. by vm_compute.
  - rewrite elem_of_sources. intros (r & Hr & _ & Hsrc).
    apply list_elem_of_In in Hr. simpl in Hr.
    destruct Hr as [<-|[]]. done.
Qed.

(** ** The theorems at the sample inputs *)

(** Metric 1 on the log A -> B, B -> C. *)
Lemma direct_count_correct_witness :
  ∃ d, directTransmissions decimal chain_log zero PInf = Ok d ∧
       (∀ x, d !! x =
               if decide (direct_count zero PInf chain_records x = 0)%nat
               then None
               else Some (direct_count zero PInf chain_records x)) ∧
       (∀ x, direct_count zero PInf chain_records x =
               length (filter (λ r, in_bounds zero PInf r ∧
                                    source r ≠ "None" ∧ source r = x)
                         chain_records)) ∧
       (∀ r, zero ≠ NaN → PInf ≠ NaN → time r ≠ NaN →
             in_bounds zero PInf r ↔ fle zero (time r) ∧ fle (time r) PInf) ∧
       (∀ r, time r = NaN → in_bounds zero PInf r).
Proof.
  apply (direct_count_correct decimal chain_log zero PInf chain_records).
  vm_compute. reflexivity.
Defined.

(** Metric 3 with two degrees on the log A -> B, B -> C. *)
Lemma indirect_count_two_degrees_witness :
  ∃ d, indirectTransmissions decimal chain_log 2 zero PInf = Ok d ∧
       ∀ x, d !! x =
              if decide (x ∈ sources zero PInf chain_records
                             ∪ destinations zero PInf chain_records)
              then Some (length (flat_map (infectees zero PInf chain_records)
                                   (infectees zero PInf chain_records x)))
              else None.
Proof.
  apply (indirect_count_two_degrees decimal chain_log zero PInf chain_records).
  vm_compute. reflexivity.
Defined.

(** The keys of metric 3 on the log A -> B, B -> C, called with no contact
    network. *)
Lemma score_map_keys_witness :
  ∃ s, pairCounts decimal sample_linspace sample_empty_x sample_empty_y
         sample_slope chain_log NotSupplied zero PInf (Selector 3 0) = Ok s ∧
       keys s = expected_keys zero PInf chain_records [] (Selector 3 0) ∧
       (selector_eq (Selector 3 0) METRIC5 = false →
        ("" ∉ sources zero PInf chain_records) ∧
        ("None" ∉ sources zero PInf chain_records)).
Proof.
  apply (score_map_keys decimal sample_linspace sample_empty_x sample_empty_y
           sample_slope chain_log NotSupplied zero PInf (Selector 3 0)
           chain_records []).
  - vm_compute. reflexivity.
  - intros _. vm_compute. reflexivity.
  - vm_compute. discriminate.
Defined.


(** * Further properties *)

(** ** Logs that do not read, and blank files *)

Lemma read_all_Exists_raise {A B : Type} (read : A → result B)
    (bad : A → Prop) (P : exn → Prop) :
  (∀ x, bad x → ∃ e, read x = Raise e) →
  (∀ x e, read x = Raise e → P e) →
  ∀ xs, Exists bad xs → ∃ e, read_all read xs = Raise e ∧ P e.
Proof.
  intros Hbad HP xs. induction xs as [|x xs IH]; intros Hex.
  { by apply Exists_nil in Hex. }
  simpl. destruct (read x) as [y|e] eqn:Hx.
  - apply Exists_cons in Hex as [Hx'|Hxs].
    { apply Hbad in Hx' as [e He]. congruence. }
    destruct (IH Hxs) as (e & -> & He). by exists e.
  - exists e. split; [done|]. by eapply HP.
Qed.

Lemma indirectTransmissions_degrees_empty rounds :
  indirectTransmissions_degrees rounds ∅ ∅ ∅ ∅ = Ok ∅.
Proof.
  induction rounds as [|rounds IH]; simpl; [done|].
  unfold indirectTransmissions_expand. rewrite map_fold_empty, bind_Ok.
  unfold indirectTransmissions_tally. by rewrite map_fold_empty.
Qed.

Lemma opengzip_blank content :
  strip content = "" → opengzip (Text content) = Ok [].
Proof. intros H. unfold opengzip. by rewrite H. Qed.

Section ReadingFacts.

Variable float : string → option pyfloat.

Lemma read_transmission_raises line e :
  read_transmission float line = Raise e → ∃ w, e = ValueError w.
Proof.
  unfold read_transmission, unpack3, float_of.
  destruct (split TAB_CHAR line) as [|u [|v [|t [|? ?]]]]; simpl;
    try (intros [= <-]; eauto).
  destruct (float t); simpl; [done|]. intros [= <-]. eauto.
Qed.

Lemma read_transmission_malformed line :
  malformed float line → ∃ e, read_transmission float line = Raise e.
Proof.
  unfold malformed, read_transmission, unpack3, float_of.
  destruct (split TAB_CHAR line) as [|u [|v [|t [|? ?]]]]; simpl; eauto.
  intros ->. simpl. eauto.
Qed.

Lemma read_log_malformed f lines :
  opengzip f = Ok lines →
  Exists (malformed float) lines →
  ∃ w, read_log float f = Raise (ValueError w).
Proof.
  intros Hf Hex. unfold read_log. rewrite Hf, bind_Ok.
  destruct (read_all_Exists_raise (read_transmission float) (malformed float)
              (λ e, ∃ w, e = ValueError w) read_transmission_malformed
              read_transmission_raises lines Hex) as (e & -> & w & ->).
  eauto.
Qed.

Lemma bestfitGraph_scan_read f lo hi :
  bestfitGraph_scan float f lo hi =
    log ← read_log float f;
    Ok (foldl (bestfitGraph_next lo hi (negb (is_pinf hi)))
          (∅, if is_pinf hi then Fin (-1) else hi) log).
Proof.
  unfold bestfitGraph_scan, read_log.
  destruct (opengzip f) as [lines|e]; simpl; [|done].
  rewrite (for_each_read _ _ _ (bestfitGraph_line_read float lo hi _)).
  by destruct (read_all (read_transmission float) lines).
Qed.

Lemma indirectTransmissions_read f numDegrees lo hi :
  indirectTransmissions float f numDegrees lo hi =
    log ← read_log float f;
    indirectTransmissions_degrees (numDegrees - 1)
      (foldl (direct_next lo hi) ∅ log) (foldl (direct_next lo hi) ∅ log) ∅ ∅.
Proof.
  unfold indirectTransmissions, read_log.
  destruct (opengzip f) as [lines|e]; simpl; [|done].
  rewrite (for_each_read _ _ _ (indirectTransmissions_line_read float lo hi)).
  by destruct (read_all (read_transmission float) lines).
Qed.

End ReadingFacts.

Section AbortFacts.

Variable float : string → option pyfloat.
Variable linspace : pyfloat → pyfloat → nat → list pyfloat.
Variable empty_x empty_y : string → pyfloat.
Variable linregress_slope : list pyfloat → list pyfloat → pyfloat.

(** X1.  A file with a line that has not three tab-separated fields, or
    whose third field is no number, makes each metric that reads a
    transmission log raise one and the same [ValueError], whatever the
    bounds and wherever the line stands: nothing is returned for the lines
    before it. *)
Theorem malformed_line_aborts f cf lines lower upper numPointsPerStep numDegrees :
  opengzip f = Ok lines →
  Exists (malformed float) lines →
  ∃ w,
    directTransmissions float f lower upper = Raise (ValueError w) ∧
    bestfitGraph float linspace empty_x empty_y linregress_slope
      f lower upper numPointsPerStep = Raise (ValueError w) ∧
    indirectTransmissions float f numDegrees lower upper
      = Raise (ValueError w) ∧
    totalTransmissions float f lower upper = Raise (ValueError w) ∧
    numContactInfect float f cf lower upper = Raise (ValueError w).
Proof.
  intros Hf Hex.
  destruct (read_log_malformed float f lines Hf Hex) as [w Hlog].
  exists w. unfold bestfitGraph.
  rewrite directTransmissions_read, bestfitGraph_scan_read,
    indirectTransmissions_read, totalTransmissions_read,
    numContactInfect_read, Hlog.
  done.
Qed.

(** X2.  On a text of white space only, the empty text included, each
    metric returns the empty dictionary and raises nothing. *)
Theorem blank_file_scores_nothing content lower upper numPointsPerStep numDegrees :
  strip content = "" →
  directTransmissions float (Text content) lower upper = Ok ∅ ∧
  bestfitGraph float linspace empty_x empty_y linregress_slope
    (Text content) lower upper numPointsPerStep = Ok ∅ ∧
  indirectTransmissions float (Text content) numDegrees lower upper = Ok ∅ ∧
  totalTransmissions float (Text content) lower upper = Ok ∅ ∧
  numContacts (Text content) lower upper = Ok ∅ ∧
  numContactInfect float (Text content) (Text content) lower upper = Ok ∅.
Proof.
  intros Hblank. apply opengzip_blank in Hblank.
  unfold directTransmissions, bestfitGraph, bestfitGraph_scan,
    indirectTransmissions, totalTransmissions, numContacts, numContactInfect.
  rewrite !Hblank. simpl.
  rewrite !map_fold_empty, indirectTransmissions_degrees_empty. done.
Qed.

End AbortFacts.

Lemma malformed_line_aborts_witness :
  ∃ w,
    directTransmissions decimal short_line_log zero PInf
      = Raise (ValueError w) ∧
    bestfitGraph decimal sample_linspace sample_empty_x sample_empty_y sample_slope
      short_line_log zero PInf 3 = Raise (ValueError w) ∧
    indirectTransmissions decimal short_line_log 2 zero PInf
      = Raise (ValueError w) ∧
    totalTransmissions decimal short_line_log zero PInf
      = Raise (ValueError w) ∧
    numContactInfect decimal short_line_log sample_net zero PInf
      = Raise (ValueError w).
Proof.
  apply (malformed_line_aborts decimal sample_linspace sample_empty_x sample_empty_y sample_slope
           short_line_log sample_net
           [tsv ["A"; "B"; "1"]; tsv ["B"; "C"]]).
  - vm_compute. reflexivity.
  - apply Exists_cons_tl, Exists_cons_hd. vm_compute. exact I.
Defined.

Lemma blank_file_scores_nothing_witness :
  directTransmissions decimal (Text blank) zero PInf = Ok ∅ ∧
  bestfitGraph decimal sample_linspace sample_empty_x sample_empty_y sample_slope
    (Text blank) zero PInf 3 = Ok ∅ ∧
  indirectTransmissions decimal (Text blank) 2 zero PInf = Ok ∅ ∧
  totalTransmissions decimal (Text blank) zero PInf = Ok ∅ ∧
  numContacts (Text blank) zero PInf = Ok ∅ ∧
  numContactInfect decimal (Text blank) (Text blank) zero PInf = Ok ∅.
Proof.
  apply (blank_file_scores_nothing decimal sample_linspace sample_empty_x sample_empty_y
           sample_slope blank).
  vm_compute. reflexivity.
Defined.

(** ** Metric 3 at every degree *)

Lemma reach_frontier (f : string → list string) rounds : ∀ start,
  reach f rounds start =
  sum_list ((λ k, length (frontier f k start)) <$> seq 1 rounds).
Proof.
  induction rounds as [|rounds IH]; intros start; [done|].
  cbn [reach seq fmap list_fmap sum_list sum_list_with].
  rewrite IH, <- (fmap_S_seq 1), <- list_fmap_compose. done.
Qed.

Lemma reach_mono (f : string → list string) rounds : ∀ start,
  (reach f rounds start ≤ reach f (S rounds) start)%nat.
Proof.
  induction rounds as [|rounds IH]; intros start; [simpl; lia|].
  specialize (IH (flat_map f start)). cbn [reach] in *. lia.
Qed.

Lemma reach_dead_end (f : string → list string) rounds start :
  flat_map f start = [] → reach f rounds start = 0%nat.
Proof.
  intros Hend. destruct rounds as [|rounds]; [done|].
  cbn [reach]. rewrite Hend. simpl. clear Hend.
  induction rounds as [|rounds IH]; [done|]. done.
Qed.

Lemma score_of_total (d : gmap string nat) x : score_of d x = d !!! x.
Proof. unfold score_of. by rewrite lookup_total_alt. Qed.

Section DegreeFacts.

Variable float : string → option pyfloat.

(** X3.  For every log that reads and every [numDegrees] of 2 or more, the
    indirect count raises nothing (no key is ever missing from [direct]),
    its keys are the sources and the destinations of the counted records,
    and the score of an individual is the sum of the sizes of its frontiers
    from degree 2 to degree [numDegrees]. *)
Theorem indirect_count_degrees f numDegrees lower upper log :
  read_log float f = Ok log →
  (2 ≤ numDegrees)%nat →
  ∃ d, indirectTransmissions float f numDegrees lower upper = Ok d ∧
       ∀ x, d !! x =
              if decide (x ∈ sources lower upper log ∪ destinations lower upper log)
              then Some (sum_list
                           ((λ k, length (frontier (infectees lower upper log) k
                                            (infectees lower upper log x)))
                              <$> seq 1 (numDegrees - 1)))
              else None.
Proof.
  intros Hlog Hdeg.
  destruct (indirectTransmissions_spec float f numDegrees lower upper log Hlog)
    as (d & Hd & Hdom & Hval).
  exists d. split; [done|]. intros x.
  rewrite lookup_dom_total_nat, Hdom, Hval, reach_frontier.
  destruct (numDegrees - 1)%nat eqn:Hn; [lia|done].
Qed.

(** X4.  With [numDegrees] of 1 or 0 the loop over the degrees does not
    run: the indirect count of a log that reads is the empty dictionary,
    whatever the log holds. *)
Theorem indirect_count_no_degree f numDegrees lower upper log :
  read_log float f = Ok log →
  (numDegrees ≤ 1)%nat →
  indirectTransmissions float f numDegrees lower upper = Ok ∅.
Proof.
  intros Hlog Hdeg.
  destruct (indirectTransmissions_spec float f numDegrees lower upper log Hlog)
    as (d & Hd & Hdom & _).
  rewrite Hd. f_equal. apply dom_empty_iff_L.
  replace (numDegrees - 1)%nat with 0%nat in Hdom by lia. done.
Qed.

(** X5.  One more degree never lowers an indirect count: on a log that
    reads, the score of every individual for [numDegrees + 1] is at least
    its score for [numDegrees]. *)
Theorem indirect_count_grows_with_degree f numDegrees lower upper log :
  read_log float f = Ok log →
  ∃ d d',
    indirectTransmissions float f numDegrees lower upper = Ok d ∧
    indirectTransmissions float f (S numDegrees) lower upper = Ok d' ∧
    ∀ x, (score_of d x ≤ score_of d' x)%nat.
Proof.
  intros Hlog.
  destruct (indirectTransmissions_spec float f numDegrees lower upper log Hlog)
    as (d & Hd & _ & Hval).
  destruct (indirectTransmissions_spec float f (S numDegrees) lower upper log
              Hlog) as (d' & Hd' & _ & Hval').
  exists d, d'. split; [done|]. split; [done|]. intros x.
  rewrite !score_of_total, Hval, Hval'.
  destruct numDegrees as [|n]; simpl; [lia|].
  rewrite Nat.sub_0_r. apply reach_mono.
Qed.

(** X6.  An individual none of whose infectees infected anyone within the
    bounds, as one that infected no one, has the indirect count 0 at every
    degree, when it has an entry. *)
Theorem indirect_count_dead_end f numDegrees lower upper log x :
  read_log float f = Ok log →
  flat_map (infectees lower upper log) (infectees lower upper log x) = [] →
  ∃ d, indirectTransmissions float f numDegrees lower upper = Ok d ∧
       score_of d x = 0%nat.
Proof.
  intros Hlog Hend.
  destruct (indirectTransmissions_spec float f numDegrees lower upper log Hlog)
    as (d & Hd & _ & Hval).
  exists d. split; [done|].
  rewrite score_of_total, Hval. by apply reach_dead_end.
Qed.

End DegreeFacts.

Lemma indirect_count_degrees_witness :
  ∃ d, indirectTransmissions decimal chain_log 3 zero PInf = Ok d ∧
       ∀ x, d !! x =
              if decide (x ∈ sources zero PInf chain_records
                             ∪ destinations zero PInf chain_records)
              then Some (sum_list
                           ((λ k, length (frontier (infectees zero PInf chain_records) k
                                            (infectees zero PInf chain_records x)))
                              <$> seq 1 (3 - 1)))
              else None.
Proof.
  apply (indirect_count_degrees decimal chain_log 3 zero PInf chain_records).
  - vm_compute. reflexivity.
  - lia.
Defined.

Lemma indirect_count_no_degree_witness :
  indirectTransmissions decimal chain_log 1 zero PInf = Ok ∅.
Proof.
  apply (indirect_count_no_degree decimal chain_log 1 zero PInf chain_records).
  - vm_compute. reflexivity.
  - lia.
Defined.

Lemma indirect_count_grows_with_degree_witness :
  ∃ d d',
    indirectTransmissions decimal chain_log 2 zero PInf = Ok d ∧
    indirectTransmissions decimal chain_log 3 zero PInf = Ok d' ∧
    ∀ x, (score_of d x ≤ score_of d' x)%nat.
Proof.
  apply (indirect_count_grows_with_degree decimal chain_log 2 zero PInf
           chain_records).
  vm_compute. reflexivity.
Defined.

Lemma indirect_count_dead_end_witness :
  ∃ d, indirectTransmissions decimal chain_log 4 zero PInf = Ok d ∧
       score_of d "B" = 0%nat.
Proof.
  apply (indirect_count_dead_end decimal chain_log 4 zero PInf chain_records).
  - vm_compute. reflexivity.
  - vm_compute. reflexivity.
Defined.

(** ** The dispatcher at the other selectors *)

Lemma selector_in_supported metric ks :
  selector_in metric ks = true →
  ks ⊆ [METRIC1; METRIC2; METRIC3; METRIC4; METRIC5; METRIC6] →
  supported metric = true.
Proof.
  unfold selector_in. rewrite existsb_exists. intros (k & Hk & Heq) Hks.
  apply list_elem_of_In, Hks in Hk. unfold supported.
  unfold selector_eq in *. apply andb_true_iff in Heq as [Hz Hn].
  apply Z.eqb_eq in Hz. rewrite Hn, !andb_true_r.
  repeat (apply elem_of_cons in Hk as [->|Hk];
          [rewrite Hz; by vm_compute|]).
  by apply elem_of_nil in Hk.
Qed.

Lemma selector_in_unsupported metric ks :
  supported metric = false →
  ks ⊆ [METRIC1; METRIC2; METRIC3; METRIC4; METRIC5; METRIC6] →
  selector_in metric ks = false.
Proof.
  intros Hsup Hks. destruct (selector_in metric ks) eqn:Hin; [|done].
  apply selector_in_supported in Hin; [congruence|done].
Qed.

Section DispatchMore.

Variable float : string → option pyfloat.
Variable linspace : pyfloat → pyfloat → nat → list pyfloat.
Variable empty_x empty_y : string → pyfloat.
Variable linregress_slope : list pyfloat → list pyfloat → pyfloat.

(** X7.  A selector for which [pairCounts] has no branch (not 1, 4, 5 or 6
    and its whole part neither 2 nor 3) raises the [ValueError] of "No
    metric ... exists", whether or not the files were given and without
    reading them. *)
Theorem pairCounts_no_such_metric transmissionHist contactNet lo hi metric :
  supported metric = false →
  pairCounts float linspace empty_x empty_y linregress_slope
    transmissionHist contactNet lo hi metric =
  Raise (ValueError (NoSuchMetric metric)).
Proof.
  intros Hsup. unfold pairCounts.
  rewrite !(selector_in_unsupported metric) by (done || set_solver).
  unfold supported in Hsup. simpl.
  repeat (apply orb_false_iff in Hsup as [Hsup ?]).
  by repeat match goal with H : _ = false |- _ => rewrite H; clear H end.
Qed.

(** X8.  With no transmission log and a selector equal to one of 1, 2, 3, 4
    and 6, [pairCounts] raises the [ValueError] that names the transmission
    history, whatever the contact network is: for selector 6 with both files
    missing it is the transmission history that is reported. *)
Theorem pairCounts_reports_transmissionHist contactNet lo hi metric :
  selector_in metric [METRIC1; METRIC2; METRIC3; METRIC4; METRIC6] = true →
  pairCounts float linspace empty_x empty_y linregress_slope
    NotSupplied contactNet lo hi metric =
  Raise (ValueError (MissingTransmissionHist metric)).
Proof. intros Hin. unfold pairCounts. by rewrite Hin. Qed.

(** X9.  With no contact network and selector 5, or selector 6 with a
    transmission log, [pairCounts] raises the [ValueError] that names the
    contact network, and the transmission log is not read: it may be one
    that no metric can read. *)
Theorem pairCounts_reports_contactNet transmissionHist lo hi metric :
  selector_in metric [METRIC5; METRIC6] = true →
  selector_eq metric METRIC6 && not_supplied transmissionHist = false →
  pairCounts float linspace empty_x empty_y linregress_slope
    transmissionHist NotSupplied lo hi metric =
  Raise (ValueError (MissingContactNet metric)).
Proof.
  intros Hin Hsix. unfold pairCounts. rewrite Hin.
  replace (selector_in metric [METRIC1; METRIC2; METRIC3; METRIC4; METRIC6]
           && not_supplied transmissionHist) with false; [done|].
  symmetry. unfold selector_in in *. simpl in *.
  destruct metric as [z n]. unfold selector_eq in *. simpl in *.
  destruct (not_supplied transmissionHist); [|by rewrite andb_false_r].
  rewrite andb_true_r in *.
  destruct (Z.eqb_spec z METRIC5) as [->|?]; [by destruct n|].
  destruct (Z.eqb_spec z METRIC6) as [->|?]; [by destruct n|].
  simpl in Hin. done.
Qed.

(** X10.  For every transmission log that was given, selector 4 returns
    what selector 1 returns: the same scores or the same exception,
    whatever the contact network argument is. *)
Theorem pairCounts_total_is_direct content contactNet lo hi :
  pairCounts float linspace empty_x empty_y linregress_slope
    (Text content) contactNet lo hi (Selector 4 0) =
  pairCounts float linspace empty_x empty_y linregress_slope
    (Text content) contactNet lo hi (Selector 1 0).
Proof.
  unfold pairCounts. simpl.
  rewrite totalTransmissions_read, directTransmissions_read.
  destruct (read_log float (Text content)) as [log|e] eqn:Hlog; simpl; [|done].
  rewrite numInfected_fold_direct; [done|]. by eapply read_log_source.
Qed.

End DispatchMore.

Lemma pairCounts_no_such_metric_witness :
  pairCounts decimal sample_linspace sample_empty_x sample_empty_y sample_slope
    NotSupplied NotSupplied zero PInf (Selector 4 5) =
  Raise (ValueError (NoSuchMetric (Selector 4 5))).
Proof.
  apply (pairCounts_no_such_metric decimal sample_linspace sample_empty_x sample_empty_y
           sample_slope NotSupplied NotSupplied zero PInf (Selector 4 5)).
  vm_compute. reflexivity.
Defined.

Lemma pairCounts_reports_transmissionHist_witness :
  pairCounts decimal sample_linspace sample_empty_x sample_empty_y sample_slope
    NotSupplied NotSupplied zero PInf (Selector 6 0) =
  Raise (ValueError (MissingTransmissionHist (Selector 6 0))).
Proof.
  apply (pairCounts_reports_transmissionHist decimal sample_linspace sample_empty_x sample_empty_y
           sample_slope NotSupplied zero PInf (Selector 6 0)).
  vm_compute. reflexivity.
Defined.

Lemma pairCounts_reports_contactNet_witness :
  pairCounts decimal sample_linspace sample_empty_x sample_empty_y sample_slope
    short_line_log NotSupplied zero PInf (Selector 6 0) =
  Raise (ValueError (MissingContactNet (Selector 6 0))).
Proof.
  apply (pairCounts_reports_contactNet decimal sample_linspace sample_empty_x sample_empty_y
           sample_slope short_line_log zero PInf (Selector 6 0)).
  - vm_compute. reflexivity.
  - vm_compute. reflexivity.
Defined.

(** ** The contact metrics in full *)

Lemma edges_cons c net :
  edges (c :: net) =
    match c with
    | Some c => if decide (node c = "None") then edges net else c :: edges net
    | None => edges net
    end.
Proof.
  unfold edges. destruct c as [c|]; simpl; [|done].
  rewrite filter_cons. by repeat case_decide.
Qed.

Lemma filter_eq_length_elem (x : string) (l : list string) :
  length (filter (λ y, y = x) l) ≠ 0%nat ↔ x ∈ l.
Proof.
  induction l as [|y l IH]; simpl.
  { split; [done|]. by intros ?%elem_of_nil. }
  rewrite filter_cons, elem_of_cons. case_decide as Hy; simpl.
  - subst. split; [auto|lia].
  - rewrite IH. split; [auto|]. intros [->|?]; done.
Qed.

Lemma elem_of_participants_count net x :
  x ∈ participants net ↔ contact_count net x ≠ 0%nat.
Proof.
  unfold participants, contact_count.
  by rewrite elem_of_list_to_set, filter_eq_length_elem.
Qed.

Lemma contact_count_cons c net x :
  contact_count (c :: net) x =
    match c with
    | Some c =>
        if decide (node c = "None") then contact_count net x
        else ((if decide (neighborA c = x) then 1 else 0) +
              (if decide (neighborB c = x) then 1 else 0) +
              contact_count net x)%nat
    | None => contact_count net x
    end.
Proof.
  unfold contact_count. rewrite edges_cons.
  destruct c as [c|]; [|done]. case_decide; [done|]. simpl.
  rewrite !filter_cons. by repeat case_decide.
Qed.

Lemma numContacts_fold_total net : ∀ d x,
  foldl numContacts_next d net !!! x = (d !!! x + contact_count net x)%nat.
Proof.
  induction net as [|c net IH]; intros d x; simpl.
  { unfold contact_count, edges. simpl. lia. }
  rewrite IH, contact_count_cons. destruct c as [[u a b]|]; simpl; [|done].
  case_decide; [done|].
  rewrite !lookup_total_add_to, !lookup_total_setdefault0.
  repeat case_decide; simplify_eq; lia.
Qed.

(** X11.  For every contact network that reads, and whatever the bounds,
    the contact count of an individual is the number of times it stands as
    the second or as the third field of a line that is no header and whose
    first field is not ['None']: a line that names it on both sides counts
    twice, and an individual that is never named has no entry. *)
Theorem contact_count_correct f lower upper net :
  read_contacts f = Ok net →
  ∃ d, numContacts f lower upper = Ok d ∧
       ∀ x, d !! x =
              if decide (contact_count net x = 0)%nat then None
              else Some (contact_count net x).
Proof.
  intros Hnet. rewrite numContacts_read, Hnet, bind_Ok.
  eexists. split; [done|]. intros x.
  rewrite lookup_dom_total_nat, numContacts_fold_dom, numContacts_fold_total.
  rewrite dom_empty_L, lookup_total_empty.
  destruct (decide (contact_count net x = 0)%nat) as [Hz|Hz].
  - rewrite decide_False; [done|].
    rewrite elem_of_union, elem_of_participants_count. set_solver.
  - rewrite decide_True; [done|].
    apply elem_of_union_r. by apply elem_of_participants_count.
Qed.

Lemma contact_count_correct_witness :
  ∃ d, numContacts sample_net zero PInf = Ok d ∧
       ∀ x, d !! x =
              if decide (contact_count sample_contacts x = 0)%nat then None
              else Some (contact_count sample_contacts x).
Proof.
  apply (contact_count_correct sample_net zero PInf sample_contacts).
  vm_compute. reflexivity.
Defined.

Lemma exposure_add_total (numInfected d : gmap string nat) k a x :
  (if decide (is_Some (numInfected !! k))
   then add_to a (numInfected !!! k) d else d) !!! x =
  (d !!! x + (if decide (a = x) then numInfected !!! k else 0))%nat.
Proof.
  case_decide as Hk.
  - rewrite lookup_total_add_to. repeat case_decide; simplify_eq; lia.
  - apply eq_None_not_Some in Hk.
    rewrite (lookup_total_alt numInfected), Hk. simpl.
    case_decide; lia.
Qed.

Lemma exposure_cons count c net x :
  exposure count (c :: net) x =
    match c with
    | Some c =>
        if decide (node c = "None") then exposure count net x
        else (exposure_at count x c + exposure count net x)%nat
    | None => exposure count net x
    end.
Proof.
  unfold exposure. rewrite edges_cons.
  destruct c as [c|]; [|done]. by case_decide.
Qed.

Lemma exposure_ext (f g : string → nat) net x :
  (∀ k, f k = g k) → exposure f net x = exposure g net x.
Proof.
  intros Hfg. unfold exposure. f_equal. apply list_fmap_ext.
  intros _ c _. unfold exposure_at. by rewrite !Hfg.
Qed.

Lemma numContactInfect_fold_total numInfected net : ∀ d x,
  foldl (numContactInfect_next numInfected) d net !!! x =
  (d !!! x + exposure (numInfected !!!.) net x)%nat.
Proof.
  induction net as [|c net IH]; intros d x; simpl.
  { unfold exposure, edges. simpl. lia. }
  rewrite IH, exposure_cons. destruct c as [[u a b]|]; simpl; [|done].
  case_decide; [done|].
  rewrite !exposure_add_total, !lookup_total_setdefault0.
  unfold exposure_at. simpl. lia.
Qed.

Lemma numInfected_fold_total lo hi log k :
  Forall (λ r, source r ≠ "") log →
  foldl (numInfected_next lo hi) ∅ log !!! k = direct_count lo hi log k.
Proof.
  intros Hlog. rewrite numInfected_fold_direct by done.
  rewrite lookup_total_alt, directTransmissions_fold_lookup by done.
  rewrite lookup_empty. by case_decide as Hz; [rewrite Hz|].
Qed.

Section ContactInfectFacts.

Variable float : string → option pyfloat.

(** X12.  For every transmission log and contact network that read, the
    contact-weighted score of a participant is, over the lines of the
    network that are no header and whose first field is not ['None'], the
    sum of the direct counts of the other participant, for each side on
    which it stands; who is no participant has no entry. *)
Theorem contact_infection_correct tf cf lower upper log net :
  read_log float tf = Ok log →
  read_contacts cf = Ok net →
  ∃ d, numContactInfect float tf cf lower upper = Ok d ∧
       ∀ x, d !! x =
              if decide (x ∈ participants net)
              then Some (exposure (direct_count lower upper log) net x)
              else None.
Proof.
  intros Hlog Hnet. rewrite numContactInfect_read, Hlog, Hnet. simpl.
  eexists. split; [done|]. intros x.
  rewrite lookup_dom_total_nat, numContactInfect_fold_dom,
    numContactInfect_fold_total, dom_empty_L, lookup_total_empty, union_empty_l_L.
  case_decide; [|done]. f_equal. simpl. apply exposure_ext. intros k.
  apply numInfected_fold_total. by eapply read_log_source.
Qed.

End ContactInfectFacts.

Lemma contact_infection_correct_witness :
  ∃ d, numContactInfect decimal chain_log sample_net zero PInf = Ok d ∧
       ∀ x, d !! x =
              if decide (x ∈ participants sample_contacts)
              then Some (exposure (direct_count zero PInf chain_records)
                           sample_contacts x)
              else None.
Proof.
  apply (contact_infection_correct decimal chain_log sample_net zero PInf
           chain_records sample_contacts).
  - vm_compute. reflexivity.
  - vm_compute. reflexivity.
Defined.

(** ** Files that read *)

Lemma read_all_Forall_ok {A B : Type} (read : A → result B) (ok : A → Prop) :
  (∀ x, ok x → ∃ y, read x = Ok y) →
  ∀ xs, Forall ok xs → ∃ ys, read_all read xs = Ok ys.
Proof.
  intros Hok xs. induction xs as [|x xs IH]; intros Hxs; simpl; [by eauto|].
  inversion_clear Hxs as [|? ? Hx Hrest].
  destruct (Hok x Hx) as [y ->]. destruct (IH Hrest) as [ys ->]. simpl. eauto.
Qed.

Lemma read_contact_raises line e :
  read_contact line = Raise e →
  ∃ n, n ≠ 5%nat ∧ e = ValueError (UnpackError n).
Proof.
  unfold read_contact, unpack5. case_decide; [done|].
  destruct (split TAB_CHAR line) as [|a [|b [|c [|d [|e' [|? ?]]]]]]; simpl;
    try (intros [= <-]; eexists; split; [|done]; simpl; lia).
  done.
Qed.

Lemma read_contact_malformed line :
  malformed_contact line → ∃ e, read_contact line = Raise e.
Proof.
  unfold malformed_contact, read_contact, unpack5. intros [Hhead Hlen].
  rewrite decide_False by done.
  destruct (split TAB_CHAR line) as [|a [|b [|c [|d [|e' [|? ?]]]]]]; simpl;
    eauto.
  done.
Qed.

Lemma read_contact_well_formed line :
  ¬ malformed_contact line → ∃ c, read_contact line = Ok c.
Proof.
  unfold malformed_contact, read_contact, unpack5. intros Hok.
  case_decide as Hhead; [by eauto|].
  destruct (split TAB_CHAR line) as [|a [|b [|c [|d [|e' [|? ?]]]]]] eqn:Hs;
    simpl; eauto; exfalso; apply Hok; split; try done; simpl; lia.
Qed.

Section WellFormedFacts.

Variable float : string → option pyfloat.

Lemma read_transmission_well_formed line :
  ¬ malformed float line → ∃ r, read_transmission float line = Ok r.
Proof.
  unfold malformed, read_transmission, unpack3, float_of. intros Hok.
  destruct (split TAB_CHAR line) as [|u [|v [|t [|? ?]]]]; simpl;
    try (exfalso; by apply Hok).
  destruct (float t); simpl; [by eauto|]. exfalso. by apply Hok.
Qed.

Lemma read_log_well_formed f lines :
  opengzip f = Ok lines →
  Forall (λ l, ¬ malformed float l) lines →
  ∃ log, read_log float f = Ok log.
Proof.
  intros Hf Hok. unfold read_log. rewrite Hf, bind_Ok.
  by apply (read_all_Forall_ok _ _ read_transmission_well_formed).
Qed.

(** X13.  A contact network in which every line that is no header has
    five tab-separated fields is counted without an exception: a line that
    starts with NODE is passed over whatever its fields are, also between
    edges.  And a line that is no header and has another number of fields
    makes both contact metrics raise the [ValueError] of the unpacking. *)
Theorem contact_network_reads_or_aborts cf lines lower upper :
  opengzip cf = Ok lines →
  (Forall (λ l, ¬ malformed_contact l) lines ∧
   ∃ d, numContacts cf lower upper = Ok d) ∨
  (Exists malformed_contact lines ∧
   ∃ n, n ≠ 5%nat ∧
     numContacts cf lower upper = Raise (ValueError (UnpackError n)) ∧
     ∀ tf log, read_log float tf = Ok log →
       numContactInfect float tf cf lower upper
         = Raise (ValueError (UnpackError n))).
Proof.
  intros Hf.
  destruct (decide (Exists malformed_contact lines)) as [Hex|Hall].
  - right. split; [done|].
    destruct (read_all_Exists_raise read_contact malformed_contact
                (λ e, ∃ n, n ≠ 5%nat ∧ e = ValueError (UnpackError n))
                read_contact_malformed read_contact_raises lines Hex)
      as (e & Hread & n & Hn & ->).
    exists n. split; [done|].
    assert (read_contacts cf = Raise (ValueError (UnpackError n))) as Hnet.
    { unfold read_contacts. by rewrite Hf, bind_Ok. }
    split; [by rewrite numContacts_read, Hnet|].
    intros tf log Hlog. by rewrite numContactInfect_read, Hlog, Hnet.
  - left. apply not_Exists_Forall in Hall; [|intros l; apply _].
    split; [done|].
    destruct (read_all_Forall_ok read_contact _ read_contact_well_formed
                lines Hall) as [net Hnet].
    rewrite numContacts_read. unfold read_contacts.
    rewrite Hf, bind_Ok, Hnet. simpl. eauto.
Qed.

End WellFormedFacts.

Section TotalityFacts.

Variable float : string → option pyfloat.
Variable linspace : pyfloat → pyfloat → nat → list pyfloat.
Variable empty_x empty_y : string → pyfloat.
Variable linregress_slope : list pyfloat → list pyfloat → pyfloat.

(** X14.  A transmission log in which every line has three tab-separated
    fields and a third field that is a number is scored by each of the four
    transmission metrics without an exception, for all bounds, points for
    each step and degrees: no index of [times] and no key of [direct] is
    ever missing. *)
Theorem well_formed_log_is_scored f lines lower upper numPointsPerStep numDegrees :
  opengzip f = Ok lines →
  Forall (λ l, ¬ malformed float l) lines →
  ∃ d1 d2 d3 d4,
    directTransmissions float f lower upper = Ok d1 ∧
    bestfitGraph float linspace empty_x empty_y linregress_slope
      f lower upper numPointsPerStep = Ok d2 ∧
    indirectTransmissions float f numDegrees lower upper = Ok d3 ∧
    totalTransmissions float f lower upper = Ok d4.
Proof.
  intros Hf Hok.
  destruct (read_log_well_formed float f lines Hf Hok) as [log Hlog].
  destruct (directTransmissions_dom float f lower upper log Hlog)
    as (d1 & H1 & _).
  destruct (bestfitGraph_spec float linspace empty_x empty_y linregress_slope
              f lower upper numPointsPerStep log Hlog) as (d2 & H2 & _).
  destruct (indirectTransmissions_spec float f numDegrees lower upper log Hlog)
    as (d3 & H3 & _).
  destruct (totalTransmissions_dom float f lower upper log Hlog)
    as (d4 & H4 & _).
  by exists d1, d2, d3, d4.
Qed.

End TotalityFacts.

Lemma contact_network_reads_or_aborts_witness :
  (Forall (λ l, ¬ malformed_contact l)
     [tsv ["EDGE"; "A"; "B"; "."; "u"]; tsv ["EDGE"; "A"; "B"]] ∧
   ∃ d, numContacts short_line_net zero PInf = Ok d) ∨
  (Exists malformed_contact
     [tsv ["EDGE"; "A"; "B"; "."; "u"]; tsv ["EDGE"; "A"; "B"]] ∧
   ∃ n, n ≠ 5%nat ∧
     numContacts short_line_net zero PInf = Raise (ValueError (UnpackError n)) ∧
     ∀ tf log, read_log decimal tf = Ok log →
       numContactInfect decimal tf short_line_net zero PInf
         = Raise (ValueError (UnpackError n))).
Proof.
  apply (contact_network_reads_or_aborts decimal short_line_net).
  vm_compute. reflexivity.
Defined.

Lemma well_formed_log_is_scored_witness :
  ∃ d1 d2 d3 d4,
    directTransmissions decimal chain_log zero PInf = Ok d1 ∧
    bestfitGraph decimal sample_linspace sample_empty_x sample_empty_y sample_slope
      chain_log zero PInf 3 = Ok d2 ∧
    indirectTransmissions decimal chain_log 3 zero PInf = Ok d3 ∧
    totalTransmissions decimal chain_log zero PInf = Ok d4.
Proof.
  apply (well_formed_log_is_scored decimal sample_linspace sample_empty_x sample_empty_y
           sample_slope chain_log
           [tsv ["A"; "B"; "1"]; tsv ["B"; "C"; "2"]]).
  - vm_compute. reflexivity.
  - repeat constructor; vm_compute; discriminate.
Defined.

(** ** The time window *)

Lemma length_filter_mono {A : Type} (P Q : A → Prop)
    `{∀ x, Decision (P x)} `{∀ x, Decision (Q x)} (l : list A) :
  (∀ x, P x → Q x) → (length (filter P l) ≤ length (filter Q l))%nat.
Proof.
  intros HPQ. induction l as [|x l IH]; [done|].
  rewrite !filter_cons. destruct (decide (P x)) as [HP|HP].
  - rewrite decide_True by auto. simpl. lia.
  - case_decide; simpl; lia.
Qed.

Lemma counted_widen lo hi lo' hi' r :
  fle lo' lo → fle hi hi' → counted lo hi r → counted lo' hi' r.
Proof.
  intros Hlo Hhi [[H1 H2] Hs]. split; [|done].
  destruct (fle_not_nan _ _ Hlo) as [Hlo' Hlo''].
  destruct (fle_not_nan _ _ Hhi) as [Hhi' Hhi''].
  assert (time r = NaN ∨ time r ≠ NaN) as [Ht|Ht] by (destruct (time r); auto).
  { by apply in_bounds_nan. }
  split; apply fle_not_fgt.
  - eapply fle_trans; [done|]. by apply not_fgt_fle.
  - eapply fle_trans; [|done]. by apply not_fgt_fle.
Qed.

Lemma counted_inverted lo hi r :
  fgt lo hi = true → time r ≠ NaN → ¬ counted lo hi r.
Proof.
  intros Hgt Ht [[H1 H2] _]. destruct (fgt_not_nan _ _ Hgt) as [Hlo Hhi].
  apply not_fgt_fle in H1, H2; [|done..].
  pose proof (fle_not_fgt _ _ (fle_trans _ _ _ H1 H2)). congruence.
Qed.

Lemma sources_inverted lo hi log :
  fgt lo hi = true → Forall (λ r, time r ≠ NaN) log → sources lo hi log = ∅.
Proof.
  intros Hgt Hnan. apply set_eq. intros x. rewrite elem_of_sources.
  split; [|by intros ?%not_elem_of_empty].
  intros (r & Hin & Hr & _). apply counted_inverted in Hr; [done..|].
  by eapply Forall_forall in Hnan.
Qed.

Lemma destinations_inverted lo hi log :
  fgt lo hi = true → Forall (λ r, time r ≠ NaN) log →
  destinations lo hi log = ∅.
Proof.
  intros Hgt Hnan. apply set_eq. intros x. rewrite elem_of_destinations.
  split; [|by intros ?%not_elem_of_empty].
  intros (r & Hin & Hr & _). apply counted_inverted in Hr; [done..|].
  by eapply Forall_forall in Hnan.
Qed.

Section WindowFacts.

Variable float : string → option pyfloat.
Variable linspace : pyfloat → pyfloat → nat → list pyfloat.
Variable empty_x empty_y : string → pyfloat.
Variable linregress_slope : list pyfloat → list pyfloat → pyfloat.

(** X15.  A wider time window never lowers a direct count: for a log that
    reads and bounds with [lower' <= lower] and [upper <= upper'], the
    score of every individual within [lower', upper'] is at least its
    score within [lower, upper]. *)
Theorem direct_count_grows_with_window f lower upper lower' upper' log :
  read_log float f = Ok log →
  fle lower' lower →
  fle upper upper' →
  ∃ d d',
    directTransmissions float f lower upper = Ok d ∧
    directTransmissions float f lower' upper' = Ok d' ∧
    ∀ x, (score_of d x ≤ score_of d' x)%nat.
Proof.
  intros Hlog Hlo Hhi. rewrite !directTransmissions_read, Hlog. simpl.
  do 2 eexists. split; [done|]. split; [done|]. intros x.
  pose proof (read_log_source float f log Hlog) as Hsrc.
  rewrite !score_of_total, <- !numInfected_fold_direct, !numInfected_fold_total
    by done.
  apply length_filter_mono. intros r [Hr Hx]. split; [|done].
  by eapply counted_widen.
Qed.

(** X16.  With bounds the wrong way round, [lower > upper], no record
    whose time is a number passes the range test: each of the four
    transmission metrics returns the empty dictionary for a log that reads
    and holds no time that is not-a-number.  (A record with such a time
    passes the test for all bounds.) *)
Theorem inverted_window_scores_nothing f lower upper numPointsPerStep numDegrees log :
  read_log float f = Ok log →
  fgt lower upper = true →
  Forall (λ r, time r ≠ NaN) log →
  directTransmissions float f lower upper = Ok ∅ ∧
  bestfitGraph float linspace empty_x empty_y linregress_slope
    f lower upper numPointsPerStep = Ok ∅ ∧
  indirectTransmissions float f numDegrees lower upper = Ok ∅ ∧
  totalTransmissions float f lower upper = Ok ∅.
Proof.
  intros Hlog Hgt Hnan.
  destruct (directTransmissions_dom float f lower upper log Hlog)
    as (d1 & -> & H1).
  destruct (bestfitGraph_spec float linspace empty_x empty_y linregress_slope
              f lower upper numPointsPerStep log Hlog) as (d2 & -> & H2 & _).
  destruct (indirectTransmissions_spec float f numDegrees lower upper log Hlog)
    as (d3 & -> & H3 & _).
  destruct (totalTransmissions_dom float f lower upper log Hlog)
    as (d4 & -> & H4).
  rewrite sources_inverted in H1, H2, H3, H4 by done.
  rewrite destinations_inverted in H3 by done.
  apply dom_empty_iff_L in H1, H2, H4. subst.
  assert (d3 = ∅) as ->; [|done].
  apply dom_empty_iff_L. destruct (numDegrees - 1)%nat; set_solver.
Qed.

End WindowFacts.

Lemma direct_count_grows_with_window_witness :
  ∃ d d',
    directTransmissions decimal chain_log (Fin 2) (Fin 3) = Ok d ∧
    directTransmissions decimal chain_log zero PInf = Ok d' ∧
    ∀ x, (score_of d x ≤ score_of d' x)%nat.
Proof.
  apply (direct_count_grows_with_window decimal chain_log (Fin 2) (Fin 3)
           zero PInf chain_records).
  - vm_compute. reflexivity.
  - vm_compute. exact I.
  - vm_compute. exact I.
Defined.

Lemma inverted_window_scores_nothing_witness :
  directTransmissions decimal chain_log (Fin 3) zero = Ok ∅ ∧
  bestfitGraph decimal sample_linspace sample_empty_x sample_empty_y sample_slope
    chain_log (Fin 3) zero 3 = Ok ∅ ∧
  indirectTransmissions decimal chain_log 3 (Fin 3) zero = Ok ∅ ∧
  totalTransmissions decimal chain_log (Fin 3) zero = Ok ∅.
Proof.
  apply (inverted_window_scores_nothing decimal sample_linspace sample_empty_x sample_empty_y
           sample_slope chain_log (Fin 3) zero 3 3 chain_records).
  - vm_compute. reflexivity.
  - vm_compute. reflexivity.
  - repeat constructor; simpl; discriminate.
Defined.

(** ** The sum of the scores *)

Lemma total_score_insert (d : gmap string nat) k v :
  (total_score (<[k := v]> d) + score_of d k = v + total_score d)%nat.
Proof.
  assert (∀ (m : gmap string nat) w, m !! k = None →
            total_score (<[k := w]> m) = (w + total_score m)%nat) as Hfresh.
  { intros m w Hm. unfold total_score.
    rewrite map_fold_insert_L; [done| |done]. intros. lia. }
  unfold score_of. destruct (d !! k) as [v0|] eqn:Hk; simpl.
  - rewrite <- (insert_delete_id d k v0) at 2 by done.
    rewrite <- insert_delete_eq.
    rewrite !Hfresh by apply lookup_delete_eq. lia.
  - rewrite Hfresh by done. lia.
Qed.

Lemma total_score_setdefault0 k d : total_score (setdefault0 k d) = total_score d.
Proof.
  unfold setdefault0. case_decide as Hk; [done|].
  apply eq_None_not_Some in Hk.
  pose proof (total_score_insert d k 0) as H. unfold score_of in H.
  rewrite Hk in H. simpl in H. lia.
Qed.

Lemma total_score_add_to k n d :
  is_Some (d !! k) → total_score (add_to k n d) = (total_score d + n)%nat.
Proof.
  intros [v Hk]. unfold add_to.
  pose proof (total_score_insert d k (d !!! k + n)) as H.
  unfold score_of in H. rewrite lookup_total_alt, Hk in *. simpl in *. lia.
Qed.

Lemma is_Some_setdefault0 k d : is_Some (setdefault0 k d !! k).
Proof. rewrite lookup_setdefault0, decide_True by done. eauto. Qed.

Lemma directTransmissions_fold_sum lo hi log : ∀ d,
  Forall (λ r, source r ≠ "") log →
  total_score (foldl (directTransmissions_next lo hi) d log) =
  (total_score d + length (filter (counted lo hi) log))%nat.
Proof.
  induction log as [|r log IH]; intros d Hlog; simpl; [lia|].
  inversion_clear Hlog as [|? ? Hr Hrest]. rewrite IH by done.
  rewrite filter_cons. unfold directTransmissions_next, counted.
  destruct (fgt lo (time r) || fgt (time r) hi) eqn:Hb.
  { apply out_of_bounds_not in Hb. rewrite decide_False; [done|tauto]. }
  apply out_of_bounds_iff in Hb.
  destruct (decide (source r = "" ∨ source r = "None")) as [[?|?]|Hs].
  - done.
  - rewrite decide_False; [done|tauto].
  - rewrite decide_True by tauto.
    rewrite total_score_add_to, total_score_setdefault0
      by apply is_Some_setdefault0.
    simpl. lia.
Qed.

Lemma numContacts_fold_sum net : ∀ d,
  total_score (foldl numContacts_next d net) =
  (total_score d + 2 * length (edges net))%nat.
Proof.
  induction net as [|c net IH]; intros d; simpl.
  { unfold edges. simpl. lia. }
  rewrite IH, edges_cons. destruct c as [[u a b]|]; simpl; [|done].
  case_decide; [done|].
  rewrite !total_score_add_to, !total_score_setdefault0.
  - simpl. lia.
  - rewrite lookup_setdefault0. case_decide; [by eauto|].
    apply is_Some_setdefault0.
  - rewrite lookup_add_to. case_decide; [by eauto|].
    apply is_Some_setdefault0.
Qed.

Section SumFacts.

Variable float : string → option pyfloat.

(** X17.  The direct counts of a log that reads add up to the number of
    its records that are within the bounds and whose source is not
    ['None']: every such record is counted for one individual, once. *)
Theorem direct_counts_add_up f lower upper log :
  read_log float f = Ok log →
  ∃ d, directTransmissions float f lower upper = Ok d ∧
       total_score d = length (filter (counted lower upper) log).
Proof.
  intros Hlog. rewrite directTransmissions_read, Hlog. simpl.
  eexists. split; [done|].
  rewrite directTransmissions_fold_sum by by eapply read_log_source.
  unfold total_score at 1. by rewrite map_fold_empty.
Qed.

End SumFacts.

(** X18.  The contact counts of a network that reads add up to twice the
    number of its lines that are no header and whose first field is not
    ['None']: every such line counts once for each of its two sides. *)
Theorem contact_counts_add_up f lower upper net :
  read_contacts f = Ok net →
  ∃ d, numContacts f lower upper = Ok d ∧
       total_score d = (2 * length (edges net))%nat.
Proof.
  intros Hnet. rewrite numContacts_read, Hnet. simpl.
  eexists. split; [done|]. rewrite numContacts_fold_sum.
  unfold total_score at 1. by rewrite map_fold_empty.
Qed.

Lemma direct_counts_add_up_witness :
  ∃ d, directTransmissions decimal unknown_source_log zero PInf = Ok d ∧
       total_score d =
         length (filter (counted zero PInf)
                   [Transmission "A" "B" (Fin 1); Transmission "None" "C" (Fin 5)]).
Proof.
  apply (direct_counts_add_up decimal unknown_source_log zero PInf).
  vm_compute. reflexivity.
Defined.

Lemma contact_counts_add_up_witness :
  ∃ d, numContacts sample_net zero PInf = Ok d ∧
       total_score d = (2 * length (edges sample_contacts))%nat.
Proof.
  apply (contact_counts_add_up sample_net zero PInf sample_contacts).
  vm_compute. reflexivity.
Defined.

(** ** The steps of a transmitter *)

Lemma later_steps_columns i t times latest :
  (λ s : step, s.1.1) <$> later_steps i t times latest = t :: times ∧
  (λ s : step, s.1.2) <$> later_steps i t times latest = times ++ [latest] ∧
  (λ s : step, s.2) <$> later_steps i t times latest
    = seq (S i) (S (length times)).
Proof.
  revert i t. induction times as [|t' times IH]; intros i t; [done|].
  destruct (IH (S i) t') as (H1 & H2 & H3).
  cbn [later_steps fmap list_fmap length seq app]. cbn [fmap] in H1, H2, H3.
  rewrite H1, H2, H3. done.
Qed.

(** X19.  The steps that the trend-slope metric samples for a transmitter
    with at least one time start at the lower bound and at each of its
    times, in the order of the log, stop at each of its times and at the
    latest time, and have the levels 0, 1, ... up to the number of its
    times: one step more than times, each starting where the one before
    stops, so that one time alone gives two steps. *)
Theorem trend_steps_chain lowerBound times latest :
  times ≠ [] →
  ∃ steps,
    bestfitGraph_steps lowerBound times latest = Ok steps ∧
    (λ s : step, s.1.1) <$> steps = lowerBound :: times ∧
    (λ s : step, s.1.2) <$> steps = times ++ [latest] ∧
    (λ s : step, s.2) <$> steps = seq 0 (S (length times)).
Proof.
  intros Hne. rewrite bestfitGraph_steps_segments by done.
  eexists. split; [done|]. destruct times as [|t times]; [done|].
  destruct (later_steps_columns 0 t times latest) as (H1 & H2 & H3).
  unfold segments. cbn [fmap list_fmap length seq app].
  cbn [fmap] in H1, H2, H3. rewrite H1, H2, H3. done.
Qed.

Lemma trend_steps_chain_witness :
  ∃ steps,
    bestfitGraph_steps zero [Fin 3; Fin 1] (Fin 5) = Ok steps ∧
    (λ s : step, s.1.1) <$> steps = zero :: [Fin 3; Fin 1] ∧
    (λ s : step, s.1.2) <$> steps = [Fin 3; Fin 1] ++ [Fin 5] ∧
    (λ s : step, s.2) <$> steps = seq 0 (S (length [Fin 3; Fin 1])).
Proof.
  apply (trend_steps_chain zero [Fin 3; Fin 1] (Fin 5)). discriminate.
Defined.

(** ** Stripped texts *)

Lemma lstrip_fixed s : no_leading_space s → lstrip s = s.
Proof. destruct s as [|c s]; simpl; [done|]. by intros ->. Qed.

Lemma rstrip_rstrip s : rstrip (rstrip s) = rstrip s.
Proof.
  induction s as [|c s IH]; [done|]. cbn [rstrip].
  destruct (rstrip s) as [|c' r] eqn:Hr.
  - destruct (is_space c) eqn:Hc; [done|]. simpl. by rewrite Hc.
  - cbn [rstrip]. cbn [rstrip] in IH. by rewrite IH.
Qed.

Lemma rstrip_no_leading_space s :
  no_leading_space s → no_leading_space (rstrip s).
Proof.
  destruct s as [|c s]; [done|]. simpl. intros Hc. rewrite Hc.
  by destruct (rstrip s).
Qed.

Lemma strip_strip s : strip (strip s) = strip s.
Proof.
  unfold strip at 1. rewrite lstrip_fixed by apply strip_no_leading_space.
  unfold strip. apply rstrip_rstrip.
Qed.

Lemma all_chars_lstrip ok s : all_chars ok s → all_chars ok (lstrip s).
Proof.
  induction s as [|c s IH]; [done|]. simpl.
  intros [Hc Hs]%andb_prop_elim. destruct (is_space c); [auto|].
  simpl. apply andb_prop_intro. done.
Qed.

Lemma all_chars_rstrip ok s : all_chars ok s → all_chars ok (rstrip s).
Proof.
  induction s as [|c s IH]; [done|]. cbn [rstrip all_chars].
  intros [Hc Hs]%andb_prop_elim. specialize (IH Hs).
  destruct (rstrip s) as [|c' r].
  - destruct (is_space c); [done|]. simpl. apply andb_prop_intro. done.
  - cbn [all_chars]. apply andb_prop_intro. done.
Qed.

Lemma all_chars_strip ok s : all_chars ok s → all_chars ok (strip s).
Proof. intros Hs. by apply all_chars_rstrip, all_chars_lstrip. Qed.

Lemma all_chars_app ok s t :
  all_chars ok (s +:+ t) ↔ all_chars ok s ∧ all_chars ok t.
Proof.
  induction s as [|c s IH]; simpl; [tauto|].
  rewrite !andb_True, IH. tauto.
Qed.

Lemma splitlines_from_no_break_upto n : ∀ s cur,
  (String.length s ≤ n)%nat →
  all_chars (λ c, negb (is_linebreak c)) cur →
  Forall (λ l, all_chars (λ c, negb (is_linebreak c)) l) (splitlines_from cur s).
Proof.
  induction n as [|n IH]; intros s cur Hlen Hcur.
  { destruct s; [|simpl in Hlen; lia]. simpl. case_decide; by repeat constructor. }
  destruct s as [|c s]; simpl.
  { case_decide; by repeat constructor. }
  simpl in Hlen. destruct (is_linebreak c) eqn:Hc.
  - constructor; [done|]. destruct s as [|c' s']; [constructor|].
    simpl in Hlen.
    destruct (Ascii.eqb c CR && Ascii.eqb c' LF); apply IH; simpl; done || lia.
  - apply IH; [lia|]. apply all_chars_app. split; [done|]. simpl. by rewrite Hc.
Qed.

Lemma splitlines_no_break s :
  Forall (λ l, all_chars (λ c, negb (is_linebreak c)) l) (splitlines s).
Proof. by apply (splitlines_from_no_break_upto (String.length s)). Qed.

(** X20.  Every line that [opengzip] returns is stripped and single:
    stripping it again changes nothing, and it holds no line boundary. *)
Theorem opengzip_lines_stripped f lines :
  opengzip f = Ok lines →
  Forall (λ l, strip l = l ∧ all_chars (λ c, negb (is_linebreak c)) l) lines.
Proof.
  destruct f as [|content]; simpl; [done|]. intros [= <-].
  apply Forall_fmap.
  eapply Forall_impl; [apply splitlines_no_break|].
  intros l Hl. simpl. split; [apply strip_strip|by apply all_chars_strip].
Qed.

Lemma opengzip_lines_stripped_witness :
  Forall (λ l, strip l = l ∧ all_chars (λ c, negb (is_linebreak c)) l)
    [tsv ["A"; "B"; "1"]; tsv ["B"; "C"; "2"]].
Proof.
  apply (opengzip_lines_stripped chain_log). vm_compute. reflexivity.
Defined.

(** ** Texts of lines *)

Lemma append_nil_l s : "" +:+ s = s.
Proof. done. Qed.

Lemma append_cons c s t : String c s +:+ t = String c (s +:+ t).
Proof. done. Qed.

Lemma append_nil_r s : s +:+ "" = s.
Proof. induction s as [|c s IH]; [done|]. by rewrite append_cons, IH. Qed.

Lemma append_assoc s t u : (s +:+ t) +:+ u = s +:+ (t +:+ u).
Proof. induction s as [|c s IH]; [done|]. by rewrite !append_cons, IH. Qed.

Lemma append_not_nil s t : s ≠ "" → s +:+ t ≠ "".
Proof. by destruct s. Qed.

Lemma rstrip_app_blank s t : rstrip t = "" → rstrip (s +:+ t) = rstrip s.
Proof.
  intros Ht. induction s as [|c s IH]; [done|].
  rewrite append_cons. cbn [rstrip]. by rewrite IH.
Qed.

Lemma rstrip_app_kept s t :
  rstrip t ≠ "" → rstrip (s +:+ t) = s +:+ rstrip t.
Proof.
  intros Ht. induction s as [|c s IH]; [done|].
  rewrite !append_cons. cbn [rstrip]. rewrite IH.
  destruct (s +:+ rstrip t) as [|c' r] eqn:Hs; [|done].
  destruct s; [by rewrite append_nil_l in Hs|done].
Qed.

Lemma rstrip_cons_kept c t :
  rstrip t ≠ "" → rstrip (String c t) = String c (rstrip t).
Proof. intros Ht. cbn [rstrip]. by destruct (rstrip t). Qed.

Lemma all_chars_impl (ok ok' : ascii → bool) s :
  (∀ c, ok c = true → ok' c = true) → all_chars ok s → all_chars ok' s.
Proof.
  intros Hok. induction s as [|c s IH]; [done|]. simpl.
  intros [Hc Hs]%andb_prop_elim. apply andb_prop_intro.
  split; [apply Is_true_true, Hok; by apply Is_true_true|auto].
Qed.

Lemma linebreak_is_space c : is_linebreak c = true → is_space c = true.
Proof.
  unfold is_linebreak, is_space.
  repeat match goal with
         | |- context [(?a <=? ?b)%nat] => destruct (Nat.leb_spec a b)
         end; simpl; try done; lia.
Qed.

Lemma no_space_no_break s :
  all_chars (λ c, negb (is_space c)) s →
  all_chars (λ c, negb (is_linebreak c)) s.
Proof.
  apply all_chars_impl. intros c Hc.
  destruct (is_linebreak c) eqn:Hb; [|done].
  apply linebreak_is_space in Hb. by rewrite Hb in Hc.
Qed.

Lemma no_space_no_tab s :
  all_chars (λ c, negb (is_space c)) s →
  all_chars (λ c, negb (Ascii.eqb c TAB_CHAR)) s.
Proof.
  apply all_chars_impl. intros c Hc.
  destruct (Ascii.eqb_spec c TAB_CHAR) as [->|]; done.
Qed.

Lemma no_space_rstrip s : all_chars (λ c, negb (is_space c)) s → rstrip s = s.
Proof.
  induction s as [|c s IH]; [done|]. simpl.
  intros [Hc Hs]%andb_prop_elim. rewrite IH by done.
  destruct (is_space c); [done|]. by destruct s.
Qed.

Lemma no_space_no_leading s :
  all_chars (λ c, negb (is_space c)) s → no_leading_space s.
Proof.
  destruct s as [|c s]; [done|]. simpl.
  intros [Hc _]%andb_prop_elim. by destruct (is_space c).
Qed.

Lemma no_leading_space_app s t :
  s ≠ "" → no_leading_space s → no_leading_space (s +:+ t).
Proof. by destruct s. Qed.

Lemma sep_lines_not_nil l ls : l ≠ "" → sep_lines l ls ≠ "".
Proof. destruct ls; [done|]. simpl. apply append_not_nil. Qed.

Lemma rstrip_lines_text ls : ∀ l,
  Forall kept_line (l :: ls) →
  rstrip (lines_text (l :: ls)) = sep_lines l ls.
Proof.
  induction ls as [|l' ls IH]; intros l Hls.
  - inversion_clear Hls as [|? ? (Hne & _ & Hr & _) _]. simpl.
    by rewrite rstrip_app_blank.
  - inversion_clear Hls as [|? ? (Hne & _ & Hr & _) Hrest].
    specialize (IH l' Hrest).
    assert (sep_lines l' ls ≠ "") as Hsep.
    { apply sep_lines_not_nil. by inversion_clear Hrest as [|? ? (? & _) _]. }
    cbn [lines_text sep_lines] in *.
    assert (rstrip (String LF (l' +:+ String LF (lines_text ls)))
            = String LF (sep_lines l' ls)) as Hfeed.
    { rewrite rstrip_cons_kept; rewrite IH; done. }
    rewrite rstrip_app_kept; rewrite Hfeed; done.
Qed.

Lemma strip_lines_text l ls :
  Forall kept_line (l :: ls) →
  strip (lines_text (l :: ls)) = sep_lines l ls.
Proof.
  intros Hls. unfold strip. rewrite lstrip_fixed; [by apply rstrip_lines_text|].
  inversion_clear Hls as [|? ? (Hne & Hlead & _) _].
  by apply no_leading_space_app.
Qed.

Lemma splitlines_from_app l : ∀ cur rest,
  all_chars (λ c, negb (is_linebreak c)) l →
  splitlines_from cur (l +:+ rest) = splitlines_from (cur +:+ l) rest.
Proof.
  induction l as [|c l IH]; intros cur rest Hl.
  { by rewrite append_nil_l, append_nil_r. }
  simpl in Hl. apply andb_prop_elim in Hl as [Hc Hl].
  rewrite append_cons. cbn [splitlines_from].
  destruct (is_linebreak c); [done|].
  rewrite IH by done. by rewrite append_assoc.
Qed.

Lemma splitlines_from_feed cur rest :
  rest ≠ "" →
  splitlines_from cur (String LF rest) = cur :: splitlines_from "" rest.
Proof. intros Hrest. by destruct rest. Qed.

Lemma splitlines_sep_lines ls : ∀ l,
  Forall kept_line (l :: ls) → splitlines (sep_lines l ls) = l :: ls.
Proof.
  unfold splitlines.
  induction ls as [|l' ls IH]; intros l Hls;
    inversion_clear Hls as [|? ? (Hne & _ & _ & Hb) Hrest].
  - simpl. rewrite <- (append_nil_r l) at 1.
    rewrite splitlines_from_app, append_nil_l by done.
    simpl. by rewrite decide_False.
  - cbn [sep_lines].
    rewrite splitlines_from_app, append_nil_l by done.
    rewrite splitlines_from_feed.
    + by rewrite IH.
    + apply sep_lines_not_nil. by inversion_clear Hrest as [|? ? (? & _) _].
Qed.

(** The stripped lines of a text of kept lines are those lines. *)
Lemma stripped_lines_of_text ls :
  Forall kept_line ls →
  strip <$> splitlines (strip (lines_text ls)) = ls.
Proof.
  intros Hls. destruct ls as [|l ls]; [done|].
  rewrite strip_lines_text, splitlines_sep_lines by done.
  clear -Hls. induction Hls as [|l' ls' (Hne & Hlead & Hr & _) _ IH]; [done|].
  cbn [fmap list_fmap]. cbn [fmap] in IH. rewrite IH. f_equal.
  unfold strip. by rewrite lstrip_fixed.
Qed.

Lemma split_no_sep sep s :
  all_chars (λ c, negb (Ascii.eqb c sep)) s → split sep s = [s].
Proof.
  induction s as [|c s IH]; [done|]. simpl.
  intros [Hc Hs]%andb_prop_elim. destruct (Ascii.eqb c sep); [done|].
  by rewrite IH.
Qed.

Lemma split_app_sep sep s rest :
  all_chars (λ c, negb (Ascii.eqb c sep)) s →
  split sep (s +:+ String sep rest) = s :: split sep rest.
Proof.
  induction s as [|c s IH].
  { intros _. rewrite append_nil_l. simpl. by rewrite Ascii.eqb_refl. }
  cbn [all_chars]. intros [Hc Hs]%andb_prop_elim.
  change (String c s +:+ String sep rest) with (String c (s +:+ String sep rest)).
  cbn [split]. destruct (Ascii.eqb c sep); [done|]. by rewrite IH.
Qed.

(** X21.  A text of lines that are not empty, stripped and without a line
    boundary, each closed by a line feed, is read back by [opengzip] as
    those lines, in their order. *)
Theorem opengzip_reads_lines_back ls :
  Forall kept_line ls →
  opengzip (Text (lines_text ls)) = Ok ls.
Proof. intros Hls. unfold opengzip. by rewrite stripped_lines_of_text. Qed.

Lemma opengzip_reads_lines_back_witness :
  opengzip (Text (lines_text [tsv ["A"; "B"; "1"]; tsv ["B"; "C"; "2"]]))
  = Ok [tsv ["A"; "B"; "1"]; tsv ["B"; "C"; "2"]].
Proof.
  apply (opengzip_reads_lines_back [tsv ["A"; "B"; "1"]; tsv ["B"; "C"; "2"]]).
  repeat constructor; by vm_compute.
Defined.

(** ** The listing read by the script of compute_taub.py *)

Lemma efficacy_rows_lines_text ls :
  Forall kept_line ls →
  efficacy_rows (lines_text ls) =
  (λ l, strip <$> split TAB_CHAR (strip l)) <$> ls.
Proof.
  intros Hls. unfold efficacy_rows. destruct ls as [|l ls]; [done|].
  by rewrite strip_lines_text, splitlines_sep_lines.
Qed.

Lemma lines_text_listing (lines : list string) :
  contents ((λ l, l +:+ NL) <$> lines) = lines_text lines.
Proof.
  induction lines as [|l lines IH]; [done|].
  rewrite fmap_cons. unfold contents in *. cbn [foldr lines_text].
  rewrite IH. by rewrite append_assoc.
Qed.

Lemma one_field_no_tab s :
  one_field s → all_chars (λ c, negb (Ascii.eqb c TAB_CHAR)) s.
Proof.
  apply all_chars_impl. intros c Hc. by apply andb_true_iff in Hc as [? _].
Qed.

Lemma one_field_no_break s :
  one_field s → all_chars (λ c, negb (is_linebreak c)) s.
Proof.
  apply all_chars_impl. intros c Hc. by apply andb_true_iff in Hc as [_ ?].
Qed.

Lemma listing_line_kept line text :
  strip line ≠ "" →
  one_field (strip line) →
  plain text →
  kept_line (listing_line (strip line) text).
Proof.
  intros Hne Hfield [Hsc Hplain]. unfold listing_line.
  assert (rstrip text = text) as Hr by by apply no_space_rstrip.
  split; [by apply append_not_nil|].
  split; [apply no_leading_space_app, strip_no_leading_space; done|].
  split.
  - rewrite rstrip_app_kept; rewrite rstrip_cons_kept; rewrite Hr; done.
  - apply all_chars_app. split; [by apply one_field_no_break|].
    cbn [all_chars]. apply andb_prop_intro. split; [done|].
    by apply no_space_no_break.
Qed.

Lemma listing_line_row line text :
  strip line ≠ "" →
  one_field (strip line) →
  plain text →
  strip <$> split TAB_CHAR (strip (listing_line (strip line) text))
  = [strip line; text].
Proof.
  intros Hne Hfield Hplain.
  destruct (listing_line_kept line text Hne Hfield Hplain)
    as (_ & Hlead & Hr & _).
  assert (strip (listing_line (strip line) text)
          = listing_line (strip line) text) as ->.
  { unfold strip at 1. by rewrite lstrip_fixed, Hr. }
  destruct Hplain as [Hsc Hplain]. unfold listing_line.
  rewrite split_app_sep by by apply one_field_no_tab.
  rewrite split_no_sep by by apply no_space_no_tab.
  cbn [fmap list_fmap]. rewrite strip_strip. do 2 f_equal.
  unfold strip. rewrite lstrip_fixed by by apply no_space_no_leading.
  by apply no_space_rstrip.
Qed.

Lemma written_line_listing line text :
  strip line +:+ TAB +:+ text +:+ NL = listing_line (strip line) text +:+ NL.
Proof. unfold listing_line. by rewrite append_assoc. Qed.

Section ListingFacts.

Context {V : Type}.
Variable format_d : V → result string.
Variable format_f : V → string.
Variable float : string → option pyfloat.
Context {num : Type}.
Variable kendalltau : list nat → list pyfloat → result (num * num).
Variable str : num → string.

(** What the matcher writes when every identifier is a field of its own
    and every score is printed as a plain text that [float] reads: lines
    that the script reads back. *)
Lemma matchInfectorCounts_listing (d : gmap string V) metric order values :
  Forall2 (λ line x,
             strip line ≠ "" ∧ one_field (strip line) ∧
             ∃ text, score_text format_d format_f d metric line = Ok text ∧
                     plain text ∧ float text = Some x)
    order values →
  ∃ lines,
    (∀ outfile,
       matchInfectorCounts format_d format_f d order outfile metric =
       (outfile ++ ((λ l, l +:+ NL) <$> lines), None)) ∧
    Forall kept_line lines ∧
    ∀ i, efficacy_values float i
           ((λ l, strip <$> split TAB_CHAR (strip l)) <$> lines) = inr values.
Proof.
  induction 1 as [|line x order values
                    (Hne & Hfield & text & Htext & Hplain & Hx) _ IH].
  { exists []. split; [|split; [constructor|done]].
    intros outfile. simpl. by rewrite app_nil_r. }
  destruct IH as (lines & Hrun & Hkept & Hvalues).
  exists (listing_line (strip line) text :: lines). split; [|split].
  - intros outfile. cbn [matchInfectorCounts].
    rewrite (matchInfectorCounts_line_text _ _ _ _ _ _ _ Htext), Hrun.
    rewrite written_line_listing, fmap_cons. by rewrite <- app_assoc.
  - constructor; [by apply listing_line_kept|done].
  - intros i. cbn [fmap list_fmap efficacy_values].
    rewrite listing_line_row by done. rewrite decide_False by (simpl; lia).
    change ([strip line; text] !!! 1%nat) with text.
    unfold float_of. rewrite Hx. cbn [fmap] in Hvalues. by rewrite Hvalues.
Qed.

(** X22.  The listing that [matchInfectorCounts] writes is an efficacy file
    for the script of compute_taub.py: when the identifiers of the ordering
    are not empty and hold no tab and no line boundary, and the scores are
    printed without white space as texts that [float] reads, the matcher
    raises nothing, and the script finds two columns in every row of what
    it wrote, reads the scores back in the order of the ordering, and goes
    on to [calculateTauB] with them. *)
Theorem listing_is_efficacy_file (d : gmap string V) metric order values
    outfile reverse :
  Forall2 (λ line x,
             strip line ≠ "" ∧ one_field (strip line) ∧
             ∃ text, score_text format_d format_f d metric line = Ok text ∧
                     plain text ∧ float text = Some x)
    order values →
  ∃ listing,
    matchInfectorCounts format_d format_f d order [] metric = (listing, None) ∧
    length listing = length order ∧
    efficacy_values float 0 (efficacy_rows (contents listing)) = inr values ∧
    compute_taub float kendalltau str (contents listing) outfile reverse =
    match calculateTauB kendalltau str values outfile reverse with
    | Ok outfile => inr outfile
    | Raise e => inl (Uncaught e)
    end.
Proof.
  intros Hall.
  pose proof (Forall2_length _ _ _ Hall) as Hlen.
  destruct (matchInfectorCounts_listing d metric order values Hall)
    as (lines & Hrun & Hkept & Hvalues).
  exists ((λ l, l +:+ NL) <$> lines). split; [by rewrite Hrun|].
  assert (efficacy_values float 0
            (efficacy_rows (contents ((λ l, l +:+ NL) <$> lines)))
          = inr values) as Hread.
  { by rewrite lines_text_listing, efficacy_rows_lines_text. }
  split; [|split; [done|]].
  - rewrite length_fmap.
    assert (length ((λ l, strip <$> split TAB_CHAR (strip l)) <$> lines)
            = length values) as Hrows.
    { specialize (Hvalues 0%nat). clear -Hvalues.
      revert values Hvalues. generalize 0%nat.
      induction lines as [|l lines IH]; intros i values Hv.
      - by injection Hv as <-.
      - cbn [fmap list_fmap efficacy_values] in Hv.
        case_decide; [done|].
        destruct (float_of _ _); [|done].
        cbn [fmap] in IH.
        destruct (efficacy_values float (S i) _) as [|xs] eqn:Hxs; [done|].
        injection Hv as <-. cbn [length fmap list_fmap].
        f_equal. by eapply IH. }
    rewrite length_fmap in Hrows. lia.
  - unfold compute_taub. by rewrite Hread.
Qed.

End ListingFacts.

Lemma listing_is_efficacy_file_witness :
  ∃ listing,
    matchInfectorCounts percent_d (λ _, "") {["A" := Count 12]}
      [" A "; "B b"] [] (Selector 1 0) = (listing, None) ∧
    length listing = length [" A "; "B b"] ∧
    efficacy_values decimal 0 (efficacy_rows (contents listing))
    = inr [nat_float 12; zero] ∧
    compute_taub decimal kendalltau_of_nothing id (contents listing) [] false =
    match calculateTauB kendalltau_of_nothing id [nat_float 12; zero] [] false
    with
    | Ok outfile => inr outfile
    | Raise e => inl (Uncaught e)
    end.
Proof.
  apply (listing_is_efficacy_file percent_d (λ _, "") decimal
           kendalltau_of_nothing id {["A" := Count 12]} (Selector 1 0)
           [" A "; "B b"] [nat_float 12; zero] [] false).
  repeat constructor; try (by vm_compute).
  - eexists. split; [by vm_compute|]. repeat split; by vm_compute.
  - eexists. split; [by vm_compute|]. repeat split; by vm_compute.
Defined.

(** ** The script of compute_taub.py on other inputs *)

Section ScriptFacts.

Variable float : string → option pyfloat.
Context {num : Type}.
Variable kendalltau : list nat → list pyfloat → result (num * num).
Variable str : num → string.

Lemma efficacy_values_stops good bad rest : ∀ i,
  Forall (λ row, length row = 2%nat ∧ is_Some (float (row !!! 1%nat))) good →
  length bad ≠ 2%nat ∨ float (bad !!! 1%nat) = None →
  efficacy_values float i (good ++ bad :: rest) =
  inl (if decide (length bad ≠ 2%nat) then NotTwoColumns (i + length good)
       else Uncaught (ValueError (FloatSyntax (bad !!! 1%nat)))).
Proof.
  intros i Hgood Hbad. revert i.
  induction Hgood as [|row good [Hlen [x Hx]] _ IH]; intros i.
  - cbn [app efficacy_values length]. rewrite Nat.add_0_r.
    case_decide as Hl; [done|]. destruct Hbad as [?|Hf]; [done|].
    unfold float_of. by rewrite Hf.
  - cbn [app efficacy_values length]. rewrite decide_False by lia.
    unfold float_of. rewrite Hx, IH.
    replace (S i + length good)%nat with (i + S (length good))%nat by lia.
    done.
Qed.

(** X23.  The script of compute_taub.py stops at the first row that it
    cannot take, before [calculateTauB] is entered and whatever the rows
    after it are: with its own [ValueError] when that row has not two
    columns, and with the [ValueError] of [float] when the second column
    of that row is no number. *)
Theorem script_stops_at_first_bad_row input outfile reverse good bad rest :
  efficacy_rows input = good ++ bad :: rest →
  Forall (λ row, length row = 2%nat ∧ is_Some (float (row !!! 1%nat))) good →
  length bad ≠ 2%nat ∨ float (bad !!! 1%nat) = None →
  compute_taub float kendalltau str input outfile reverse =
  inl (if decide (length bad ≠ 2%nat) then NotTwoColumns (length good)
       else Uncaught (ValueError (FloatSyntax (bad !!! 1%nat)))).
Proof.
  intros Hrows Hgood Hbad. unfold compute_taub.
  by rewrite Hrows, (efficacy_values_stops good bad rest 0 Hgood Hbad).
Qed.

(** X24.  On an input that is blank the script has no row to reject: it
    calls [kendalltau] on two empty sequences, and ends with the line of
    what that call returns, or with what it raises. *)
Theorem script_on_blank_input input outfile reverse :
  strip input = "" →
  compute_taub float kendalltau str input outfile reverse =
  match kendalltau [] [] with
  | Ok (tau, pvalue) =>
      inr (outfile ++ [str tau +:+ TAB +:+ str pvalue +:+ NL])
  | Raise e => inl (Uncaught e)
  end.
Proof.
  intros Hblank. unfold compute_taub, efficacy_rows. rewrite Hblank.
  cbn [splitlines splitlines_from fmap list_fmap efficacy_values].
  rewrite decide_True by done. cbn [fmap list_fmap efficacy_values].
  unfold calculateTauB. cbn [length]. destruct reverse; cbn [negb];
    unfold range_up, range_down; cbn [seq rev];
    destruct (kendalltau [] []) as [[tau pvalue]|e]; done.
Qed.

End ScriptFacts.

Lemma script_stops_at_first_bad_row_witness :
  compute_taub decimal kendalltau_of_nothing id
    (lines_text [tsv ["A"; "3"]; tsv ["B"]; tsv ["C"; "x"]]) [] false =
  inl (if decide (length ["B"] ≠ 2%nat) then NotTwoColumns (length [["A"; "3"]])
       else Uncaught (ValueError (FloatSyntax (["B"] !!! 1%nat)))).
Proof.
  apply (script_stops_at_first_bad_row decimal kendalltau_of_nothing id
           (lines_text [tsv ["A"; "3"]; tsv ["B"]; tsv ["C"; "x"]]) [] false
           [["A"; "3"]] ["B"] [["C"; "x"]]).
  - by vm_compute.
  - constructor; [|constructor]. split; [reflexivity|]. vm_compute. eauto.
  - left. simpl. lia.
Defined.

Lemma script_on_blank_input_witness :
  compute_taub decimal kendalltau_of_nothing id blank [] true =
  match kendalltau_of_nothing [] ([] : list pyfloat) with
  | Ok (tau, pvalue) => inr ([] ++ [id tau +:+ TAB +:+ id pvalue +:+ NL])
  | Raise e => inl (Uncaught e)
  end.
Proof.
  apply (script_on_blank_input decimal kendalltau_of_nothing id blank [] true).
  by vm_compute.
Defined.

(** ** The ideal ordering of [calculateTauB] *)

Lemma range_down_lookup n i :
  (i < n)%nat → range_down n !! i = Some (n - i)%nat.
Proof.
  intros Hi. unfold range_down. rewrite rev_alt.
  change (rev_append (seq 1 n) []) with (reverse (seq 1 n)).
  rewrite reverse_lookup.
  - rewrite length_seq, lookup_seq_lt by lia. f_equal. lia.
  - rewrite length_seq. lia.
Qed.

Lemma range_up_lookup n i : (i < n)%nat → range_up n !! i = Some i.
Proof. intros Hi. unfold range_up. by rewrite lookup_seq_lt. Qed.

Section CorrelationIdeal.

Context {score num : Type}.
Variable kendalltau : list nat → list score → result (num * num).
Variable str : num → string.

(** X25.  [calculateTauB] calls [kendalltau] once, on the user's ordering
    and an ideal ordering of the same length without ties: at the place [i]
    it holds [i] when [reverse] is set, and the length less [i] when it is
    not, so it rises from 0 in the first case and falls to 1 in the
    second.  What the call raises is raised, and what it returns is written
    as one line behind what the sink held. *)
Theorem calculateTauB_ideal_ordering (userOrder : list score)
    (outfile : list string) (reverse : bool) :
  ∃ ideal : list nat,
    calculateTauB kendalltau str userOrder outfile reverse =
      match kendalltau ideal userOrder with
      | Ok (tau, pvalue) =>
          Ok (outfile ++ [str tau +:+ TAB +:+ str pvalue +:+ NL])
      | Raise e => Raise e
      end ∧
    length ideal = length userOrder ∧
    ∀ i, (i < length userOrder)%nat →
         ideal !! i = Some (if reverse then i else (length userOrder - i)%nat).
Proof.
  unfold calculateTauB. destruct reverse; cbn [negb].
  - exists (range_up (length userOrder)). split; [|split].
    + by destruct (kendalltau _ _) as [[tau pvalue]|e].
    + apply length_seq.
    + apply range_up_lookup.
  - exists (range_down (length userOrder)). split; [|split].
    + by destruct (kendalltau _ _) as [[tau pvalue]|e].
    + unfold range_down. by rewrite length_rev, length_seq.
    + apply range_down_lookup.
Qed.

End CorrelationIdeal.

(** ** The earlier module orderCheck.py *)

Lemma numIndirect_fold_total lo hi (n : gmap string nat) log : ∀ d x,
  foldl (numIndirect_next lo hi n) d log !!! x =
  (d !!! x + sum_list ((n !!!.) <$> infectees lo hi log x))%nat.
Proof.
  induction log as [|r log IH]; intros d x; simpl; [lia|].
  rewrite IH, infectees_cons. unfold numIndirect_next.
  destruct (fgt lo (time r) || fgt (time r) hi) eqn:Hb.
  { apply out_of_bounds_not in Hb.
    rewrite decide_False; [done|]. unfold counted. tauto. }
  apply out_of_bounds_iff in Hb.
  destruct (decide (source r = "None")) as [Hn|Hn].
  { rewrite decide_False; [done|]. unfold counted. tauto. }
  cbn zeta. rewrite exposure_add_total, lookup_total_setdefault0.
  destruct (decide (source r = x)) as [Hx|Hx].
  - rewrite decide_True by (unfold counted; tauto).
    rewrite fmap_cons. cbn [sum_list sum_list_with id]. lia.
  - rewrite decide_False by tauto. lia.
Qed.

Lemma numIndirect_fold_dom lo hi (n : gmap string nat) log : ∀ d,
  dom (foldl (numIndirect_next lo hi n) d log) = dom d ∪ sources lo hi log.
Proof.
  induction log as [|r log IH]; intros d; simpl.
  { unfold sources. simpl. set_solver. }
  rewrite IH, sources_cons. unfold numIndirect_next.
  destruct (fgt lo (time r) || fgt (time r) hi) eqn:Hb.
  { apply out_of_bounds_not in Hb.
    rewrite decide_False; [done|]. unfold counted. tauto. }
  apply out_of_bounds_iff in Hb.
  destruct (decide (source r = "None")) as [Hn|Hn].
  { rewrite decide_False; [done|]. unfold counted. tauto. }
  rewrite (decide_True (P := counted lo hi r)) by (unfold counted; tauto).
  cbn zeta. case_decide; rewrite ?dom_add_to, dom_setdefault0; set_solver.
Qed.

Lemma sum_direct_count_infectees lo hi log (l : list string) :
  sum_list (direct_count lo hi log <$> l) =
  length (flat_map (infectees lo hi log) l).
Proof.
  induction l as [|y l IH]; [done|].
  change (sum_list (direct_count lo hi log <$> y :: l)) with
    (direct_count lo hi log y + sum_list (direct_count lo hi log <$> l))%nat.
  cbn [flat_map]. rewrite length_app, IH.
  unfold direct_count, infectees. by rewrite length_fmap.
Qed.

Lemma first_contact_count_cons c net x :
  first_contact_count (c :: net) x =
    match c with
    | Some c =>
        if decide (node c = "None") then first_contact_count net x
        else ((if decide (neighborA c = x) then 1 else 0) +
              first_contact_count net x)%nat
    | None => first_contact_count net x
    end.
Proof.
  unfold first_contact_count. rewrite edges_cons.
  destruct c as [c|]; [|done]. case_decide; [done|].
  rewrite filter_cons. by case_decide.
Qed.

Lemma first_contact_fold_total net : ∀ d x,
  foldl first_contact_next d net !!! x =
  (d !!! x + first_contact_count net x)%nat.
Proof.
  induction net as [|c net IH]; intros d x; simpl.
  { unfold first_contact_count, edges. simpl. lia. }
  rewrite IH, first_contact_count_cons. destruct c as [[u a b]|]; simpl; [|done].
  case_decide; [done|].
  rewrite !lookup_total_add_to, !lookup_total_setdefault0.
  repeat case_decide; simplify_eq; lia.
Qed.

Lemma first_contact_fold_lookup net : ∀ d x,
  is_Some (foldl first_contact_next d net !! x) ↔
  is_Some (d !! x) ∨ first_contact_count net x ≠ 0%nat.
Proof.
  induction net as [|c net IH]; intros d x; simpl.
  { unfold first_contact_count, edges. simpl. tauto. }
  rewrite IH, first_contact_count_cons. destruct c as [[u a b]|]; simpl;
    [|done].
  case_decide; [done|].
  rewrite <- !elem_of_dom, dom_add_to, dom_setdefault0.
  case_decide; simplify_eq; [set_solver by lia|].
  rewrite !elem_of_union, elem_of_singleton. simpl. naive_solver.
Qed.

Lemma orderCheck_numContacts_line_read line d :
  OrderCheck.numContacts_line line d =
    c ← read_contact line; Ok (first_contact_next d c).
Proof.
  unfold OrderCheck.numContacts_line, read_contact, first_contact_next.
  destruct (decide (slice_0_4 line = "NODE")); [done|].
  destruct (unpack5 (split TAB_CHAR line)) as [[[[[u v] t] w] x]|e];
    simpl; [|done].
  by destruct (decide (strip u = "None")).
Qed.

Lemma orderCheck_numContacts_read f lo hi :
  OrderCheck.numContacts f lo hi =
    net ← read_contacts f; Ok (foldl first_contact_next ∅ net).
Proof.
  unfold OrderCheck.numContacts, read_contacts.
  destruct (opengzip f) as [lines|e]; simpl; [|done].
  apply for_each_read, orderCheck_numContacts_line_read.
Qed.

(** X26.  In orderCheck.py the contact count of an individual is the
    number of lines, no headers and with a first field other than ['None'],
    whose second field it is; standing as the third field counts for
    nothing, and who is no second field of such a line has no entry.  The
    score is never more than that of [numContacts] in
    efficacyFunctions.py. *)
Theorem orderCheck_contact_count f lower upper net :
  read_contacts f = Ok net →
  ∃ d d', OrderCheck.numContacts f lower upper = Ok d ∧
          numContacts f lower upper = Ok d' ∧
          ∀ x, d !! x =
                 (if decide (first_contact_count net x = 0)%nat then None
                  else Some (first_contact_count net x)) ∧
               (score_of d x ≤ score_of d' x)%nat.
Proof.
  intros Hnet.
  rewrite orderCheck_numContacts_read, numContacts_read, Hnet, !bind_Ok.
  eexists _, _. split; [done|]. split; [done|]. intros x.
  rewrite !score_of_total, first_contact_fold_total, numContacts_fold_total.
  rewrite !lookup_total_empty. split.
  - pose proof (first_contact_fold_lookup net ∅ x) as Hsome.
    pose proof (first_contact_fold_total net ∅ x) as Htotal.
    rewrite lookup_total_empty in Htotal. rewrite lookup_empty in Hsome.
    rewrite lookup_total_alt in Htotal.
    destruct (foldl first_contact_next ∅ net !! x) as [n|] eqn:Hx;
      simpl in Htotal.
    + rewrite decide_False; [by rewrite <- Htotal|].
      destruct (proj1 Hsome) as [[? ?]|?]; [by eauto|done|done].
    + rewrite decide_True; [done|].
      destruct (decide (first_contact_count net x = 0%nat)) as [|Hne];
        [done|].
      destruct (proj2 Hsome) as [? ?]; [by right|done].
  - simpl. clear Hnet. induction net as [|c net IH].
    { unfold first_contact_count, edges. simpl. lia. }
    rewrite first_contact_count_cons, contact_count_cons.
    destruct c as [c|]; [|done]. repeat case_decide; lia.
Qed.

Lemma orderCheck_contact_count_witness :
  ∃ d d', OrderCheck.numContacts sample_net zero PInf = Ok d ∧
          numContacts sample_net zero PInf = Ok d' ∧
          ∀ x, d !! x =
                 (if decide (first_contact_count sample_contacts x = 0)%nat
                  then None
                  else Some (first_contact_count sample_contacts x)) ∧
               (score_of d x ≤ score_of d' x)%nat.
Proof.
  apply (orderCheck_contact_count sample_net zero PInf sample_contacts).
  vm_compute. reflexivity.
Defined.

Section OrderCheckFacts.

Variable float : string → option pyfloat.

Lemma orderCheck_directTransmissions_read f lo hi :
  OrderCheck.directTransmissions float f lo hi =
    log ← read_log float f; Ok (foldl (numInfected_next lo hi) ∅ log).
Proof.
  unfold OrderCheck.directTransmissions, read_log.
  destruct (opengzip f) as [lines|e]; simpl; [|done].
  apply for_each_read, numInfected_line_read.
Qed.

Lemma orderCheck_directTransmissions_later f lo hi :
  OrderCheck.directTransmissions float f lo hi =
  directTransmissions float f lo hi.
Proof.
  rewrite orderCheck_directTransmissions_read, directTransmissions_read.
  destruct (read_log float f) as [log|e] eqn:Hlog; simpl; [|done].
  f_equal. apply numInfected_fold_direct. by eapply read_log_source.
Qed.

Lemma orderCheck_indirectTransmissions_read f lo hi :
  OrderCheck.indirectTransmissions float f lo hi =
    log ← read_log float f;
    Ok (foldl (numIndirect_next lo hi (foldl (numInfected_next lo hi) ∅ log))
          ∅ log).
Proof.
  unfold OrderCheck.indirectTransmissions, read_log.
  destruct (opengzip f) as [lines|e]; simpl; [|done].
  rewrite (for_each_read _ _ _ (numInfected_line_read float lo hi)).
  destruct (read_all (read_transmission float) lines) as [log|e] eqn:Hlog;
    simpl; [|done].
  by rewrite (for_each_read _ _ _ (numIndirect_line_read float lo hi _)), Hlog.
Qed.

(** X27.  In orderCheck.py the metrics 1, 2 and 4 are one metric: for
    every file and bounds [pairCounts] returns for each of them what
    [directTransmissions] of efficacyFunctions.py returns, the dictionary
    or the exception. *)
Theorem orderCheck_metrics_1_2_4 f lower upper metric :
  metric ∈ [1; 2; 4]%Z →
  OrderCheck.pairCounts float f lower upper metric =
    d ← directTransmissions float f lower upper; Ok (Some d).
Proof.
  intros Hm. rewrite <- orderCheck_directTransmissions_later.
  rewrite orderCheck_directTransmissions_read.
  assert (OrderCheck.totalTransmissions float f lower upper =
          log ← read_log float f;
          Ok (foldl (numInfected_next lower upper) ∅ log)) as Htotal.
  { apply (totalTransmissions_read float). }
  assert (OrderCheck.bestfitGraph float f lower upper =
          log ← read_log float f;
          Ok (foldl (numInfected_next lower upper) ∅ log)) as Hfit.
  { apply orderCheck_directTransmissions_read. }
  unfold OrderCheck.pairCounts.
  repeat (apply elem_of_cons in Hm as [->|Hm]); [| | |by inversion Hm];
    cbn [Z.eqb Pos.eqb];
    by rewrite ?orderCheck_directTransmissions_read, ?Htotal, ?Hfit.
Qed.

(** X28.  In orderCheck.py the indirect count of a source is the sum of
    the direct counts of its infectees, one for each of its counted
    records; who is no source has no entry.  Every individual has the
    same score, 0 standing for no entry, as [indirectTransmissions] of
    efficacyFunctions.py gives at two degrees. *)
Theorem orderCheck_indirect_count f lower upper log :
  read_log float f = Ok log →
  ∃ d d', OrderCheck.indirectTransmissions float f lower upper = Ok d ∧
          indirectTransmissions float f 2 lower upper = Ok d' ∧
          ∀ x, d !! x =
                 (if decide (x ∈ sources lower upper log)
                  then Some (sum_list (direct_count lower upper log
                                         <$> infectees lower upper log x))
                  else None) ∧
               score_of d x = score_of d' x.
Proof.
  intros Hlog.
  destruct (indirectTransmissions_spec float f 2 lower upper log Hlog)
    as (d' & Hd' & _ & Hscore).
  rewrite orderCheck_indirectTransmissions_read, Hlog, bind_Ok.
  eexists _, d'. split; [done|]. split; [done|]. intros x.
  assert (Forall (λ r, source r ≠ "") log) as Hsrc
    by by eapply read_log_source.
  assert (foldl (numIndirect_next lower upper
                   (foldl (numInfected_next lower upper) ∅ log)) ∅ log !!! x
          = sum_list (direct_count lower upper log
                        <$> infectees lower upper log x)) as Htotal.
  { rewrite numIndirect_fold_total, lookup_total_empty. simpl.
    f_equal. apply list_fmap_ext. intros _ y _.
    by apply numInfected_fold_total. }
  split.
  - rewrite lookup_dom_total_nat, numIndirect_fold_dom, dom_empty_L,
      union_empty_l_L, Htotal. done.
  - rewrite !score_of_total, Htotal, Hscore. cbn [reach Nat.sub].
    rewrite sum_direct_count_infectees. lia.
Qed.

End OrderCheckFacts.

Lemma orderCheck_metrics_1_2_4_witness :
  OrderCheck.pairCounts decimal chain_log zero PInf 4 =
    d ← directTransmissions decimal chain_log zero PInf; Ok (Some d).
Proof.
  apply (orderCheck_metrics_1_2_4 decimal chain_log zero PInf 4).
  set_solver.
Defined.

Lemma orderCheck_indirect_count_witness :
  ∃ d d', OrderCheck.indirectTransmissions decimal chain_log zero PInf = Ok d ∧
          indirectTransmissions decimal chain_log 2 zero PInf = Ok d' ∧
          ∀ x, d !! x =
                 (if decide (x ∈ sources zero PInf chain_records)
                  then Some (sum_list (direct_count zero PInf chain_records
                                         <$> infectees zero PInf chain_records x))
                  else None) ∧
               score_of d x = score_of d' x.
Proof.
  apply (orderCheck_indirect_count decimal chain_log zero PInf chain_records).
  vm_compute. reflexivity.
Defined.

Section OrderCheckListing.

Context {V : Type}.
Variable format_d : V → result string.
Variable format_f : V → string.

(** X29.  The rank matcher of orderCheck.py writes what the later one
    writes for every metric other than metric 2: the same lines behind the
    same sink, and the same exception of ["%d"] after the same lines. *)
Theorem orderCheck_listing_is_later (d : gmap string V) order outfile metric :
  selector_eq metric METRIC2 = false →
  OrderCheck.matchInfectorCounts format_d d order outfile =
  matchInfectorCounts format_d format_f d order outfile metric.
Proof.
  intros Hm. revert outfile.
  induction order as [|line order IH]; intros outfile; [done|].
  cbn [OrderCheck.matchInfectorCounts matchInfectorCounts].
  assert (OrderCheck.matchInfectorCounts_line format_d d outfile line =
          matchInfectorCounts_line format_d format_f d metric outfile line)
    as ->.
  { unfold OrderCheck.matchInfectorCounts_line, matchInfectorCounts_line.
    rewrite Hm. by destruct (d !! strip line). }
  destruct (matchInfectorCounts_line _ _ _ _ _ _); [apply IH|done].
Qed.

End OrderCheckListing.

Lemma orderCheck_listing_is_later_witness :
  OrderCheck.matchInfectorCounts percent_d {["A" := Count 2]} [" A"; "B"] [] =
  matchInfectorCounts percent_d (λ _, "") {["A" := Count 2]} [" A"; "B"] []
    (Selector 1 0).
Proof.
  apply (orderCheck_listing_is_later percent_d (λ _, "") {["A" := Count 2]}
           [" A"; "B"] [] (Selector 1 0)).
  reflexivity.
Defined.

Section OrderCheckCorrelation.

Context {entry score num : Type}.
Variable item0 : entry → result score.
Variable kendalltau : list nat → list score → result (num * num).
Variable str : num → string.

(** X30.  [calculateTauB] of orderCheck.py fails on every ordering that is
    not empty: its ideal ordering holds integers, [e[0]] of the first of
    them is a [TypeError], and neither the ordering is read nor
    [kendalltau] called nor anything written. *)
Theorem orderCheck_tau_b_fails (userOrder : list entry)
    (outfile : list string) (reverse : bool) :
  userOrder ≠ [] →
  OrderCheck.calculateTauB item0 kendalltau str userOrder outfile reverse =
  inl OrderCheck.IntNotSubscriptable.
Proof. by destruct userOrder. Qed.

End OrderCheckCorrelation.

Lemma orderCheck_tau_b_fails_witness :
  OrderCheck.calculateTauB (λ e : pyfloat, Ok e) kendalltau_of_nothing id
    [zero] [] false =
  inl OrderCheck.IntNotSubscriptable.
Proof.
  apply (orderCheck_tau_b_fails (λ e : pyfloat, Ok e) kendalltau_of_nothing id
           [zero] [] false).
  done.
Defined.
